(** * An EventSource client: stream parser and connection life cycle

    A shallow embedding of the EventSource client of the SDK (the
    text/event-stream parser adapted from WebKit and the reconnecting
    connection manager around it), with the properties of its
    specification stated and proved over the embedding.

    Conventions of the embedding.
    - A [Buffer] is a list of bytes; [buf[i]] is [index], which is
      [None] where JavaScript reads [undefined].
    - A JavaScript string is a [string]; [Buffer.toString] is read as
      the byte-for-character conversion, which is what UTF-8 decoding
      does on ASCII text: a string stands for the text of which it
      holds the UTF-8 encoding.  Field names are compared against ASCII
      literals, so the dispatch on them is exact for every input, and
      [parseInt] skips the white space characters in their encoded
      form.
    - Numbers are in [Z]: the code uses -1 as a marker and computes
      differences of indices.  The number that [parseInt] gives is the
      double nearest to the integer it reads, which is an integer
      again; [2 ^ 1024], which no double reaches, stands for
      [Infinity].
    - The variables captured by the closures of [EventSource] are the
      fields of explicit records, threaded through every call.
    - [_emit] is recorded in a log, in call order. *)

From Stdlib Require Import ZArith List Bool Lia.
From Stdlib Require Import Strings.String Strings.Ascii Strings.Byte.
From stdpp Require Import base gmap strings.
Import ListNotations.

Local Open Scope string_scope.
Local Open Scope list_scope.
Local Open Scope Z_scope.

(** ** JavaScript primitives used by the source *)

Module Js.

Definition Buffer := list byte.

(** [buf[i]]: out of range reads give [undefined]. *)
Definition index (buf : Buffer) (i : Z) : option byte :=
  if i <? 0 then None else nth_error buf (Z.to_nat i).

(** [x === charCode] for a value read from a buffer. *)
Definition is_code (x : option byte) (charCode : byte) : bool :=
  match x with
  | Some c => Byte.eqb c charCode
  | None => false
  end.

(** Resolution of one bound of [slice]: a negative bound counts from the
    end, and every bound is clamped to the object. *)
Definition clamp (len i : Z) : Z :=
  if i <? 0 then Z.max 0 (len + i) else Z.min i len.

(** [x.slice(start, stop)] on array-like values. *)
Definition slice {A : Type} (l : list A) (start stop : Z) : list A :=
  let len := Z.of_nat (length l) in
  let a := clamp len start in
  let b := clamp len stop in
  firstn (Z.to_nat (b - a)) (skipn (Z.to_nat a) l).

(** [buf.slice(start)]. *)
Definition slice_from {A : Type} (l : list A) (start : Z) : list A :=
  slice l start (Z.of_nat (length l)).

(** [buf.toString()]. *)
Definition toString (b : Buffer) : string := string_of_list_byte b.

(** [s.slice(start, stop)] on strings. *)
Definition str_slice (s : string) (start stop : Z) : string :=
  string_of_list_ascii (slice (list_ascii_of_string s) start stop).

(** Truthiness of a string: the empty string is falsy. *)
Definition truthy_str (s : string) : bool :=
  match s with
  | EmptyString => false
  | String _ _ => true
  end.

(** The white space that [parseInt] skips: the characters TAB, LF, VT,
    FF, CR and SP, and, in their UTF-8 encoding, U+00A0, U+1680, U+2000
    to U+200A, U+2028, U+2029, U+202F, U+205F, U+3000 and U+FEFF. *)
Definition white_space : list string :=
  map string_of_list_byte
      [ [x09]; [x0a]; [x0b]; [x0c]; [x0d]; [x20];
        [xc2; xa0]; [xe1; x9a; x80];
        [xe2; x80; x80]; [xe2; x80; x81]; [xe2; x80; x82]; [xe2; x80; x83];
        [xe2; x80; x84]; [xe2; x80; x85]; [xe2; x80; x86]; [xe2; x80; x87];
        [xe2; x80; x88]; [xe2; x80; x89]; [xe2; x80; x8a];
        [xe2; x80; xa8]; [xe2; x80; xa9]; [xe2; x80; xaf];
        [xe2; x81; x9f]; [xe3; x80; x80]; [xef; xbb; xbf] ].

(** What is left of [s] after its prefix [w]. *)
Fixpoint drop_prefix (w s : string) : option string :=
  match w with
  | EmptyString => Some s
  | String a w' =>
      match s with
      | String b s' => if Ascii.eqb a b then drop_prefix w' s' else None
      | EmptyString => None
      end
  end.

(** What is left of [s] after one white space character. *)
Fixpoint strip_white (ws : list string) (s : string) : option string :=
  match ws with
  | [] => None
  | w :: ws' =>
      match drop_prefix w s with
      | Some r => Some r
      | None => strip_white ws' s
      end
  end.

Fixpoint skip_white_n (fuel : nat) (s : string) : string :=
  match fuel with
  | O => s
  | S fuel' =>
      match strip_white white_space s with
      | Some r => skip_white_n fuel' r
      | None => s
      end
  end.

(** The string less its leading white space. *)
Definition skip_white (s : string) : string := skip_white_n (String.length s) s.

Definition digit (c : ascii) : option Z :=
  let n := N_of_ascii c in
  if ((48 <=? n) && (n <=? 57))%N then Some (Z.of_N n - 48) else None.

Fixpoint digits (s : string) (acc : option Z) : option Z :=
  match s with
  | String c s' =>
      match digit c with
      | Some d => digits s' (Some (10 * (match acc with Some a => a | None => 0 end) + d))
      | None => acc
      end
  | EmptyString => acc
  end.

(** The double nearest to an integer, ties going to the even
    significand of 53 bits. *)
Definition round_pos (n : Z) : Z :=
  if n <? 2 ^ 53 then n
  else
    let e := Z.log2 n - 52 in
    let q := Z.shiftr n e in
    let r := n - Z.shiftl q e in
    let h := Z.shiftl 1 (e - 1) in
    let q' := if h <? r then q + 1 else if (r =? h) && Z.odd q then q + 1 else q in
    let x := Z.shiftl q' e in
    if 2 ^ 1024 <=? x then 2 ^ 1024 else x.

Definition to_double (z : Z) : Z := if z <? 0 then - round_pos (- z) else round_pos z.

(** [parseInt(s, 10)]: leading white space is skipped, one sign is
    accepted, and the longest run of decimal digits is read; what
    follows the digits is ignored.  [None] is [NaN]. *)
Definition parseInt (s : string) : option Z :=
  match skip_white s with
  | String "-" s' => option_map (fun n => to_double (- n)) (digits s' None)
  | String "+" s' => option_map to_double (digits s' None)
  | s' => option_map to_double (digits s' None)
  end.

End Js.

(** ** The stream parser *)

Module Parser.
Import Js.

Definition bom : list byte := [xef; xbb; xbf].   (* 239, 187, 191 *)
Definition colon : byte := x3a.                  (* 58 *)
Definition space : byte := x20.                  (* 32 *)
Definition lineFeed : byte := x0a.               (* 10 *)
Definition carriageReturn : byte := x0d.         (* 13 *)

(** The string with the single character line feed. *)
Definition nl : string := String (ascii_of_byte lineFeed) EmptyString.

(** [bom.every((charCode, index) => buf[index] === charCode)]. *)
Definition hasBom (buf : Buffer) : bool :=
  forallb (fun p => is_code (index buf (Z.of_nat (fst p))) (snd p))
          (combine (seq 0 (length bom)) bom).

(** What [_emit] is called with.  The origin of a message is computed
    from the url by a library call; the event records the url. *)
Inductive Emitted : Type :=
| EOpen
| EError (status : option Z) (message : option string)
| EMessage (type : string) (payload : string) (id : string) (origin_of : string).

(** The variables of the [EventSource] closure that the parser reads and
    writes.  [eventName] is [None] when it holds [undefined]. *)
Record Vars : Type := mkVars {
  discardTrailingNewline : bool;
  data : string;
  eventName : option string;
  lastEventId : string;
  reconnectInterval : Z;
  log : list Emitted
}.

Definition set_discard (b : bool) (v : Vars) : Vars :=
  mkVars b (data v) (eventName v) (lastEventId v) (reconnectInterval v) (log v).
Definition set_data (d : string) (v : Vars) : Vars :=
  mkVars (discardTrailingNewline v) d (eventName v) (lastEventId v) (reconnectInterval v) (log v).
Definition set_eventName (n : option string) (v : Vars) : Vars :=
  mkVars (discardTrailingNewline v) (data v) n (lastEventId v) (reconnectInterval v) (log v).
Definition set_lastEventId (i : string) (v : Vars) : Vars :=
  mkVars (discardTrailingNewline v) (data v) (eventName v) i (reconnectInterval v) (log v).
Definition set_reconnectInterval (r : Z) (v : Vars) : Vars :=
  mkVars (discardTrailingNewline v) (data v) (eventName v) (lastEventId v) r (log v).
Definition emit (e : Emitted) (v : Vars) : Vars :=
  mkVars (discardTrailingNewline v) (data v) (eventName v) (lastEventId v) (reconnectInterval v)
         (log v ++ [e]).

(** [eventName || 'message']. *)
Definition type_of (n : option string) : string :=
  match n with
  | Some s => if truthy_str s then s else "message"
  | None => "message"
  end.

(** [parseEventStreamLine(buf, pos, fieldLength, lineLength)]. *)
Definition parseEventStreamLine (url : string) (buf : Buffer)
    (pos fieldLength lineLength : Z) (v : Vars) : Vars :=
  if lineLength =? 0 then
    let v :=
      if 0 <? Z.of_nat (String.length (data v)) then
        let type := type_of (eventName v) in
        set_data "" (emit (EMessage type (str_slice (data v) 0 (-1)) (lastEventId v) url) v)
      else v in
    set_eventName None v
  else if 0 <? fieldLength then
    let noValue := fieldLength <? 0 in
    let field := toString (slice buf pos (pos + (if noValue then lineLength else fieldLength))) in
    let step :=
      if noValue then lineLength
      else if negb (is_code (index buf (pos + fieldLength + 1)) space) then fieldLength + 1
      else fieldLength + 2 in
    let pos := pos + step in
    let valueLength := lineLength - step in
    let value := toString (slice buf pos (pos + valueLength)) in
    if String.eqb field "data" then set_data (data v ++ value ++ nl)%string v
    else if String.eqb field "event" then set_eventName (Some value) v
    else if String.eqb field "id" then set_lastEventId value v
    else if String.eqb field "retry" then
      match parseInt value with
      | Some retry => set_reconnectInterval retry v
      | None => v
      end
    else v
  else v.

(** The [for] loop that looks for the end of the line: [rest] holds the
    bytes [buf[i]], [buf[i+1]], ... up to the end of the buffer, so the
    test [i < length] is the test that [rest] is not empty.  The result
    is [(lineLength, fieldLength, discardTrailingNewline)]. *)
Fixpoint scan (pos : Z) (rest : list byte) (i : Z)
    (lineLength fieldLength : Z) (discard : bool) : Z * Z * bool :=
  match rest with
  | [] => (lineLength, fieldLength, discard)
  | c :: rest' =>
      if lineLength <? 0 then
        if Byte.eqb c colon then
          scan pos rest' (i + 1) lineLength
               (if fieldLength <? 0 then i - pos else fieldLength) discard
        else if Byte.eqb c carriageReturn then
          scan pos rest' (i + 1) (i - pos) fieldLength true
        else if Byte.eqb c lineFeed then
          scan pos rest' (i + 1) (i - pos) fieldLength discard
        else scan pos rest' (i + 1) lineLength fieldLength discard
      else (lineLength, fieldLength, discard)
  end.

(** The variables of the closure of one response: they are created when
    a response with status 200 arrives. *)
Record Stream : Type := mkStream {
  isFirst : bool;
  buf : option Buffer;
  startingPos : Z;
  startingFieldLength : Z
}.

Definition new_stream : Stream := mkStream true None 0 (-1).

(** The state of the [while] loop between two iterations. *)
Record Loop : Type := mkLoop {
  l_pos : Z;
  l_startingPos : Z;
  l_startingFieldLength : Z;
  l_vars : Vars
}.

(** The [while (pos < length)] loop of the data handler.  Every
    iteration that does not leave the loop moves [pos] forward, so
    [fuel] bounds the number of iterations; [None] is fuel exhausted. *)
Fixpoint while_loop (fuel : nat) (url : string) (b : Buffer) (st : Loop) : option Loop :=
  match fuel with
  | O => None
  | S fuel' =>
      let length := Z.of_nat (List.length b) in
      if l_pos st <? length then
        let v := l_vars st in
        let pos :=
          if discardTrailingNewline v
          then (if is_code (index b (l_pos st)) lineFeed then l_pos st + 1 else l_pos st)
          else l_pos st in
        let v := if discardTrailingNewline v then set_discard false v else v in
        let '(lineLength, fieldLength, discard) :=
          scan pos (skipn (Z.to_nat (l_startingPos st)) b) (l_startingPos st)
               (-1) (l_startingFieldLength st) (discardTrailingNewline v) in
        let v := set_discard discard v in
        if lineLength <? 0 then
          Some (mkLoop pos (length - pos) fieldLength v)
        else
          let v := parseEventStreamLine url b pos fieldLength lineLength v in
          while_loop fuel' url b (mkLoop (pos + lineLength + 1) 0 (-1) v)
      else Some st
  end.

(** [res.on('data', function(chunk) ...)]. *)
Definition on_data (url : string) (chunk : Buffer) (s : Stream) (v : Vars)
    : option (Stream * Vars) :=
  let b := match buf s with Some b0 => b0 ++ chunk | None => chunk end in
  let b := if isFirst s && hasBom b then slice_from b (Z.of_nat (List.length bom)) else b in
  let length := Z.of_nat (List.length b) in
  match while_loop (S (List.length b)) url b
                   (mkLoop 0 (startingPos s) (startingFieldLength s) v) with
  | Some st =>
      let pos := l_pos st in
      let b' :=
        if pos =? length then None
        else if 0 <? pos then Some (slice_from b pos)
        else Some b in
      Some (mkStream false b' (l_startingPos st) (l_startingFieldLength st), l_vars st)
  | None => None
  end.

(** The data handler called on the chunks of one response, in order. *)
Fixpoint feed (url : string) (chunks : list Buffer) (s : Stream) (v : Vars)
    : option (Stream * Vars) :=
  match chunks with
  | [] => Some (s, v)
  | c :: chunks' =>
      match on_data url c s v with
      | Some (s', v') => feed url chunks' s' v'
      | None => None
      end
  end.

(** The parser variables as the constructor leaves them. *)
Definition init_vars (id : string) : Vars := mkVars false "" (Some "") id 1000 [].

(** Bytes of an ASCII literal. *)
Definition bytes (s : string) : Buffer := list_byte_of_string s.

End Parser.

(** ** The connection manager *)

Module Conn.
Import Js Parser.

Inductive ReadyState : Type := CONNECTING | OPEN | CLOSED.

Definition is_closed (r : ReadyState) : bool :=
  match r with CLOSED => true | _ => false end.
Definition is_connecting (r : ReadyState) : bool :=
  match r with CONNECTING => true | _ => false end.

(** Values found in the option objects. *)
Inductive jsval : Type :=
| JUndefined
| JNull
| JBool (b : bool)
| JStr (s : string).

Definition truthy (x : jsval) : bool :=
  match x with
  | JBool b => b
  | JStr s => truthy_str s
  | JUndefined | JNull => false
  end.

Definition is_undefined (x : jsval) : bool :=
  match x with JUndefined => true | _ => false end.

(** [eventSourceInitDict]; a property that is not set reads
    [undefined] ([None] for the two objects). *)
Record InitDict : Type := mkInit {
  headers : option (gmap string string);
  rejectUnauthorized : jsval;
  https : option (gmap string jsval)
}.

Definition httpsOptions : list string :=
  [ "pfx"; "key"; "passphrase"; "cert"; "ca"; "ciphers";
    "rejectUnauthorized"; "secureProtocol"; "servername"; "checkServerIdentity" ].

(** The [options] object handed to [http.request]: the url it was
    parsed from, its headers, and its other properties. *)
Record Options : Type := mkOptions {
  o_url : string;
  o_headers : gmap string string;
  o_props : gmap string jsval
}.

(** A call of [http.request]; [req.abort()] marks it. *)
Record Request : Type := mkRequest {
  r_options : Options;
  r_aborted : bool
}.

(** The variables captured by the closures of [EventSource], and what
    the client has asked of the platform: the requests it has issued
    (the variable [req] is the last one), the delays of the timers that
    are pending, and the [process.nextTick(connect)] calls that have not
    run yet. *)
Record ES : Type := mkES {
  readyState : ReadyState;
  url : string;
  connectionInProgress : bool;
  reconnectUrl : option string;
  eventSourceInitDict : option InitDict;
  vars : Vars;
  stream : option Stream;
  requests : list Request;
  timers : list Z;
  ticks : nat
}.

Definition set_readyState (x : ReadyState) (s : ES) : ES :=
  mkES x (url s) (connectionInProgress s) (reconnectUrl s) (eventSourceInitDict s)
       (vars s) (stream s) (requests s) (timers s) (ticks s).
Definition set_url (x : string) (s : ES) : ES :=
  mkES (readyState s) x (connectionInProgress s) (reconnectUrl s) (eventSourceInitDict s)
       (vars s) (stream s) (requests s) (timers s) (ticks s).
Definition set_connectionInProgress (x : bool) (s : ES) : ES :=
  mkES (readyState s) (url s) x (reconnectUrl s) (eventSourceInitDict s)
       (vars s) (stream s) (requests s) (timers s) (ticks s).
Definition set_reconnectUrl (x : option string) (s : ES) : ES :=
  mkES (readyState s) (url s) (connectionInProgress s) x (eventSourceInitDict s)
       (vars s) (stream s) (requests s) (timers s) (ticks s).
Definition set_vars (x : Vars) (s : ES) : ES :=
  mkES (readyState s) (url s) (connectionInProgress s) (reconnectUrl s) (eventSourceInitDict s)
       x (stream s) (requests s) (timers s) (ticks s).
Definition set_stream (x : option Stream) (s : ES) : ES :=
  mkES (readyState s) (url s) (connectionInProgress s) (reconnectUrl s) (eventSourceInitDict s)
       (vars s) x (requests s) (timers s) (ticks s).
Definition set_requests (x : list Request) (s : ES) : ES :=
  mkES (readyState s) (url s) (connectionInProgress s) (reconnectUrl s) (eventSourceInitDict s)
       (vars s) (stream s) x (timers s) (ticks s).
Definition set_timers (x : list Z) (s : ES) : ES :=
  mkES (readyState s) (url s) (connectionInProgress s) (reconnectUrl s) (eventSourceInitDict s)
       (vars s) (stream s) (requests s) x (ticks s).
Definition set_ticks (x : nat) (s : ES) : ES :=
  mkES (readyState s) (url s) (connectionInProgress s) (reconnectUrl s) (eventSourceInitDict s)
       (vars s) (stream s) (requests s) (timers s) x.

(** [_emit(...)]. *)
Definition emit_es (e : Emitted) (s : ES) : ES := set_vars (emit e (vars s)) s.

(** The loop that merges the caller's headers: a header whose value is
    falsy is skipped. *)
Definition merge_headers (caller base : gmap string string) : gmap string string :=
  map_fold (fun i header acc => if truthy_str header then <[i := header]> acc else acc)
           base caller.

(** The loop that merges the https options: only the names of
    [httpsOptions], and only the values that are not [undefined]. *)
Definition merge_https (tls props : gmap string jsval) : gmap string jsval :=
  map_fold (fun optName option acc =>
              if negb (existsb (String.eqb optName) httpsOptions) then acc
              else if is_undefined option then acc
              else <[optName := option]> acc)
           props tls.

(** The headers that [connect] sets before it merges the caller's. *)
Definition own_headers (lastEventId : string) : gmap string string :=
  let hs : gmap string string :=
    <["Accept" := "text/event-stream"]> (<["Cache-Control" := "no-cache"]> ∅) in
  if truthy_str lastEventId then <["Last-Event-ID" := lastEventId]> hs else hs.

(** The part of [connect] that builds [options].  The parsing of the
    url, the rewrite for a proxy (which adds a Host header), and the
    [createConnection] and [withCredentials] properties are left out:
    the request records the url it is built from. *)
Definition build_options (s : ES) : Options :=
  let dict := eventSourceInitDict s in
  let hs := own_headers (lastEventId (vars s)) in
  let hs :=
    match dict with
    | Some d => match headers d with Some h => merge_headers h hs | None => hs end
    | None => hs
    end in
  let legacy :=
    negb (match dict with Some d => negb (truthy (rejectUnauthorized d)) | None => false end) in
  let props : gmap string jsval := <["rejectUnauthorized" := JBool legacy]> ∅ in
  let props :=
    match dict with
    | Some d => match https d with Some t => merge_https t props | None => props end
    | None => props
    end in
  mkOptions (url s) hs props.

(** [connect()]: the request is built and sent. *)
Definition connect (s : ES) : ES :=
  set_requests (requests s ++ [mkRequest (build_options s) false]) s.

(** [req.abort()] on the request held by [req]. *)
Definition abort_req (s : ES) : ES :=
  match rev (requests s) with
  | r :: older => set_requests (rev older ++ [mkRequest (r_options r) true]) s
  | [] => s
  end.

(** [onConnectionClosed(message)]. *)
Definition onConnectionClosed (message : option string) (s : ES) : ES :=
  if is_closed (readyState s) then s
  else
    let s := set_readyState CONNECTING s in
    let s := emit_es (EError None message) s in
    let s :=
      match reconnectUrl s with
      | Some u => if truthy_str u then set_reconnectUrl None (set_url u s) else s
      | None => s
      end in
    set_timers (timers s ++ [reconnectInterval (vars s)]) s.

(** The function given to [setTimeout] by [onConnectionClosed]. *)
Definition on_timer (s : ES) : ES :=
  if negb (is_connecting (readyState s)) || connectionInProgress s then s
  else connect (set_connectionInProgress true s).

(** [this._close], which [close()] calls. *)
Definition _close (s : ES) : ES :=
  if is_closed (readyState s) then s
  else abort_req (set_readyState CLOSED s).

Definition status_in (status : Z) (l : list Z) : bool := existsb (Z.eqb status) l.

Definition truthy_header (h : option string) : bool :=
  match h with Some x => truthy_str x | None => false end.

(** The callback given to [http.request]. *)
Definition on_response (status : Z) (statusMessage : string) (location : option string)
    (s : ES) : ES :=
  let s := set_connectionInProgress false s in
  if status_in status [500; 502; 503; 504] then
    onConnectionClosed None (emit_es (EError (Some status) (Some statusMessage)) s)
  else if status_in status [301; 302; 307] then
    match location with
    | Some target =>
        if truthy_str target then
          let s := if status =? 307 then set_reconnectUrl (Some (url s)) s else s in
          let s := set_url target s in
          set_ticks (S (ticks s)) s
        else emit_es (EError (Some status) (Some statusMessage)) s
    | None => emit_es (EError (Some status) (Some statusMessage)) s
    end
  else if negb (status =? 200) then
    _close (emit_es (EError (Some status) (Some statusMessage)) s)
  else
    let s := set_readyState OPEN s in
    let s := emit_es EOpen s in
    set_stream (Some new_stream) s.

(** The data handler of the response, on the variables of the client. *)
Definition on_chunk (chunk : Buffer) (s : ES) : ES :=
  match stream s with
  | Some st =>
      match on_data (url s) chunk st (vars s) with
      | Some (st', v') => set_vars v' (set_stream (Some st') s)
      | None => s
      end
  | None => s
  end.

(** The handlers of the end and of the close of the response: the
    response is over, and the connection is reported closed. *)
Definition on_end (s : ES) : ES := onConnectionClosed None (set_stream None s).

(** The handler of the errors of the request. *)
Definition on_req_error (message : string) (s : ES) : ES :=
  onConnectionClosed (Some message) (set_connectionInProgress false s).

(** The constructor, up to and including its call of [connect]. *)
Definition take_last_event_id (dict : option InitDict) : string * option InitDict :=
  match dict with
  | Some d =>
      match headers d with
      | Some h =>
          match h !! "Last-Event-ID" with
          | Some x =>
              if truthy_str x
              then (x, Some (mkInit (Some (delete "Last-Event-ID" h))
                                    (rejectUnauthorized d) (https d)))
              else ("", dict)
          | None => ("", dict)
          end
      | None => ("", dict)
      end
  | None => ("", dict)
  end.

Definition EventSource (url : string) (dict : option InitDict) : ES :=
  let '(id, dict') := take_last_event_id dict in
  connect (mkES CONNECTING url false None dict' (init_vars id) None [] [] 0).

(** *** The callbacks as events

    The platform runs one callback at a time.  The queue of
    [process.nextTick] is emptied when the callback returns, before any
    other callback runs. *)
Inductive Event : Type :=
| Response (status : Z) (statusMessage : string) (location : option string)
| Chunk (chunk : Buffer)
| End
| ReqError (message : string)
| TimerFire (k : nat)
| Close.

Definition req_aborted (s : ES) : bool :=
  match rev (requests s) with
  | r :: _ => r_aborted r
  | [] => true
  end.

(** What the platform may call: the response callback of the request
    held by [req] unless it was aborted, the handlers of a response that
    is being read, the error handler of the request, a timer that is
    pending, and [close()]. *)
Definition enabled (e : Event) (s : ES) : bool :=
  match e with
  | Response _ _ _ => negb (req_aborted s)
  | Chunk _ | End => match stream s with Some _ => true | None => false end
  | ReqError _ => true
  | TimerFire k => (k <? List.length (timers s))%nat
  | Close => true
  end.

Definition remove_nth {A : Type} (k : nat) (l : list A) : list A :=
  firstn k l ++ skipn (S k) l.

Definition handle (e : Event) (s : ES) : ES :=
  match e with
  | Response status statusMessage location => on_response status statusMessage location s
  | Chunk c => on_chunk c s
  | End => on_end s
  | ReqError m => on_req_error m s
  | TimerFire k => on_timer (set_timers (remove_nth k (timers s)) s)
  | Close => _close s
  end.

Fixpoint drain (n : nat) (s : ES) : ES :=
  match n with
  | O => s
  | S n' => drain n' (connect s)
  end.

Definition exec (e : Event) (s : ES) : ES :=
  if enabled e s then
    let s' := handle e s in
    drain (ticks s') (set_ticks 0 s')
  else s.

Definition run (es : list Event) (s : ES) : ES := fold_left (fun s e => exec e s) es s.

(** The options of the request held by [req], one of its headers and
    one of its other properties. *)
Definition last_request (s : ES) : option Options :=
  match rev (requests s) with
  | r :: _ => Some (r_options r)
  | [] => None
  end.

Definition request_header (s : ES) (k : string) : option string :=
  match last_request s with
  | Some o => o_headers o !! k
  | None => None
  end.

Definition request_prop (s : ES) (k : string) : option jsval :=
  match last_request s with
  | Some o => o_props o !! k
  | None => None
  end.

(** The value given for an option through [eventSourceInitDict.https]. *)
Definition structured (d : InitDict) (k : string) : option jsval :=
  match https d with
  | Some t =>
      match t !! k with
      | Some x => if is_undefined x then None else Some x
      | None => None
      end
  | None => None
  end.

(** Between two callbacks the queue of [process.nextTick] is empty, and
    a client that is closed has aborted its request. *)
Definition settled (s : ES) : Prop :=
  ticks s = 0%nat /\ (readyState s = CLOSED -> req_aborted s = true).

(** The events on which the connection is reported closed. *)
Definition is_disconnect (e : Event) : bool :=
  match e with
  | End | ReqError _ => true
  | Response status _ _ => status_in status [500; 502; 503; 504]
  | _ => false
  end.

(** The calls of the callback given to [http.request]. *)
Definition is_response (e : Event) : bool :=
  match e with
  | Response _ _ _ => true
  | _ => false
  end.

(** The events of a response that is accepted and read. *)
Definition is_reading (e : Event) : bool :=
  match e with
  | Chunk _ => true
  | Response status _ _ => status =? 200
  | _ => false
  end.


End Conn.

(** ** Reference reading of a stream whose lines end with a line feed *)

Module Lines.
Import Js Parser.

(** Offset of the first colon of a line, -1 when it has none. *)
Fixpoint colon_index (l : list byte) : Z :=
  match l with
  | [] => -1
  | c :: l' =>
      if Byte.eqb c colon then 0
      else let k := colon_index l' in if k <? 0 then -1 else k + 1
  end.

(** The complete lines of a stream, and the bytes after the last line
    feed. *)
Fixpoint split_lf (s : list byte) : list (list byte) * list byte :=
  match s with
  | [] => ([], [])
  | c :: s' =>
      let '(ls, r) := split_lf s' in
      if Byte.eqb c lineFeed then ([] :: ls, r)
      else match ls with
           | [] => ([], c :: r)
           | l :: ls' => ((c :: l) :: ls', r)
           end
  end.

(** The source's line function on one complete line taken alone. *)
Definition line_step (url : string) (v : Vars) (l : list byte) : Vars :=
  parseEventStreamLine url (l ++ [lineFeed]) 0 (colon_index l) (Z.of_nat (length l)) v.

Definition no_cr (l : list byte) : bool :=
  forallb (fun c => negb (Byte.eqb c carriageReturn)) l.
Definition no_lf (l : list byte) : bool :=
  forallb (fun c => negb (Byte.eqb c lineFeed)) l.

(** The bytes of complete lines, each followed by its line feed. *)
Definition render_lines (ls : list (list byte)) : list byte :=
  concat (map (fun l => l ++ [lineFeed]) ls).

Definition clean_line (l : list byte) : bool := no_cr l && no_lf l.

(** A field length [fl] stands for the first colon of the bytes [l]
    scanned so far: any negative number when there is no colon. *)
Definition repr (fl : Z) (l : list byte) : Prop :=
  (colon_index l < 0 /\ fl < 0) \/ (0 <= colon_index l /\ fl = colon_index l).

(** The state of the response closure between two chunks, when the
    bytes [r] after the last line end are waiting. *)
Definition stream_ok (r : list byte) (st : Stream) : Prop :=
  isFirst st = false /\
  buf st = (match r with [] => None | _ => Some r end) /\
  startingPos st = Z.of_nat (length r) /\
  repr (startingFieldLength st) r.

(** Streams whose lines end with a carriage return, or with a carriage
    return and a line feed: each line feed directly follows a carriage
    return.  [p] tells whether the byte before the stream is a carriage
    return. *)
Fixpoint lf_after_cr (p : bool) (s : list byte) : bool :=
  match s with
  | [] => true
  | c :: s' =>
      if Byte.eqb c lineFeed then p && lf_after_cr false s'
      else lf_after_cr (Byte.eqb c carriageReturn) s'
  end.

(** The same stream with line feeds as line ends: a carriage return
    becomes a line feed, and the line feed that follows a carriage
    return is dropped. *)
Fixpoint norm (p : bool) (s : list byte) : list byte :=
  match s with
  | [] => []
  | c :: s' =>
      if Byte.eqb c carriageReturn then lineFeed :: norm true s'
      else if Byte.eqb c lineFeed then (if p then norm false s' else lineFeed :: norm false s')
      else c :: norm false s'
  end.

(** Whether the last byte is a carriage return. *)
Fixpoint ends_cr (p : bool) (s : list byte) : bool :=
  match s with
  | [] => p
  | c :: s' => ends_cr (Byte.eqb c carriageReturn) s'
  end.

(** One kind of line end in the whole stream: line feeds alone, or
    carriage returns with or without a line feed after them. *)
Definition uniform (s : list byte) : bool := no_cr s || lf_after_cr false s.

(** Removal of the byte-order mark by the first call of the handler. *)
Definition strip_bom (b : Buffer) : Buffer := if hasBom b then skipn 3 b else b.


End Lines.

(** ** Well-formed streams

    The lines of a well-formed stream: a blank line, one of the four
    fields written as [name: value] or as [name:value], or a comment.
    An event is a block of field lines with at least one [data] field,
    followed by a blank line. *)

Module Wire.
Import Js Parser Lines.

(** [sp] tells whether a space is written after the colon. *)
Inductive Line : Type :=
| Blank
| FData (sp : bool) (value : string)
| FEvent (sp : bool) (name : string)
| FId (sp : bool) (value : string)
| FRetry (sp : bool) (value : string)
| FComment (text : string).

Definition field (name : string) (sp : bool) (value : string) : list byte :=
  bytes name ++ colon :: (if sp then [space] else []) ++ bytes value.

Definition line_bytes (l : Line) : list byte :=
  match l with
  | Blank => []
  | FData sp v => field "data" sp v
  | FEvent sp n => field "event" sp n
  | FId sp v => field "id" sp v
  | FRetry sp v => field "retry" sp v
  | FComment t => colon :: bytes t
  end.

Definition no_leading_space (b : list byte) : bool :=
  match b with
  | c :: _ => negb (Byte.eqb c space)
  | [] => true
  end.

(** The text of a line holds no line end; a value written without a
    space after the colon does not start with a space; an event name is
    not empty; a blank line is not a field line. *)
Definition text_ok (s : string) : bool := clean_line (bytes s).

Definition value_ok (sp : bool) (s : string) : bool :=
  text_ok s && (sp || no_leading_space (bytes s)).

Definition line_ok (l : Line) : bool :=
  match l with
  | Blank => true
  | FData sp v | FId sp v | FRetry sp v => value_ok sp v
  | FEvent sp n => value_ok sp n && truthy_str n
  | FComment t => text_ok t
  end.

Definition field_ok (l : Line) : bool :=
  match l with
  | Blank => false
  | _ => line_ok l
  end.

Definition stream_of (ls : list Line) : list byte := render_lines (map line_bytes ls).

Definition data_values (b : list Line) : list string :=
  flat_map (fun l => match l with FData _ v => [v] | _ => [] end) b.

Definition event_name (b : list Line) : option string :=
  fold_left (fun acc l => match l with FEvent _ n => Some n | _ => acc end) b None.

Definition block_ok (b : list Line) : bool :=
  forallb field_ok b && negb (Nat.eqb (length (data_values b)) 0).

Definition block_lines (b : list Line) : list Line := b ++ [Blank].

(** The bytes of a sequence of events. *)
Definition wire (blocks : list (list Line)) : list byte :=
  stream_of (concat (map block_lines blocks)).

(** The values joined by line feeds. *)
Fixpoint join_nl (vs : list string) : string :=
  match vs with
  | [] => ""
  | [x] => x
  | x :: vs' => (x ++ nl ++ join_nl vs')%string
  end.

(** The values, each followed by a line feed. *)
Fixpoint lines_nl (vs : list string) : string :=
  match vs with
  | [] => ""
  | x :: vs' => (x ++ nl ++ lines_nl vs')%string
  end.

(** Type and data of the event that a block stands for. *)
Definition expected (b : list Line) : string * string :=
  (match event_name b with Some n => n | None => "message" end, join_nl (data_values b)).

(** Type and data of an emitted message. *)
Definition summary (e : Emitted) : option (string * string) :=
  match e with
  | EMessage t d _ _ => Some (t, d)
  | _ => None
  end.

(** The last identifier and the last retry interval set by some lines,
    starting from given ones. *)
Definition last_id (ls : list Line) (init : string) : string :=
  fold_left (fun acc l => match l with FId _ v => v | _ => acc end) ls init.

Definition last_retry (ls : list Line) (init : Z) : Z :=
  fold_left (fun acc l =>
               match l with
               | FRetry _ v => match parseInt v with Some n => n | None => acc end
               | _ => acc
               end) ls init.

(** What is emitted while the chunks of one response are parsed, by a
    client that has just been created. *)
Definition emitted_by (chunks : list Buffer) : option (list Emitted) :=
  option_map (fun r => log (snd r)) (feed "http://h/" chunks new_stream (init_vars "")).

End Wire.

(** ** Reference readings used by the further properties *)

Module Expect.
Import Js Parser Lines Wire.

(** The buffer that a call of the data handler works on: the bytes kept
    by the call before, then the chunk, less the byte-order mark when
    the call is the first one. *)
Definition received (chunk : Buffer) (s : Stream) : Buffer :=
  let b := match buf s with Some b0 => b0 ++ chunk | None => chunk end in
  if isFirst s && hasBom b then slice_from b (Z.of_nat (List.length bom)) else b.

(** The closure of a response after a first call that left nothing
    behind. *)
Definition started : Stream := mkStream false None 0 (-1).

(** A message emitted for the url [url], with a type that is not
    empty. *)
Definition is_message_for (url : string) (e : Emitted) : bool :=
  match e with
  | EMessage type _ _ origin_of => truthy_str type && String.eqb origin_of url
  | _ => false
  end.

(** The four field names that the line function dispatches on. *)
Definition known_field (name : string) : bool :=
  String.eqb name "data" || String.eqb name "event"
  || String.eqb name "id" || String.eqb name "retry".

(** The bytes of a line before its first colon. *)
Definition name_of (l : list byte) : string :=
  toString (firstn (Z.to_nat (colon_index l)) l).

(** Lines that are neither blank nor a field with one of the four
    names: lines without a colon, lines that start with a colon, and
    fields with another name. *)
Definition inert (l : list byte) : bool :=
  match l with
  | [] => false
  | _ => (colon_index l <=? 0) || negb (known_field (name_of l))
  end.

(** The messages that the blocks of a well-formed stream stand for,
    when [id] is the last event id before the first block. *)
Fixpoint messages (url : string) (blocks : list (list Line)) (id : string) : list Emitted :=
  match blocks with
  | [] => []
  | b :: blocks' =>
      let id' := last_id b id in
      EMessage (fst (expected b)) (snd (expected b)) id' url :: messages url blocks' id'
  end.

(** The last event id after the blocks. *)
Definition final_id (blocks : list (list Line)) (id : string) : string :=
  fold_left (fun acc b => last_id b acc) blocks id.

(** Line ends with a carriage return: alone, or followed by a line
    feed. *)
Inductive LineEnd : Type :=
| EndCR
| EndCRLF.

Definition end_bytes (e : LineEnd) : list byte :=
  match e with
  | EndCR => [carriageReturn]
  | EndCRLF => [carriageReturn; lineFeed]
  end.

(** The bytes of complete lines, each followed by its own line end. *)
Fixpoint render_with (ls : list (list byte * LineEnd)) : list byte :=
  match ls with
  | [] => []
  | (l, e) :: ls' => l ++ end_bytes e ++ render_with ls'
  end.

(** *** Decimal numerals

    The text of an integer as the specification reads it: white space,
    a sign, and decimal digits. *)

Definition digit_char (d : nat) : ascii := ascii_of_nat (48 + d).

(** The digits [ds], most significant first, as text, and the number
    they stand for. *)
Definition numeral (ds : list nat) : string := string_of_list_ascii (map digit_char ds).

Definition numeral_value (ds : list nat) : Z :=
  fold_left (fun a d => 10 * a + Z.of_nat d) ds 0.

Inductive Sign : Type :=
| NoSign
| Plus
| Minus.

Definition sign_text (sg : Sign) : string :=
  match sg with
  | NoSign => ""
  | Plus => "+"
  | Minus => "-"
  end.

Definition signed (sg : Sign) (n : Z) : Z :=
  match sg with
  | Minus => - n
  | _ => n
  end.

Definition starts_with_digit (s : string) : bool :=
  existsb (fun d => String.prefix (String (digit_char d) EmptyString) s) (seq 0 10).

Definition starts_with_sign (s : string) : bool :=
  String.prefix "+" s || String.prefix "-" s.

Definition starts_with_white (s : string) : bool :=
  existsb (fun w => String.prefix w s) white_space.

(** White space characters one after the other. *)
Definition padding (pad : list string) : string := String.concat "" pad.

End Expect.

(** ** Listeners

    The client inherits from the event emitter of the platform.  The
    methods of the emitter that the source calls are read as the
    platform documents them: [on] appends a listener to those of a
    type, [removeListener] removes the last registration of a listener,
    [removeAllListeners] removes the listeners of a type, [listeners]
    gives them in the order of registration, and [emit] calls them in
    that order.  An [emit] of the type "error" that finds no listener
    throws; a listener that throws ends the [emit], and what it throws
    goes to the caller of [emit]. *)

Module Listeners.
Import Js Parser.

(** A value given as a listener: a function, known by its identity, or
    a value of another type. *)
Inductive Value : Type :=
| VFun (f : nat)
| VOther.

(** The listeners by type, and the property [_listener] of the function
    objects; a property that is not set reads [undefined]. *)
Record Emitter : Type := mkEmitter {
  registered : gmap string (list nat);
  _listener : gmap nat nat
}.

Definition new_emitter : Emitter := mkEmitter ∅ ∅.

(** What a call may throw: what [emit] throws for the type "error"
    when it finds no listener (the payload itself when it is an error
    object, and otherwise an error made from the payload, whose message
    starts with [Unhandled error.]), what the listener [f] throws, and
    the error made by [new Error('UNSPECIFIED_EVENT_TYPE_ERR')]. *)
Inductive Exception (A : Type) : Type :=
| Unhandled (payload : A)
| Raised (f : nat)
| UnspecifiedType.
Arguments Unhandled {A} payload.
Arguments Raised {A} f.
Arguments UnspecifiedType {A}.

(** The calls of listeners that a call makes, in order, and what it
    throws, if it throws. *)
Definition Outcome (A : Type) : Type := (list (nat * A) * option (Exception A))%type.

(** *** The methods of the emitter *)

Definition listeners (type : string) (e : Emitter) : list nat :=
  match registered e !! type with
  | Some l => l
  | None => []
  end.

Definition on (type : string) (f : nat) (e : Emitter) : Emitter :=
  mkEmitter (<[type := listeners type e ++ [f]]> (registered e)) (_listener e).

Fixpoint remove_first (f : nat) (l : list nat) : list nat :=
  match l with
  | [] => []
  | g :: l' => if Nat.eqb g f then l' else g :: remove_first f l'
  end.

Definition remove_last (f : nat) (l : list nat) : list nat := rev (remove_first f (rev l)).

Definition removeListener (type : string) (f : nat) (e : Emitter) : Emitter :=
  mkEmitter (<[type := remove_last f (listeners type e)]> (registered e)) (_listener e).

Definition removeAllListeners (type : string) (e : Emitter) : Emitter :=
  mkEmitter (delete type (registered e)) (_listener e).

(** The listeners are called in order; [throws] tells which of them
    throw when they are called. *)
Fixpoint call_all {A : Type} (throws : nat -> bool) (payload : A) (fs : list nat)
    : Outcome A :=
  match fs with
  | [] => ([], None)
  | f :: fs' =>
      if throws f then ([(f, payload)], Some (Raised f))
      else let '(calls, x) := call_all throws payload fs' in ((f, payload) :: calls, x)
  end.

(** [emit(type, payload)]. *)
Definition emitter_emit {A : Type} (throws : nat -> bool) (type : string) (payload : A)
    (e : Emitter) : Outcome A :=
  match listeners type e with
  | [] => ([], if String.eqb type "error" then Some (Unhandled payload) else None)
  | fs => call_all throws payload fs
  end.

(** *** The functions of the source *)

Definition set__listener (f : nat) (x : option nat) (e : Emitter) : Emitter :=
  mkEmitter (registered e)
            (match x with Some g => <[f := g]> (_listener e) | None => delete f (_listener e) end).

(** [addEventListener(type, listener)]. *)
Definition addEventListener (type : string) (listener : Value) (e : Emitter) : Emitter :=
  match listener with
  | VFun f => on type f (set__listener f (Some f) e)
  | VOther => e
  end.

(** [removeEventListener(type, listener)]. *)
Definition removeEventListener (type : string) (listener : Value) (e : Emitter) : Emitter :=
  match listener with
  | VFun f => removeListener type f (set__listener f None e)
  | VOther => e
  end.

(** The getter of [on<method>]; [None] is [undefined]. *)
Definition on_get (method : string) (e : Emitter) : option Value :=
  match listeners method e with
  | listener :: _ =>
      Some (match _listener e !! listener with
            | Some g => VFun g
            | None => VFun listener
            end)
  | [] => None
  end.

(** The setter of [on<method>]. *)
Definition on_set (method : string) (listener : Value) (e : Emitter) : Emitter :=
  addEventListener method listener (removeAllListeners method e).

(** The type under which an event is emitted. *)
Definition type_name (ev : Emitted) : string :=
  match ev with
  | EOpen => "open"
  | EError _ _ => "error"
  | EMessage type _ _ _ => type
  end.

(** [_emit(type, event)]. *)
Definition _emit (throws : nat -> bool) (ev : Emitted) (e : Emitter) : Outcome Emitted :=
  if (0 <? List.length (listeners (type_name ev) e))%nat
  then emitter_emit throws (type_name ev) ev e
  else ([], None).

(** [dispatchEvent(event)], for an event with the given [type] and
    [detail]; a type that is not set is [None]. *)
Definition dispatchEvent {A : Type} (throws : nat -> bool) (type : option string)
    (detail : A) (e : Emitter) : Outcome A :=
  match type with
  | Some t => if truthy_str t then emitter_emit throws t detail e
              else ([], Some UnspecifiedType)
  | None => ([], Some UnspecifiedType)
  end.

(** The listeners up to the first one that throws. *)
Fixpoint until_throw (throws : nat -> bool) (fs : list nat) : list nat :=
  match fs with
  | [] => []
  | f :: fs' => f :: (if throws f then [] else until_throw throws fs')
  end.

(** *** The calls of a program on the listeners of a client *)

Inductive Op : Type :=
| Add (type : string) (listener : Value)
| Remove (type : string) (listener : Value)
| SetOn (method : string) (listener : Value).

Definition apply_op (e : Emitter) (o : Op) : Emitter :=
  match o with
  | Add type listener => addEventListener type listener e
  | Remove type listener => removeEventListener type listener e
  | SetOn method listener => on_set method listener e
  end.

Definition apply_ops (ops : list Op) (e : Emitter) : Emitter := fold_left apply_op ops e.

(** The property [_listener] of a function, when it is set, is the
    function. *)
Definition own_listener (e : Emitter) : Prop :=
  forall f g, _listener e !! f = Some g -> g = f.

End Listeners.

(** ** Readings of the connection events *)

Module Flow.
Import Js Parser Conn.

Definition is_chunk (e : Event) : bool :=
  match e with
  | Chunk _ => true
  | _ => false
  end.

(** The parser variables less the log. *)
Definition parser_state (v : Vars) : bool * string * option string * string * Z :=
  (discardTrailingNewline v, data v, eventName v, lastEventId v, reconnectInterval v).

(** The header [Last-Event-ID] of the init dictionary, when it is set
    and truthy. *)
Definition given_last_event_id (dict : option InitDict) : option string :=
  match dict with
  | Some d =>
      match headers d with
      | Some h =>
          match h !! "Last-Event-ID" with
          | Some x => if truthy_str x then Some x else None
          | None => None
          end
      | None => None
      end
  | None => None
  end.


(** The options of the requests issued so far. *)
Definition issued (s : ES) : list Options := map r_options (requests s).

(** The error events emitted when the callback of [d] reports the
    connection closed. *)
Definition disconnect_errors (d : Event) : list Emitted :=
  match d with
  | Response status statusMessage _ =>
      [EError (Some status) (Some statusMessage); EError None None]
  | ReqError message => [EError None (Some message)]
  | _ => [EError None None]
  end.

(** The callbacks that issue a request: a timer, and a redirect with a
    location. *)
Definition issues_request (e : Event) : bool :=
  match e with
  | TimerFire _ => true
  | Response status _ (Some target) => status_in status [301; 302; 307] && truthy_str target
  | _ => false
  end.

End Flow.

Module ParserFacts.
Import Js Parser Lines.

Lemma ltb_false a b : b <= a -> (a <? b) = false.
Proof. apply Z.ltb_ge. Qed.

Lemma ltb_true a b : a < b -> (a <? b) = true.
Proof. apply Z.ltb_lt. Qed.

Lemma clamp_in_range len i : 0 <= i <= len -> clamp len i = i.
Proof. unfold clamp. intros H. destruct (i <? 0) eqn:E; lia. Qed.

Lemma slice_app_mid {A : Type} (pre m rest : list A) (a b : Z) :
  0 <= a <= Z.of_nat (length m) -> 0 <= b <= Z.of_nat (length m) ->
  slice (pre ++ m ++ rest) (Z.of_nat (length pre) + a) (Z.of_nat (length pre) + b)
  = slice m a b.
Proof.
  intros Ha Hb. unfold slice.
  rewrite !length_app.
  rewrite !clamp_in_range by lia.
  replace (Z.to_nat (Z.of_nat (length pre) + a)) with (length pre + Z.to_nat a)%nat by lia.
  rewrite <- drop_drop, drop_app_length.
  replace (Z.of_nat (length pre) + b - (Z.of_nat (length pre) + a)) with (b - a) by lia.
  rewrite drop_app_le by lia.
  rewrite take_app_le; [reflexivity|].
  rewrite length_drop. lia.
Qed.

Lemma slice_from_drop {A : Type} (l : list A) (k : nat) :
  slice_from l (Z.of_nat k) = drop k l.
Proof.
  unfold slice_from, slice, clamp.
  rewrite (ltb_false (Z.of_nat k) 0) by lia.
  rewrite (ltb_false (Z.of_nat (length l)) 0) by lia.
  rewrite Z.min_id.
  destruct (Nat.le_gt_cases k (length l)) as [H|H].
  - rewrite Z.min_l by lia. rewrite Nat2Z.id.
    apply take_ge. rewrite length_drop. lia.
  - rewrite Z.min_r by lia. rewrite Z.sub_diag. simpl.
    symmetry. apply drop_ge. lia.
Qed.

Lemma index_app_mid (pre m rest : list byte) (k : Z) :
  0 <= k < Z.of_nat (length m) ->
  index (pre ++ m ++ rest) (Z.of_nat (length pre) + k) = index m k.
Proof.
  intros Hk. unfold index.
  rewrite (ltb_false (Z.of_nat (length pre) + k) 0) by lia.
  rewrite (ltb_false k 0) by lia.
  replace (Z.to_nat (Z.of_nat (length pre) + k)) with (length pre + Z.to_nat k)%nat by lia.
  rewrite nth_error_app2 by lia.
  replace (length pre + Z.to_nat k - length pre)%nat with (Z.to_nat k) by lia.
  apply nth_error_app1. lia.
Qed.

(** The line function reads nothing outside the line and its end. *)
Lemma parse_shift url (pre m rest : list byte) fl ll v :
  0 <= ll -> fl < ll -> ll < Z.of_nat (length m) ->
  parseEventStreamLine url (pre ++ m ++ rest) (Z.of_nat (length pre)) fl ll v
  = parseEventStreamLine url m 0 fl ll v.
Proof.
  intros Hll Hfl Hm. unfold parseEventStreamLine.
  destruct (ll =? 0); [reflexivity|].
  destruct (0 <? fl) eqn:Efl; [|reflexivity].
  apply Z.ltb_lt in Efl.
  rewrite (ltb_false fl 0) by lia.
  replace (Z.of_nat (length pre) + fl + 1) with (Z.of_nat (length pre) + (fl + 1)) by lia.
  rewrite (index_app_mid pre m rest (fl + 1)) by lia.
  replace (index m (0 + fl + 1)) with (index m (fl + 1)) by (f_equal; lia).
  replace (slice (pre ++ m ++ rest) (Z.of_nat (length pre)) (Z.of_nat (length pre) + fl))
    with (slice (pre ++ m ++ rest) (Z.of_nat (length pre) + 0) (Z.of_nat (length pre) + fl))
    by (f_equal; lia).
  rewrite (slice_app_mid pre m rest 0 fl) by lia.
  destruct (negb (is_code (index m (fl + 1)) space)).
  - replace (Z.of_nat (length pre) + (fl + 1) + (ll - (fl + 1)))
      with (Z.of_nat (length pre) + ll) by lia.
    rewrite (slice_app_mid pre m rest (fl + 1) ll) by lia.
    replace (0 + (fl + 1) + (ll - (fl + 1))) with ll by lia.
    reflexivity.
  - replace (Z.of_nat (length pre) + (fl + 2) + (ll - (fl + 2)))
      with (Z.of_nat (length pre) + ll) by lia.
    rewrite (slice_app_mid pre m rest (fl + 2) ll) by lia.
    replace (0 + (fl + 2) + (ll - (fl + 2))) with ll by lia.
    reflexivity.
Qed.

(** Only a positive field length is looked at. *)
Lemma parse_nonpos url b pos fl fl' ll v :
  fl <= 0 -> fl' <= 0 ->
  parseEventStreamLine url b pos fl ll v = parseEventStreamLine url b pos fl' ll v.
Proof.
  intros H H'. unfold parseEventStreamLine.
  rewrite (ltb_false 0 fl), (ltb_false 0 fl') by lia.
  reflexivity.
Qed.

(** *** Facts on [colon_index] and [split_lf] *)

Lemma colon_index_range l : -1 <= colon_index l < Z.of_nat (length l).
Proof.
  induction l as [|c l IH]; simpl; [lia|].
  destruct (Byte.eqb c colon); [lia|].
  destruct (Z.ltb_spec (colon_index l) 0); lia.
Qed.

Lemma colon_index_snoc l c :
  colon_index (l ++ [c]) =
  if colon_index l <? 0
  then (if Byte.eqb c colon then Z.of_nat (length l) else -1)
  else colon_index l.
Proof.
  induction l as [|x l IH].
  - simpl. destruct (Byte.eqb c colon); reflexivity.
  - cbn [app colon_index length]. destruct (Byte.eqb x colon) eqn:Ex.
    + reflexivity.
    + rewrite IH. pose proof (colon_index_range l) as R.
      destruct (Z.ltb_spec (colon_index l) 0) as [Hn|Hp].
      * destruct (Byte.eqb c colon).
        -- rewrite (ltb_false (Z.of_nat (length l)) 0) by lia.
           rewrite (ltb_true (-1) 0) by lia. lia.
        -- reflexivity.
      * rewrite (ltb_false (colon_index l) 0) by lia.
        rewrite (ltb_false (colon_index l + 1) 0) by lia. reflexivity.
Qed.

Lemma repr_nil fl : repr fl [] <-> fl < 0.
Proof. unfold repr. simpl. lia. Qed.

Lemma repr_snoc_colon fl done c :
  Byte.eqb c colon = true -> repr fl done ->
  repr (if fl <? 0 then Z.of_nat (length done) else fl) (done ++ [c]).
Proof.
  intros Hc H. unfold repr in *. rewrite colon_index_snoc, Hc.
  pose proof (colon_index_range done) as R.
  destruct H as [[H1 H2]|[H1 H2]].
  - rewrite (ltb_true _ 0 H1), (ltb_true _ 0 H2). lia.
  - rewrite (ltb_false (colon_index done) 0), (ltb_false fl 0) by lia. lia.
Qed.

Lemma repr_snoc_other fl done c :
  Byte.eqb c colon = false -> repr fl done -> repr fl (done ++ [c]).
Proof.
  intros Hc H. unfold repr in *. rewrite colon_index_snoc, Hc.
  destruct H as [[H1 H2]|[H1 H2]].
  - rewrite (ltb_true _ 0 H1). lia.
  - rewrite (ltb_false (colon_index done) 0) by lia. lia.
Qed.

Lemma repr_colon_index l : repr (colon_index l) l.
Proof. unfold repr. pose proof (colon_index_range l). lia. Qed.

Lemma no_cr_app a b : no_cr (a ++ b) = no_cr a && no_cr b.
Proof. apply forallb_app. Qed.

Lemma no_lf_app a b : no_lf (a ++ b) = no_lf a && no_lf b.
Proof. apply forallb_app. Qed.

(** *** The scan of one line *)

(** Bytes before the start of the line: line ends found there give a
    negative length, and the scan goes on. *)
Lemma scan_before pre : forall pos i ll fl d rest,
  no_cr pre = true -> ll < 0 -> fl < 0 -> i + Z.of_nat (length pre) <= pos ->
  exists ll' fl', ll' < 0 /\ fl' < 0 /\
    scan pos (pre ++ rest) i ll fl d = scan pos rest (i + Z.of_nat (length pre)) ll' fl' d.
Proof.
  induction pre as [|c pre IH]; intros pos i ll fl d rest Hcr Hll Hfl Hi.
  - exists ll, fl. simpl. rewrite Z.add_0_r. auto.
  - simpl in Hcr. apply andb_true_iff in Hcr as [Hc Hcr].
    apply negb_true_iff in Hc.
    cbn [app scan length] in *. rewrite (ltb_true ll 0 Hll), Hc.
    destruct (Byte.eqb c colon).
    + rewrite (ltb_true fl 0 Hfl).
      destruct (IH pos (i + 1) ll (i - pos) d rest) as (ll' & fl' & H1 & H2 & H3);
        [assumption|lia|lia|lia|].
      exists ll', fl'. rewrite H3. repeat split; try assumption. f_equal; lia.
    + destruct (Byte.eqb c lineFeed).
      * destruct (IH pos (i + 1) (i - pos) fl d rest) as (ll' & fl' & H1 & H2 & H3);
          [assumption|lia|lia|lia|].
        exists ll', fl'. rewrite H3. repeat split; try assumption. f_equal; lia.
      * destruct (IH pos (i + 1) ll fl d rest) as (ll' & fl' & H1 & H2 & H3);
          [assumption|lia|lia|lia|].
        exists ll', fl'. rewrite H3. repeat split; try assumption. f_equal; lia.
Qed.

(** Bytes of the line that are not its end: only the first colon is
    recorded. *)
Lemma scan_seg seg : forall done pos i ll fl d rest,
  clean_line seg = true -> ll < 0 -> i - pos = Z.of_nat (length done) -> repr fl done ->
  exists fl', repr fl' (done ++ seg) /\
    scan pos (seg ++ rest) i ll fl d = scan pos rest (i + Z.of_nat (length seg)) ll fl' d.
Proof.
  induction seg as [|c seg IH]; intros done pos i ll fl d rest Hc Hll Hi Hr.
  - exists fl. rewrite app_nil_r. simpl. rewrite Z.add_0_r. auto.
  - unfold clean_line in Hc. simpl in Hc.
    apply andb_true_iff in Hc as [Hcr Hlf].
    apply andb_true_iff in Hcr as [Hcr1 Hcr].
    apply andb_true_iff in Hlf as [Hlf1 Hlf].
    apply negb_true_iff in Hcr1. apply negb_true_iff in Hlf1.
    assert (Hseg : clean_line seg = true) by (unfold clean_line; now rewrite Hcr, Hlf).
    cbn [app scan length]. rewrite (ltb_true ll 0 Hll), Hcr1, Hlf1.
    destruct (Byte.eqb c colon) eqn:Ec.
    + destruct (IH (done ++ [c]) pos (i + 1) ll (if fl <? 0 then i - pos else fl) d rest)
        as (fl' & H1 & H2); [assumption|lia|rewrite length_app; simpl; lia| |].
      { rewrite Hi. now apply repr_snoc_colon. }
      exists fl'. rewrite <- app_assoc in H1. split; [exact H1|].
      rewrite H2. f_equal; lia.
    + destruct (IH (done ++ [c]) pos (i + 1) ll fl d rest)
        as (fl' & H1 & H2); [assumption|lia|rewrite length_app; simpl; lia| |].
      { now apply repr_snoc_other. }
      exists fl'. rewrite <- app_assoc in H1. split; [exact H1|].
      rewrite H2. f_equal; lia.
Qed.

(** The line feed that ends the line. *)
Lemma scan_lf pos i ll fl d rest :
  ll < 0 -> pos <= i ->
  scan pos (lineFeed :: rest) i ll fl d = (i - pos, fl, d).
Proof.
  intros Hll Hi. cbn [scan]. rewrite (ltb_true ll 0 Hll).
  change (Byte.eqb lineFeed colon) with false.
  change (Byte.eqb lineFeed carriageReturn) with false.
  change (Byte.eqb lineFeed lineFeed) with true. cbv iota.
  destruct rest; cbn [scan]; [reflexivity|].
  now rewrite (ltb_false (i - pos) 0) by lia.
Qed.

(** *** One iteration of the loop, when no line feed is to be discarded *)

Lemma set_discard_same v : set_discard (discardTrailingNewline v) v = v.
Proof. now destruct v. Qed.

Lemma parse_discard url b pos fl ll v :
  discardTrailingNewline (parseEventStreamLine url b pos fl ll v) = discardTrailingNewline v.
Proof.
  unfold parseEventStreamLine.
  repeat match goal with
         | |- context [if ?c then _ else _] => destruct c
         | |- context [match parseInt ?x with _ => _ end] => destruct (parseInt x)
         end; reflexivity.
Qed.

Lemma fold_discard url ls : forall v,
  discardTrailingNewline (fold_left (line_step url) ls v) = discardTrailingNewline v.
Proof.
  induction ls as [|l ls IH]; intros v; simpl; [reflexivity|].
  rewrite IH. apply parse_discard.
Qed.

Lemma loop_exit fuel url b st :
  Z.of_nat (length b) <= l_pos st -> while_loop (S fuel) url b st = Some st.
Proof. intros H. cbn [while_loop]. now rewrite ltb_false. Qed.

Lemma loop_break fuel url b st ll fl :
  l_pos st < Z.of_nat (length b) ->
  discardTrailingNewline (l_vars st) = false ->
  scan (l_pos st) (drop (Z.to_nat (l_startingPos st)) b) (l_startingPos st)
       (-1) (l_startingFieldLength st) false = (ll, fl, false) ->
  ll < 0 ->
  while_loop (S fuel) url b st
  = Some (mkLoop (l_pos st) (Z.of_nat (length b) - l_pos st) fl (l_vars st)).
Proof.
  intros Hpos Hd Hscan Hll. cbn [while_loop].
  rewrite ltb_true by assumption. rewrite Hd. cbv beta iota zeta.
  rewrite Hd, Hscan. rewrite ltb_true by assumption.
  rewrite <- Hd at 1. now rewrite set_discard_same.
Qed.

Lemma loop_continue fuel url b st ll fl :
  l_pos st < Z.of_nat (length b) ->
  discardTrailingNewline (l_vars st) = false ->
  scan (l_pos st) (drop (Z.to_nat (l_startingPos st)) b) (l_startingPos st)
       (-1) (l_startingFieldLength st) false = (ll, fl, false) ->
  0 <= ll ->
  while_loop (S fuel) url b st
  = while_loop fuel url b
      (mkLoop (l_pos st + ll + 1) 0 (-1)
              (parseEventStreamLine url b (l_pos st) fl ll (l_vars st))).
Proof.
  intros Hpos Hd Hscan Hll. cbn [while_loop].
  rewrite ltb_true by assumption. rewrite Hd. cbv beta iota zeta.
  rewrite Hd, Hscan. rewrite ltb_false by assumption.
  rewrite <- Hd at 1. now rewrite set_discard_same.
Qed.

(** *** The scan of a line in the four situations of the loop *)

Lemma scan_line pre l rest sfl :
  no_cr pre = true -> clean_line l = true -> sfl < 0 ->
  exists fl', repr fl' l /\
    scan (Z.of_nat (length pre)) (pre ++ l ++ lineFeed :: rest) 0 (-1) sfl false
    = (Z.of_nat (length l), fl', false).
Proof.
  intros Hpre Hl Hsfl.
  destruct (scan_before pre (Z.of_nat (length pre)) 0 (-1) sfl false (l ++ lineFeed :: rest))
    as (ll & fl & Hll & Hfl & H1); [assumption|lia|lia|lia|].
  destruct (scan_seg l [] (Z.of_nat (length pre)) (0 + Z.of_nat (length pre)) ll fl false
                     (lineFeed :: rest))
    as (fl' & Hrep & H2); [assumption|lia|simpl; lia|now apply repr_nil|].
  exists fl'. split; [exact Hrep|].
  rewrite H1, H2, scan_lf by lia. f_equal. f_equal. lia.
Qed.

Lemma scan_partial pre r sfl :
  no_cr pre = true -> clean_line r = true -> sfl < 0 ->
  exists ll fl', ll < 0 /\ repr fl' r /\
    scan (Z.of_nat (length pre)) (pre ++ r) 0 (-1) sfl false = (ll, fl', false).
Proof.
  intros Hpre Hr Hsfl.
  destruct (scan_before pre (Z.of_nat (length pre)) 0 (-1) sfl false r)
    as (ll & fl & Hll & Hfl & H1); [assumption|lia|lia|lia|].
  destruct (scan_seg r [] (Z.of_nat (length pre)) (0 + Z.of_nat (length pre)) ll fl false [])
    as (fl' & Hrep & H2); [assumption|lia|simpl; lia|now apply repr_nil|].
  exists ll, fl'. rewrite app_nil_r in H2. rewrite H1, H2. auto.
Qed.

Lemma scan_line_carry done l rest sfl :
  clean_line l = true -> repr sfl done ->
  exists fl', repr fl' (done ++ l) /\
    scan 0 (l ++ lineFeed :: rest) (Z.of_nat (length done)) (-1) sfl false
    = (Z.of_nat (length (done ++ l)), fl', false).
Proof.
  intros Hl Hrep.
  destruct (scan_seg l done 0 (Z.of_nat (length done)) (-1) sfl false (lineFeed :: rest))
    as (fl' & Hrep' & H2); [assumption|lia|lia|assumption|].
  exists fl'. split; [exact Hrep'|].
  rewrite H2, scan_lf by lia. rewrite length_app. f_equal. f_equal. lia.
Qed.

Lemma scan_partial_carry done r sfl :
  clean_line r = true -> repr sfl done ->
  exists fl', repr fl' (done ++ r) /\
    scan 0 r (Z.of_nat (length done)) (-1) sfl false = (-1, fl', false).
Proof.
  intros Hr Hrep.
  destruct (scan_seg r done 0 (Z.of_nat (length done)) (-1) sfl false [])
    as (fl' & Hrep' & H2); [assumption|lia|lia|assumption|].
  exists fl'. rewrite app_nil_r in H2. rewrite H2. auto.
Qed.

(** The line function on a line found in the buffer is the line
    function on the line alone. *)
Lemma parse_line url pre l rest fl v :
  repr fl l ->
  parseEventStreamLine url (pre ++ (l ++ [lineFeed]) ++ rest) (Z.of_nat (length pre))
                       fl (Z.of_nat (length l)) v
  = line_step url v l.
Proof.
  intros Hrep. pose proof (colon_index_range l) as R.
  assert (Hfl : fl < Z.of_nat (length l)) by (destruct Hrep; lia).
  rewrite parse_shift; [|lia|assumption|rewrite length_app; simpl; lia].
  unfold line_step. destruct Hrep as [[H1 H2]|[H1 H2]].
  - apply parse_nonpos; lia.
  - now rewrite H2.
Qed.

(** *** Complete lines of the loop *)

Lemma render_lines_cons l ls :
  render_lines (l :: ls) = l ++ lineFeed :: render_lines ls.
Proof. unfold render_lines. simpl. now rewrite <- app_assoc. Qed.

Lemma length_render_lines ls : (length ls <= length (render_lines ls))%nat.
Proof.
  induction ls as [|l ls IH]; [simpl; lia|].
  rewrite render_lines_cons, length_app. simpl. lia.
Qed.

Lemma loop_lines url ls : forall pre r v sfl fuel,
  no_cr pre = true -> forallb clean_line ls = true -> clean_line r = true ->
  discardTrailingNewline v = false -> sfl < 0 -> (length ls < fuel)%nat ->
  exists sfl', repr sfl' r /\
    while_loop fuel url (pre ++ render_lines ls ++ r)
               (mkLoop (Z.of_nat (length pre)) 0 sfl v)
    = Some (mkLoop (Z.of_nat (length (pre ++ render_lines ls))) (Z.of_nat (length r)) sfl'
                   (fold_left (line_step url) ls v)).
Proof.
  induction ls as [|l ls IH]; intros pre r v sfl fuel Hpre Hls Hr Hd Hsfl Hfuel;
    (destruct fuel as [|fuel]; [simpl in Hfuel; lia|]).
  - cbn [render_lines map concat app fold_left]. rewrite app_nil_r.
    destruct r as [|c r].
    + exists sfl. split; [now apply repr_nil|]. rewrite app_nil_r.
      apply loop_exit. simpl. lia.
    + destruct (scan_partial pre (c :: r) sfl) as (ll & fl' & Hll & Hrep & Hs);
        [assumption..|].
      exists fl'. split; [exact Hrep|].
      rewrite (loop_break fuel url _ _ ll fl');
        cbn [l_pos l_vars l_startingPos l_startingFieldLength].
      * f_equal. f_equal. rewrite length_app. lia.
      * rewrite length_app. simpl. lia.
      * assumption.
      * exact Hs.
      * assumption.
  - simpl in Hls. apply andb_true_iff in Hls as [Hl Hls].
    rewrite render_lines_cons.
    destruct (scan_line pre l (render_lines ls ++ r) sfl) as (fl' & Hrep & Hs);
      [assumption..|].
    replace ((l ++ lineFeed :: render_lines ls) ++ r)
      with (l ++ lineFeed :: render_lines ls ++ r) by (now rewrite <- app_assoc).
    rewrite (loop_continue fuel url _ _ (Z.of_nat (length l)) fl');
      cbn [l_pos l_vars l_startingPos l_startingFieldLength];
      [|rewrite !length_app; simpl; lia|assumption|exact Hs|lia].
    replace (pre ++ l ++ lineFeed :: render_lines ls ++ r)
      with (pre ++ (l ++ [lineFeed]) ++ (render_lines ls ++ r))
      by (now rewrite <- (app_assoc l)).
    rewrite parse_line by assumption.
    replace (pre ++ (l ++ [lineFeed]) ++ render_lines ls ++ r)
      with ((pre ++ l ++ [lineFeed]) ++ render_lines ls ++ r)
      by (now rewrite <- !app_assoc).
    replace (Z.of_nat (length pre) + Z.of_nat (length l) + 1)
      with (Z.of_nat (length (pre ++ l ++ [lineFeed])))
      by (rewrite !length_app; simpl; lia).
    destruct (IH (pre ++ l ++ [lineFeed]) r (line_step url v l) (-1) fuel)
      as (sfl' & Hrep' & Hw).
    + rewrite !no_cr_app. unfold clean_line in Hl.
      apply andb_true_iff in Hl as [-> _]. now rewrite Hpre.
    + assumption.
    + assumption.
    + unfold line_step. now rewrite parse_discard.
    + lia.
    + simpl in Hfuel. lia.
    + exists sfl'. split; [exact Hrep'|]. rewrite Hw. cbn [fold_left].
      f_equal. f_equal. f_equal. rewrite <- !app_assoc. reflexivity.
Qed.

(** *** Facts on [split_lf] *)

Lemma split_lf_prefix done : forall chunk,
  no_lf done = true ->
  split_lf (done ++ chunk) =
  match split_lf chunk with
  | ([], r) => ([], done ++ r)
  | (l :: ls, r) => ((done ++ l) :: ls, r)
  end.
Proof.
  induction done as [|c done IH]; intros chunk H.
  - simpl. now destruct (split_lf chunk) as [[|l ls] r].
  - simpl in H. apply andb_true_iff in H as [Hc H]. apply negb_true_iff in Hc.
    cbn [app split_lf]. rewrite (IH chunk H), Hc.
    now destruct (split_lf chunk) as [[|l ls] r].
Qed.

Lemma split_lf_lf rest :
  split_lf (lineFeed :: rest) = ([] :: fst (split_lf rest), snd (split_lf rest)).
Proof. cbn [split_lf]. now destruct (split_lf rest). Qed.

Lemma split_lf_render_app ls : forall x,
  forallb no_lf ls = true ->
  split_lf (render_lines ls ++ x) = (ls ++ fst (split_lf x), snd (split_lf x)).
Proof.
  induction ls as [|l ls IH]; intros x H.
  - simpl. now destruct (split_lf x).
  - simpl in H. apply andb_true_iff in H as [Hl H].
    rewrite render_lines_cons, <- app_assoc. cbn [app].
    rewrite split_lf_prefix by assumption.
    rewrite split_lf_lf, IH by assumption. cbn [fst snd].
    now rewrite app_nil_r.
Qed.

Lemma split_lf_no_lf r : no_lf r = true -> split_lf r = ([], r).
Proof.
  intros H. rewrite <- (app_nil_r r), split_lf_prefix by assumption.
  simpl. now rewrite app_nil_r.
Qed.

Lemma split_lf_render s :
  s = render_lines (fst (split_lf s)) ++ snd (split_lf s)
  /\ forallb no_lf (fst (split_lf s)) = true
  /\ no_lf (snd (split_lf s)) = true.
Proof.
  induction s as [|c s (IH1 & IH2 & IH3)]; [now simpl|].
  cbn [split_lf]. destruct (split_lf s) as [ls r]. cbn [fst snd] in *.
  destruct (Byte.eqb c lineFeed) eqn:Ec.
  - apply Byte.byte_dec_bl in Ec. subst c. cbn [fst snd].
    rewrite render_lines_cons. cbn [app forallb no_lf]. rewrite IH2, IH3.
    repeat split. now rewrite IH1 at 1.
  - destruct ls as [|l ls]; cbn [fst snd].
    + simpl in IH1. subst s. simpl. now rewrite Ec, IH3.
    + rewrite render_lines_cons in *. cbn [app forallb] in *.
      apply andb_true_iff in IH2 as [Hl Hls].
      repeat split; [now rewrite IH1 at 1| |assumption].
      cbn [no_lf forallb]. rewrite Ec. simpl. fold (no_lf l). now rewrite Hl, Hls.
Qed.

Lemma split_lf_app s t :
  split_lf (s ++ t) =
  (fst (split_lf s) ++ fst (split_lf (snd (split_lf s) ++ t)),
   snd (split_lf (snd (split_lf s) ++ t))).
Proof.
  destruct (split_lf_render s) as (E & H1 & H2).
  rewrite E at 1. rewrite <- app_assoc. now apply split_lf_render_app.
Qed.

Lemma no_cr_render ls : no_cr (render_lines ls) = forallb no_cr ls.
Proof.
  induction ls as [|l ls IH]; [reflexivity|].
  rewrite render_lines_cons, no_cr_app. cbn [no_cr forallb].
  change (negb (Byte.eqb lineFeed carriageReturn)) with true. cbn [andb].
  fold (no_cr (render_lines ls)). now rewrite IH.
Qed.

Lemma split_lf_clean s :
  no_cr s = true ->
  forallb clean_line (fst (split_lf s)) = true /\ clean_line (snd (split_lf s)) = true.
Proof.
  intros H. destruct (split_lf_render s) as (E & H1 & H2).
  rewrite E, no_cr_app, no_cr_render in H. apply andb_true_iff in H as [Ha Hb].
  split.
  - apply forallb_forall. intros l Hl. unfold clean_line.
    rewrite (proj1 (forallb_forall _ _) Ha l Hl).
    now rewrite (proj1 (forallb_forall _ _) H1 l Hl).
  - unfold clean_line. now rewrite Hb, H2.
Qed.

(** *** One call of the data handler *)

(** The whole loop on the waiting bytes [r] followed by a new chunk. *)
Lemma loop_all url r chunk sfl v :
  clean_line r = true -> no_cr chunk = true -> repr sfl r ->
  discardTrailingNewline v = false ->
  exists sfl', repr sfl' (snd (split_lf (r ++ chunk))) /\
    while_loop (S (length (r ++ chunk))) url (r ++ chunk)
               (mkLoop 0 (Z.of_nat (length r)) sfl v)
    = Some (mkLoop (Z.of_nat (length (render_lines (fst (split_lf (r ++ chunk))))))
                   (Z.of_nat (length (snd (split_lf (r ++ chunk))))) sfl'
                   (fold_left (line_step url) (fst (split_lf (r ++ chunk))) v)).
Proof.
  intros Hr Hchunk Hrep Hd.
  assert (Hrlf : no_lf r = true) by (unfold clean_line in Hr; now apply andb_true_iff in Hr).
  destruct (split_lf_render chunk) as (E & _ & _).
  destruct (split_lf_clean chunk Hchunk) as (Hcl & Hcr).
  rewrite (split_lf_prefix r chunk Hrlf).
  destruct (split_lf chunk) as [[|l ls] rc]; cbn [fst snd] in *.
  - (* no line ends in the chunk *)
    simpl in E. subst chunk. cbn [render_lines map concat length].
    destruct (r ++ rc) as [|c b] eqn:Eb.
    + apply app_eq_nil in Eb as [-> ->]. exists sfl. split; [assumption|].
      now apply loop_exit.
    + rewrite <- Eb.
      destruct (scan_partial_carry r rc sfl) as (fl' & Hrep' & Hs); [assumption..|].
      exists fl'. split; [exact Hrep'|].
      rewrite (loop_break _ url _ _ (-1) fl');
        cbn [l_pos l_vars l_startingPos l_startingFieldLength].
      * f_equal. f_equal. lia.
      * rewrite Eb. simpl. lia.
      * assumption.
      * rewrite Nat2Z.id, drop_app_length. exact Hs.
      * lia.
  - (* the first line ends in the chunk *)
    simpl in Hcl. apply andb_true_iff in Hcl as [Hl Hls].
    rewrite render_lines_cons in E. subst chunk.
    destruct (scan_line_carry r l (render_lines ls ++ rc) sfl) as (fl' & Hrep' & Hs);
      [assumption..|].
    replace ((l ++ lineFeed :: render_lines ls) ++ rc)
      with (l ++ lineFeed :: render_lines ls ++ rc) by (now rewrite <- app_assoc).
    rewrite (loop_continue _ url _ _ (Z.of_nat (length (r ++ l))) fl');
      cbn [l_pos l_vars l_startingPos l_startingFieldLength];
      [|rewrite !length_app; simpl; lia|assumption
       |rewrite Nat2Z.id, drop_app_length; exact Hs|lia].
    replace (r ++ l ++ lineFeed :: render_lines ls ++ rc)
      with ([] ++ ((r ++ l) ++ [lineFeed]) ++ (render_lines ls ++ rc))
      by (cbn [app]; now rewrite <- !app_assoc).
    change 0 with (Z.of_nat (length (@nil byte))) at 2 3.
    rewrite parse_line by assumption.
    cbn [app length]. change (Z.of_nat 0) with 0.
    replace (0 + Z.of_nat (length (r ++ l)) + 1)
      with (Z.of_nat (length ((r ++ l) ++ [lineFeed])))
      by (rewrite !length_app; simpl; lia).
    destruct (loop_lines url ls ((r ++ l) ++ [lineFeed]) rc (line_step url v (r ++ l)) (-1)
                (length (((r ++ l) ++ [lineFeed]) ++ render_lines ls ++ rc)))
      as (sfl' & Hrep'' & Hw).
    + rewrite !no_cr_app. unfold clean_line in Hl, Hr.
      apply andb_true_iff in Hl as [-> _]. apply andb_true_iff in Hr as [-> _].
      reflexivity.
    + assumption.
    + assumption.
    + unfold line_step. now rewrite parse_discard.
    + lia.
    + pose proof (length_render_lines ls). rewrite !length_app. simpl. lia.
    + exists sfl'. split; [exact Hrep''|]. rewrite Hw. cbn [fold_left].
      rewrite render_lines_cons, <- !app_assoc. reflexivity.
Qed.

Lemma drop_render ls r : drop (length (render_lines ls)) (render_lines ls ++ r) = r.
Proof. apply drop_app_length. Qed.

Lemma on_data_ok url chunk r st v :
  stream_ok r st -> clean_line r = true -> no_cr chunk = true ->
  discardTrailingNewline v = false ->
  exists st',
    on_data url chunk st v
    = Some (st', fold_left (line_step url) (fst (split_lf (r ++ chunk))) v)
    /\ stream_ok (snd (split_lf (r ++ chunk))) st'.
Proof.
  intros (Hf & Hb & Hsp & Hrep) Hr Hchunk Hd.
  destruct st as [f b sp sfl]. cbn [isFirst buf startingPos startingFieldLength] in *.
  subst f b sp. unfold on_data. cbn [isFirst buf startingPos startingFieldLength andb].
  match goal with
  | |- context [while_loop _ _ ?B _] =>
      assert (EB : B = r ++ chunk) by (now destruct r); rewrite EB; clear EB
  end.
  destruct (loop_all url r chunk sfl v Hr Hchunk Hrep Hd) as (sfl' & Hrep' & Hw).
  rewrite Hw. cbn [l_pos l_vars l_startingPos l_startingFieldLength].
  destruct (split_lf_render (r ++ chunk)) as (E & _ & _).
  set (ls := fst (split_lf (r ++ chunk))) in *.
  set (r' := snd (split_lf (r ++ chunk))) in *.
  eexists. split; [reflexivity|].
  unfold stream_ok. cbn [isFirst buf startingPos startingFieldLength].
  repeat split; [|assumption].
  assert (Hlen : length (r ++ chunk) = (length (render_lines ls) + length r')%nat)
    by (rewrite E at 1; apply length_app).
  destruct r' as [|c r'].
  - rewrite Hlen. simpl. rewrite Nat.add_0_r. now rewrite Z.eqb_refl.
  - destruct (Z.eqb_spec (Z.of_nat (length (render_lines ls))) (Z.of_nat (length (r ++ chunk))))
      as [Heq|Hne]; [rewrite Hlen in Heq; simpl in Heq; lia|].
    destruct (Z.ltb_spec 0 (Z.of_nat (length (render_lines ls)))) as [Hp|Hz].
    + rewrite slice_from_drop. rewrite E at 1. now rewrite drop_render.
    + destruct (render_lines ls); [|simpl in Hz; lia]. now rewrite E at 1.
Qed.

(** *** All the chunks of a response *)

Lemma feed_ok url chunks : forall r st v,
  stream_ok r st -> clean_line r = true -> forallb no_cr chunks = true ->
  discardTrailingNewline v = false ->
  exists st',
    feed url chunks st v
    = Some (st', fold_left (line_step url) (fst (split_lf (r ++ concat chunks))) v)
    /\ stream_ok (snd (split_lf (r ++ concat chunks))) st'.
Proof.
  induction chunks as [|c chunks IH]; intros r st v Hok Hr Hcs Hd.
  - cbn [feed concat]. rewrite app_nil_r.
    assert (Hlf : no_lf r = true) by (unfold clean_line in Hr; now apply andb_true_iff in Hr).
    rewrite (split_lf_no_lf r Hlf). exists st. auto.
  - simpl in Hcs. apply andb_true_iff in Hcs as [Hc Hcs].
    destruct (on_data_ok url c r st v Hok Hr Hc Hd) as (st1 & E1 & Hok1).
    cbn [feed concat]. rewrite E1.
    assert (Hrc : no_cr (r ++ c) = true).
    { rewrite no_cr_app, Hc. unfold clean_line in Hr. now apply andb_true_iff in Hr as [-> _]. }
    destruct (split_lf_clean (r ++ c) Hrc) as (_ & Hr1).
    destruct (IH _ st1 (fold_left (line_step url) (fst (split_lf (r ++ c))) v) Hok1 Hr1 Hcs)
      as (st2 & E2 & Hok2).
    { now rewrite fold_discard. }
    exists st2. rewrite E2, app_assoc, (split_lf_app (r ++ c)). cbn [fst snd].
    rewrite fold_left_app. auto.
Qed.

Lemma no_cr_drop k l : no_cr l = true -> no_cr (drop k l) = true.
Proof.
  intros H. rewrite <- (take_drop k l), no_cr_app in H.
  now apply andb_true_iff in H.
Qed.

Lemma on_data_first url chunk v :
  on_data url chunk new_stream v
  = on_data url (strip_bom chunk) (mkStream false None 0 (-1)) v.
Proof.
  unfold on_data, strip_bom. cbn [new_stream isFirst buf startingPos startingFieldLength andb].
  destruct (hasBom chunk); [|reflexivity].
  change (Z.of_nat (length bom)) with (Z.of_nat 3). now rewrite slice_from_drop.
Qed.

Lemma stream_ok_start : stream_ok [] (mkStream false None 0 (-1)).
Proof. unfold stream_ok. simpl. repeat split. apply repr_nil. lia. Qed.

(** What the parser has done after the chunks of a response: the line
    function was applied to the complete lines of the stream, in order. *)
Lemma feed_fresh url c chunks v :
  forallb no_cr (c :: chunks) = true -> discardTrailingNewline v = false ->
  exists st',
    feed url (c :: chunks) new_stream v
    = Some (st', fold_left (line_step url)
                           (fst (split_lf (strip_bom c ++ concat chunks))) v).
Proof.
  intros H Hd. simpl in H. apply andb_true_iff in H as [Hc Hcs].
  assert (Hs : no_cr (strip_bom c) = true).
  { unfold strip_bom. destruct (hasBom c); [now apply no_cr_drop|assumption]. }
  destruct (feed_ok url (strip_bom c :: chunks) [] _ v stream_ok_start eq_refl) as (st' & E & _).
  { simpl. now rewrite Hs, Hcs. }
  { assumption. }
  exists st'. cbn [feed] in *. rewrite on_data_first. exact E.
Qed.

(** *** The handler always returns *)

Lemma while_loop_total url b : forall fuel st,
  (Z.to_nat (Z.of_nat (length b) - l_pos st) < fuel)%nat ->
  exists st', while_loop fuel url b st = Some st'.
Proof.
  induction fuel as [|fuel IH]; intros st Hfuel; [lia|].
  cbn [while_loop].
  destruct (Z.ltb_spec (l_pos st) (Z.of_nat (length b))) as [Hlt|Hge]; [|eauto].
  match goal with
  | |- context [scan ?p ?r ?i ?a ?f ?d] => destruct (scan p r i a f d) as [[ll fl] d'] eqn:Es
  end.
  destruct (Z.ltb_spec ll 0) as [Hneg|Hpos]; [eauto|].
  apply IH. cbn [l_pos].
  destruct (discardTrailingNewline (l_vars st));
    [destruct (is_code (index b (l_pos st)) lineFeed)|]; lia.
Qed.

Lemma on_data_total url chunk st v : exists r, on_data url chunk st v = Some r.
Proof.
  unfold on_data.
  match goal with
  | |- context [while_loop (S (length ?B)) url ?B ?L] =>
      destruct (while_loop_total url B (S (length B)) L) as (st' & E);
        [cbn [l_pos]; lia|rewrite E; eauto]
  end.
Qed.

Lemma feed_total url chunks : forall st v, exists r, feed url chunks st v = Some r.
Proof.
  induction chunks as [|c chunks IH]; intros st v; cbn [feed]; [eauto|].
  destruct (on_data_total url c st v) as ([st' v'] & E). rewrite E. apply IH.
Qed.

(** *** The line function on the lines of a well-formed stream *)

Lemma slice_full {A : Type} (l : list A) : slice l 0 (Z.of_nat (length l)) = l.
Proof.
  unfold slice. rewrite !clamp_in_range by lia. cbn [Z.to_nat drop].
  rewrite Z.sub_0_r, Nat2Z.id. now apply take_ge.
Qed.

Lemma slice_at {A : Type} (b pre m rest : list A) (i j : Z) :
  b = pre ++ m ++ rest -> i = Z.of_nat (length pre) -> j = i + Z.of_nat (length m) ->
  slice b i j = m.
Proof.
  intros -> -> ->.
  rewrite <- (Z.add_0_r (Z.of_nat (length pre))) at 1.
  rewrite slice_app_mid by lia. apply slice_full.
Qed.

Lemma index_at (b pre : list byte) x rest (i : Z) :
  b = pre ++ x :: rest -> i = Z.of_nat (length pre) -> index b i = Some x.
Proof.
  intros -> ->. unfold index. rewrite (ltb_false _ 0) by lia.
  rewrite Nat2Z.id, nth_error_app2 by lia. now rewrite Nat.sub_diag.
Qed.

Lemma colon_index_field name : forall rest,
  colon_index name = -1 ->
  colon_index (name ++ colon :: rest) = Z.of_nat (length name).
Proof.
  induction name as [|c name IH]; intros rest H; [reflexivity|].
  cbn [app colon_index length] in *. pose proof (colon_index_range name) as R.
  destruct (Byte.eqb c colon); [lia|].
  destruct (Z.ltb_spec (colon_index name) 0) as [Hn|Hp]; [|lia].
  rewrite IH by lia. rewrite (ltb_false _ 0) by lia. lia.
Qed.

Lemma toString_bytes s : toString (bytes s) = s.
Proof. apply string_of_list_byte_of_string. Qed.

(** A line [name: value] or [name:value], whatever the name. *)
Lemma line_step_field url v (name : list byte) (sp : bool) (value : list byte) :
  colon_index name = -1 -> name <> [] ->
  (sp = false -> match value with c :: _ => Byte.eqb c space = false | [] => True end) ->
  line_step url v (name ++ colon :: (if sp then [space] else []) ++ value) =
  let f := toString name in
  let x := toString value in
  if String.eqb f "data" then set_data (data v ++ x ++ nl)%string v
  else if String.eqb f "event" then set_eventName (Some x) v
  else if String.eqb f "id" then set_lastEventId x v
  else if String.eqb f "retry" then
    match parseInt x with
    | Some retry => set_reconnectInterval retry v
    | None => v
    end
  else v.
Proof.
  intros Hc Hne Hsp. unfold line_step, parseEventStreamLine.
  rewrite colon_index_field by assumption.
  assert (Hlen : (0 < length name)%nat) by (destruct name; [congruence|simpl; lia]).
  rewrite (ltb_true 0 (Z.of_nat (length name))) by lia.
  rewrite (ltb_false (Z.of_nat (length name)) 0) by lia.
  destruct sp; cbn [app].
  - (* a space after the colon *)
    rewrite length_app. cbn [length].
    destruct (Z.eqb_spec (Z.of_nat (length name + S (S (length value)))) 0) as [E|_]; [lia|].
    rewrite (index_at _ (name ++ [colon]) space (value ++ [lineFeed]));
      [|now rewrite <- !app_assoc|rewrite length_app; simpl; lia].
    cbn [is_code]. change (Byte.eqb space space) with true. cbn [negb].
    rewrite (slice_at _ [] name (colon :: space :: value ++ [lineFeed]));
      [|now rewrite <- app_assoc|reflexivity|simpl; lia].
    rewrite (slice_at _ (name ++ [colon; space]) value [lineFeed]);
      [|now rewrite <- !app_assoc|rewrite length_app; simpl; lia|lia].
    reflexivity.
  - (* the value right after the colon *)
    rewrite length_app. cbn [length].
    destruct (Z.eqb_spec (Z.of_nat (length name + S (length value))) 0) as [E|_]; [lia|].
    assert (Hx : is_code (index ((name ++ colon :: value) ++ [lineFeed])
                                (0 + Z.of_nat (length name) + 1)) space = false).
    { specialize (Hsp eq_refl). destruct value as [|c value].
      - rewrite (index_at _ (name ++ [colon]) lineFeed []);
          [reflexivity|now rewrite <- !app_assoc|rewrite length_app; simpl; lia].
      - rewrite (index_at _ (name ++ [colon]) c (value ++ [lineFeed]));
          [exact Hsp|now rewrite <- !app_assoc|rewrite length_app; simpl; lia]. }
    rewrite Hx. cbn [negb].
    rewrite (slice_at _ [] name (colon :: value ++ [lineFeed]));
      [|now rewrite <- app_assoc|reflexivity|simpl; lia].
    rewrite (slice_at _ (name ++ [colon]) value [lineFeed]);
      [|now rewrite <- !app_assoc|rewrite length_app; simpl; lia|lia].
    reflexivity.
Qed.

(** A line with no colon, and a line that starts with a colon, change
    nothing. *)
Lemma line_step_no_colon url v l :
  colon_index l <= 0 -> l <> [] -> line_step url v l = v.
Proof.
  intros Hc Hne. unfold line_step, parseEventStreamLine.
  destruct (Z.eqb_spec (Z.of_nat (length l)) 0) as [E|_];
    [destruct l; [congruence|simpl in E; lia]|].
  now rewrite (ltb_false 0) by lia.
Qed.

(** The blank line. *)
Lemma line_step_blank url v :
  line_step url v [] =
  set_eventName None
    (if 0 <? Z.of_nat (String.length (data v))
     then set_data "" (emit (EMessage (type_of (eventName v)) (str_slice (data v) 0 (-1))
                                      (lastEventId v) url) v)
     else v).
Proof. reflexivity. Qed.

End ParserFacts.

(** ** Streams whose lines end with a carriage return *)

Module CrFacts.
Import Js Parser Lines ParserFacts.

Lemma set_discard_twice d d' v : set_discard d (set_discard d' v) = set_discard d v.
Proof. reflexivity. Qed.

(** The line function does not look at the flag. *)
Lemma parse_set_discard url b pos fl ll d v :
  parseEventStreamLine url b pos fl ll (set_discard d v)
  = set_discard d (parseEventStreamLine url b pos fl ll v).
Proof.
  unfold parseEventStreamLine.
  cbn [set_discard data eventName lastEventId reconnectInterval log].
  repeat match goal with
         | |- context [if ?c then _ else _] => destruct c
         | |- context [match parseInt ?x with _ => _ end] => destruct (parseInt x)
         end; reflexivity.
Qed.

Lemma fold_set_discard url ls : forall d v,
  fold_left (line_step url) ls (set_discard d v)
  = set_discard d (fold_left (line_step url) ls v).
Proof.
  induction ls as [|l ls IH]; intros d v; [reflexivity|].
  cbn [fold_left]. unfold line_step at 2. rewrite parse_set_discard. apply IH.
Qed.

(** One iteration of the loop, whatever the flag. *)
Lemma loop_iter fuel url b st ll fl d :
  l_pos st < Z.of_nat (length b) ->
  let pos := if discardTrailingNewline (l_vars st)
             then (if is_code (index b (l_pos st)) lineFeed then l_pos st + 1 else l_pos st)
             else l_pos st in
  scan pos (drop (Z.to_nat (l_startingPos st)) b) (l_startingPos st)
       (-1) (l_startingFieldLength st) false = (ll, fl, d) ->
  while_loop (S fuel) url b st
  = if ll <? 0
    then Some (mkLoop pos (Z.of_nat (length b) - pos) fl (set_discard d (l_vars st)))
    else while_loop fuel url b
           (mkLoop (pos + ll + 1) 0 (-1)
                   (parseEventStreamLine url b pos fl ll (set_discard d (l_vars st)))).
Proof.
  intros Hpos pos Hscan. subst pos. cbn [while_loop].
  rewrite ltb_true by assumption.
  destruct (discardTrailingNewline (l_vars st)) eqn:Hd; cbv beta iota zeta.
  - cbn [discardTrailingNewline set_discard]. rewrite Hscan. reflexivity.
  - rewrite Hd, Hscan. reflexivity.
Qed.

(** Bytes before the start of the line, whatever they are. *)
Lemma scan_before_any pre : forall pos i ll fl d rest,
  ll < 0 -> fl < 0 -> i + Z.of_nat (length pre) <= pos ->
  exists ll' fl' d', ll' < 0 /\ fl' < 0 /\
    scan pos (pre ++ rest) i ll fl d = scan pos rest (i + Z.of_nat (length pre)) ll' fl' d'.
Proof.
  induction pre as [|c pre IH]; intros pos i ll fl d rest Hll Hfl Hi.
  - exists ll, fl, d. simpl. rewrite Z.add_0_r. auto.
  - cbn [app scan length] in *. rewrite (ltb_true ll 0 Hll).
    destruct (Byte.eqb c colon).
    + rewrite (ltb_true fl 0 Hfl).
      destruct (IH pos (i + 1) ll (i - pos) d rest) as (ll' & fl' & d' & H1 & H2 & H3);
        [lia..|].
      exists ll', fl', d'. rewrite H3. repeat split; try assumption. f_equal; lia.
    + destruct (Byte.eqb c carriageReturn).
      * destruct (IH pos (i + 1) (i - pos) fl true rest) as (ll' & fl' & d' & H1 & H2 & H3);
          [lia..|].
        exists ll', fl', d'. rewrite H3. repeat split; try assumption. f_equal; lia.
      * destruct (Byte.eqb c lineFeed).
        -- destruct (IH pos (i + 1) (i - pos) fl d rest) as (ll' & fl' & d' & H1 & H2 & H3);
             [lia..|].
           exists ll', fl', d'. rewrite H3. repeat split; try assumption. f_equal; lia.
        -- destruct (IH pos (i + 1) ll fl d rest) as (ll' & fl' & d' & H1 & H2 & H3);
             [lia..|].
           exists ll', fl', d'. rewrite H3. repeat split; try assumption. f_equal; lia.
Qed.

(** The carriage return that ends the line. *)
Lemma scan_cr pos i ll fl d rest :
  ll < 0 -> pos <= i ->
  scan pos (carriageReturn :: rest) i ll fl d = (i - pos, fl, true).
Proof.
  intros Hll Hi. cbn [scan]. rewrite (ltb_true ll 0 Hll).
  change (Byte.eqb carriageReturn colon) with false.
  change (Byte.eqb carriageReturn carriageReturn) with true. cbv iota.
  destruct rest; cbn [scan]; [reflexivity|].
  now rewrite (ltb_false (i - pos) 0) by lia.
Qed.

Lemma clean_line_cons c l :
  clean_line (c :: l) = true <->
  Byte.eqb c carriageReturn = false /\ Byte.eqb c lineFeed = false /\ clean_line l = true.
Proof.
  unfold clean_line, no_cr, no_lf. cbn [forallb].
  rewrite !andb_true_iff, !negb_true_iff. tauto.
Qed.

(** The longest prefix without a line end. *)
Lemma clean_prefix (x : list byte) :
  exists l x', x = l ++ x' /\ clean_line l = true /\
    match x' with
    | [] => True
    | c :: _ => Byte.eqb c carriageReturn = true \/ Byte.eqb c lineFeed = true
    end.
Proof.
  induction x as [|c x (l & x' & E & Hl & Hx)].
  - exists [], []. now repeat split.
  - destruct (Byte.eqb c carriageReturn) eqn:Ecr.
    { exists [], (c :: x). repeat split. now left. }
    destruct (Byte.eqb c lineFeed) eqn:Elf.
    { exists [], (c :: x). repeat split. now right. }
    exists (c :: l), x'. subst x. repeat split; [|assumption].
    now apply clean_line_cons.
Qed.

(** Normal form of a prefix without a line end. *)
Lemma norm_clean l : forall x,
  clean_line l = true -> norm false (l ++ x) = l ++ norm false x.
Proof.
  induction l as [|c l IH]; intros x H; [reflexivity|].
  apply clean_line_cons in H as (Hc & Hl & H).
  cbn [app norm]. rewrite Hc, Hl. now rewrite IH.
Qed.

Lemma lf_after_cr_clean l : forall x,
  clean_line l = true -> lf_after_cr false (l ++ x) = lf_after_cr false x.
Proof.
  induction l as [|c l IH]; intros x H; [reflexivity|].
  apply clean_line_cons in H as (Hc & Hl & H).
  cbn [app lf_after_cr]. rewrite Hc, Hl. now apply IH.
Qed.

Lemma ends_cr_clean l : forall x,
  clean_line l = true -> ends_cr false (l ++ x) = ends_cr false x.
Proof.
  induction l as [|c l IH]; intros x H; [reflexivity|].
  apply clean_line_cons in H as (Hc & Hl & H).
  cbn [app ends_cr]. rewrite Hc. now apply IH.
Qed.

(** The line function does not depend on the byte that ends the line. *)
Lemma slice_app_l {A : Type} (l x : list A) (a b : Z) :
  0 <= a <= Z.of_nat (length l) -> 0 <= b <= Z.of_nat (length l) ->
  slice (l ++ x) a b = slice l a b.
Proof. intros Ha Hb. exact (slice_app_mid [] l x a b Ha Hb). Qed.

Lemma index_app_l (l x : list byte) (k : Z) :
  0 <= k < Z.of_nat (length l) -> index (l ++ x) k = index l k.
Proof. intros Hk. exact (index_app_mid [] l x k Hk). Qed.

Lemma parse_term url l t1 t2 fl v :
  Byte.eqb t1 space = false -> Byte.eqb t2 space = false -> fl < Z.of_nat (length l) ->
  parseEventStreamLine url (l ++ [t1]) 0 fl (Z.of_nat (length l)) v
  = parseEventStreamLine url (l ++ [t2]) 0 fl (Z.of_nat (length l)) v.
Proof.
  intros H1 H2 Hfl. unfold parseEventStreamLine.
  destruct (Z.of_nat (length l) =? 0); [reflexivity|].
  destruct (Z.ltb_spec 0 fl) as [Hp|Hn]; [|reflexivity].
  rewrite (ltb_false fl 0) by lia.
  assert (Hi : forall t, Byte.eqb t space = false ->
                 is_code (index (l ++ [t]) (0 + fl + 1)) space
                 = is_code (index (l ++ [space]) (0 + fl + 1)) space
                   && (fl + 1 <? Z.of_nat (length l))).
  { intros t Ht. destruct (Z.ltb_spec (fl + 1) (Z.of_nat (length l))) as [Hlt|Hge].
    - rewrite andb_true_r.
      rewrite (index_app_l l [t] (0 + fl + 1)), (index_app_l l [space] (0 + fl + 1)) by lia.
      reflexivity.
    - rewrite andb_false_r.
      rewrite (index_at _ l t []); [exact Ht|reflexivity|lia]. }
  rewrite (Hi t1 H1), (Hi t2 H2).
  rewrite !(slice_app_l l _ 0 (0 + fl)) by lia.
  destruct (Z.ltb_spec (fl + 1) (Z.of_nat (length l))) as [Hlt|Hge].
  - rewrite andb_true_r. destruct (negb _).
    + rewrite !(slice_app_l l _ (0 + (fl + 1))) by lia. reflexivity.
    + rewrite !(slice_app_l l _ (0 + (fl + 2))) by lia. reflexivity.
  - rewrite andb_false_r. cbn [negb].
    rewrite !(slice_app_l l _ (0 + (fl + 1))) by lia. reflexivity.
Qed.

Lemma parse_line_cr url pre l rest fl v :
  repr fl l ->
  parseEventStreamLine url (pre ++ (l ++ [carriageReturn]) ++ rest) (Z.of_nat (length pre))
                       fl (Z.of_nat (length l)) v
  = line_step url v l.
Proof.
  intros Hrep. pose proof (colon_index_range l) as R.
  assert (Hfl : fl < Z.of_nat (length l)) by (destruct Hrep; lia).
  rewrite parse_shift; [|lia|assumption|rewrite length_app; simpl; lia].
  rewrite (parse_term url l carriageReturn lineFeed) by (reflexivity || assumption).
  unfold line_step. destruct Hrep as [[H1 H2]|[H1 H2]].
  - apply parse_nonpos; lia.
  - now rewrite H2.
Qed.

(** *** The loop on such a stream *)

Lemma split_lf_line l rest :
  clean_line l = true ->
  split_lf (l ++ lineFeed :: rest) = (l :: fst (split_lf rest), snd (split_lf rest)).
Proof.
  intros H. unfold clean_line in H. apply andb_true_iff in H as [_ H].
  rewrite split_lf_prefix, split_lf_lf by assumption. cbn [fst snd]. now rewrite app_nil_r.
Qed.

Lemma clean_no_lf_head x c x1 :
  lf_after_cr false x = true -> x = c :: x1 -> Byte.eqb c lineFeed = false.
Proof. intros H ->. cbn [lf_after_cr] in H. now destruct (Byte.eqb c lineFeed). Qed.

(** The iteration that reads a line, after the line feed [lead] of the
    line end before it, if there is one, was left to be discarded; [IH]
    is the loop on what follows the line. *)
Lemma loop_cr_line url fuel pre lead x v sfl :
  (forall pre x v sfl p,
      (length x < fuel)%nat -> lf_after_cr p x = true ->
      (p = true -> discardTrailingNewline v = true) -> sfl < 0 ->
      exists sfl' d',
        repr sfl' (snd (split_lf (norm p x)))
        /\ (ends_cr p x = true -> d' = true)
        /\ while_loop fuel url (pre ++ x) (mkLoop (Z.of_nat (length pre)) 0 sfl v)
           = Some (mkLoop (Z.of_nat (length (pre ++ x))
                           - Z.of_nat (length (snd (split_lf (norm p x)))))
                          (Z.of_nat (length (snd (split_lf (norm p x))))) sfl'
                          (set_discard d' (fold_left (line_step url)
                                                     (fst (split_lf (norm p x))) v)))) ->
  lead = [] \/ (lead = [lineFeed] /\ discardTrailingNewline v = true) ->
  lf_after_cr false x = true -> lead ++ x <> [] -> (length x < S fuel)%nat -> sfl < 0 ->
  exists sfl' d',
    repr sfl' (snd (split_lf (norm false x)))
    /\ (ends_cr false x = true -> d' = true)
    /\ while_loop (S fuel) url (pre ++ lead ++ x) (mkLoop (Z.of_nat (length pre)) 0 sfl v)
       = Some (mkLoop (Z.of_nat (length (pre ++ lead ++ x))
                       - Z.of_nat (length (snd (split_lf (norm false x)))))
                      (Z.of_nat (length (snd (split_lf (norm false x))))) sfl'
                      (set_discard d' (fold_left (line_step url)
                                                 (fst (split_lf (norm false x))) v))).
Proof.
  intros IH Hlead Hx Hne Hfuel Hsfl.
  (* where the line starts *)
  assert (Hpos : forall b, b = pre ++ lead ++ x ->
                 (if discardTrailingNewline v
                  then (if is_code (index b (Z.of_nat (length pre))) lineFeed
                        then Z.of_nat (length pre) + 1 else Z.of_nat (length pre))
                  else Z.of_nat (length pre))
                 = Z.of_nat (length (pre ++ lead))).
  { intros b ->. destruct Hlead as [->|[-> Hd]].
    - rewrite app_nil_r. cbn [app]. destruct x as [|c x1]; [now destruct Hne|].
      rewrite (index_at _ pre c x1) by reflexivity. cbn [is_code].
      rewrite (clean_no_lf_head _ c x1 Hx eq_refl). now destruct (discardTrailingNewline v).
    - rewrite Hd. rewrite (index_at _ pre lineFeed x) by reflexivity.
      cbn [is_code]. change (Byte.eqb lineFeed lineFeed) with true.
      rewrite length_app. cbn [length]. lia. }
  assert (Hlt : Z.of_nat (length pre) < Z.of_nat (length (pre ++ lead ++ x))).
  { rewrite length_app. destruct (lead ++ x); [congruence|cbn [length]; lia]. }
  destruct (clean_prefix x) as (l & x' & -> & Hl & Hx').
  rewrite lf_after_cr_clean in Hx by assumption.
  rewrite norm_clean, ends_cr_clean by assumption.
  replace (pre ++ lead ++ l ++ x') with ((pre ++ lead) ++ l ++ x') by now rewrite <- app_assoc.
  destruct (scan_before_any (pre ++ lead) (Z.of_nat (length (pre ++ lead))) 0 (-1) sfl false
                            (l ++ x'))
    as (ll0 & fl0 & d0 & Hll0 & Hfl0 & Hs0); [lia..|].
  destruct (scan_seg l [] (Z.of_nat (length (pre ++ lead)))
                     (0 + Z.of_nat (length (pre ++ lead))) ll0 fl0 d0 x')
    as (fl1 & Hrep1 & Hs1); [assumption|lia|simpl; lia|now apply repr_nil|].
  cbn [app] in Hrep1.
  destruct x' as [|c x3].
  - (* the line is not complete *)
    cbn [norm]. rewrite app_nil_r in *.
    assert (Hlf : no_lf l = true) by (unfold clean_line in Hl; now apply andb_true_iff in Hl).
    rewrite (split_lf_no_lf l Hlf). cbn [fst snd fold_left ends_cr].
    exists fl1, d0. split; [assumption|]. split; [discriminate|].
    rewrite (loop_iter fuel url _ _ ll0 fl1 d0); cbn [l_pos l_vars l_startingPos
                                                      l_startingFieldLength].
    + rewrite Hpos by (now rewrite <- app_assoc). rewrite (ltb_true ll0 0) by assumption.
      do 2 f_equal; rewrite !length_app; lia.
    + rewrite <- app_assoc. exact Hlt.
    + rewrite Hpos by (now rewrite <- app_assoc).
      cbn [Z.to_nat drop]. rewrite drop_0, Hs0, Hs1. reflexivity.
  - (* the line ends with a carriage return *)
    assert (Hc : c = carriageReturn).
    { destruct Hx' as [Hc|Hc]; [now apply Byte.byte_dec_bl in Hc|].
      rewrite (clean_no_lf_head _ c x3 Hx eq_refl) in Hc. discriminate. }
    subst c. cbn [lf_after_cr norm ends_cr] in *.
    change (Byte.eqb carriageReturn lineFeed) with false in *.
    change (Byte.eqb carriageReturn carriageReturn) with true in *. cbv iota in *.
    rewrite (split_lf_line l _ Hl). cbn [fst snd fold_left].
    rewrite scan_cr in Hs1 by lia.
    rewrite (loop_iter fuel url _ _ (Z.of_nat (length l)) fl1 true);
      cbn [l_pos l_vars l_startingPos l_startingFieldLength].
    2:{ rewrite <- app_assoc. exact Hlt. }
    2:{ rewrite Hpos by (now rewrite <- app_assoc).
        cbn [Z.to_nat drop]. rewrite drop_0, Hs0, Hs1. do 2 f_equal. lia. }
    rewrite Hpos by (now rewrite <- app_assoc).
    rewrite (ltb_false (Z.of_nat (length l)) 0) by lia.
    replace ((pre ++ lead) ++ l ++ carriageReturn :: x3)
      with ((pre ++ lead) ++ (l ++ [carriageReturn]) ++ x3) by now rewrite <- (app_assoc l).
    rewrite parse_set_discard, parse_line_cr by assumption.
    replace ((pre ++ lead) ++ (l ++ [carriageReturn]) ++ x3)
      with (((pre ++ lead) ++ l ++ [carriageReturn]) ++ x3) by now rewrite <- !app_assoc.
    replace (Z.of_nat (length (pre ++ lead)) + Z.of_nat (length l) + 1)
      with (Z.of_nat (length ((pre ++ lead) ++ l ++ [carriageReturn])))
      by (rewrite !length_app; simpl; lia).
    destruct (IH ((pre ++ lead) ++ l ++ [carriageReturn]) x3
                 (set_discard true (line_step url v l)) (-1) true)
      as (sfl' & d' & Hrep' & Hd' & Hw); [|assumption|reflexivity|lia|].
    { rewrite length_app in Hfuel. cbn [length] in Hfuel. lia. }
    exists sfl', d'. split; [assumption|]. split; [assumption|].
    rewrite Hw, fold_set_discard, set_discard_twice. reflexivity.
Qed.

Lemma byte_eqb_eq a b : Byte.eqb a b = true -> a = b.
Proof. apply Byte.byte_dec_bl. Qed.

(** The loop on the bytes [x] of a stream of that kind, from a line
    start. *)
Lemma loop_cr url : forall fuel pre x v sfl p,
  (length x < fuel)%nat -> lf_after_cr p x = true ->
  (p = true -> discardTrailingNewline v = true) -> sfl < 0 ->
  exists sfl' d',
    repr sfl' (snd (split_lf (norm p x)))
    /\ (ends_cr p x = true -> d' = true)
    /\ while_loop fuel url (pre ++ x) (mkLoop (Z.of_nat (length pre)) 0 sfl v)
       = Some (mkLoop (Z.of_nat (length (pre ++ x))
                       - Z.of_nat (length (snd (split_lf (norm p x)))))
                      (Z.of_nat (length (snd (split_lf (norm p x))))) sfl'
                      (set_discard d' (fold_left (line_step url)
                                                 (fst (split_lf (norm p x))) v))).
Proof.
  induction fuel as [|fuel IH]; intros pre x v sfl p Hfuel Hx Hp Hsfl; [lia|].
  destruct x as [|c x1].
  - cbn [norm split_lf fst snd fold_left ends_cr length].
    exists sfl, (discardTrailingNewline v). split; [now apply repr_nil|].
    split; [intros ->; now apply Hp|].
    rewrite app_nil_r. rewrite loop_exit by (cbn [l_pos]; lia).
    rewrite set_discard_same. do 2 f_equal. lia.
  - destruct (Byte.eqb c lineFeed) eqn:Ec.
    + apply byte_eqb_eq in Ec. subst c.
      cbn [lf_after_cr norm ends_cr] in *.
      change (Byte.eqb lineFeed lineFeed) with true in *.
      change (Byte.eqb lineFeed carriageReturn) with false in *. cbv iota in *.
      apply andb_true_iff in Hx as [-> Hx]. cbv iota.
      apply (loop_cr_line url fuel pre [lineFeed] x1 v sfl); try assumption.
      * right. split; [reflexivity|now apply Hp].
      * discriminate.
      * cbn [length] in Hfuel. lia.
    + assert (Hn : norm p (c :: x1) = norm false (c :: x1)).
      { cbn [norm]. rewrite Ec. reflexivity. }
      assert (He : ends_cr p (c :: x1) = ends_cr false (c :: x1)) by reflexivity.
      assert (Hl : lf_after_cr false (c :: x1) = true).
      { cbn [lf_after_cr] in *. now rewrite Ec in *. }
      rewrite Hn, He.
      apply (loop_cr_line url fuel pre [] (c :: x1) v sfl); try assumption.
      * now left.
      * discriminate.
Qed.

Lemma clean_head_not_lf r c r1 : clean_line r = true -> r = c :: r1 -> Byte.eqb c lineFeed = false.
Proof. intros H ->. now apply clean_line_cons in H as (_ & H & _). Qed.

Lemma fold_left_cons {A B : Type} (f : A -> B -> A) (b : B) (l : list B) (a : A) :
  fold_left f (b :: l) a = fold_left f l (f a b).
Proof. reflexivity. Qed.

(** The loop of a call that starts with the bytes [r] of a line that
    the call before left incomplete. *)
Lemma loop_cr_carry url r chunk v sfl :
  r <> [] -> clean_line r = true -> repr sfl r -> lf_after_cr false chunk = true ->
  exists sfl' d',
    repr sfl' (snd (split_lf (r ++ norm false chunk)))
    /\ (ends_cr false chunk = true -> d' = true)
    /\ while_loop (S (length (r ++ chunk))) url (r ++ chunk)
                  (mkLoop 0 (Z.of_nat (length r)) sfl v)
       = Some (mkLoop (Z.of_nat (length (r ++ chunk))
                       - Z.of_nat (length (snd (split_lf (r ++ norm false chunk)))))
                      (Z.of_nat (length (snd (split_lf (r ++ norm false chunk))))) sfl'
                      (set_discard d' (fold_left (line_step url)
                                         (fst (split_lf (r ++ norm false chunk))) v))).
Proof.
  intros Hne Hr Hrep Hx.
  assert (Hpos : forall b, b = r ++ chunk ->
                 (if discardTrailingNewline v
                  then (if is_code (index b 0) lineFeed then 0 + 1 else 0)
                  else 0) = 0).
  { intros b ->. destruct r as [|c r1]; [congruence|].
    change (index ((c :: r1) ++ chunk) 0) with (Some c). cbn [is_code].
    rewrite (clean_head_not_lf _ c r1 Hr eq_refl). now destruct (discardTrailingNewline v). }
  assert (Hlt : 0 < Z.of_nat (length (r ++ chunk))).
  { rewrite length_app. destruct r; [congruence|cbn [length]; lia]. }
  destruct (clean_prefix chunk) as (l & x' & -> & Hl & Hx').
  rewrite lf_after_cr_clean in Hx by assumption.
  rewrite norm_clean, ends_cr_clean by assumption.
  destruct (scan_seg l r 0 (Z.of_nat (length r)) (-1) sfl false x')
    as (fl1 & Hrep1 & Hs1); [assumption|lia|lia|assumption|].
  assert (Hdrop : drop (Z.to_nat (Z.of_nat (length r))) (r ++ l ++ x') = l ++ x').
  { rewrite Nat2Z.id. now rewrite drop_app_length. }
  assert (Hrl : clean_line (r ++ l) = true).
  { unfold clean_line in *. rewrite no_cr_app, no_lf_app.
    apply andb_true_iff in Hr as [-> ->]. now apply andb_true_iff in Hl as [-> ->]. }
  destruct x' as [|c x3].
  - (* the line is still not complete *)
    cbn [norm]. rewrite app_nil_r in *.
    assert (Hlf : no_lf (r ++ l) = true)
      by (unfold clean_line in Hrl; now apply andb_true_iff in Hrl).
    rewrite (split_lf_no_lf _ Hlf). cbn [fst snd fold_left ends_cr].
    exists fl1, false. split; [assumption|]. split; [discriminate|].
    rewrite (loop_iter _ url _ _ (-1) fl1 false);
      cbn [l_pos l_vars l_startingPos l_startingFieldLength].
    + rewrite (Hpos _ eq_refl). cbn [Z.ltb Z.compare]. do 2 f_equal; lia.
    + exact Hlt.
    + rewrite (Hpos _ eq_refl). rewrite Hdrop, Hs1. reflexivity.
  - (* the line ends with a carriage return *)
    assert (Hc : c = carriageReturn).
    { destruct Hx' as [Hc|Hc]; [now apply byte_eqb_eq in Hc|].
      rewrite (clean_no_lf_head _ c x3 Hx eq_refl) in Hc. discriminate. }
    subst c. cbn [lf_after_cr norm ends_cr] in *.
    change (Byte.eqb carriageReturn lineFeed) with false in *.
    change (Byte.eqb carriageReturn carriageReturn) with true in *. cbv iota in *.
    replace (r ++ l ++ lineFeed :: norm true x3)
      with ((r ++ l) ++ lineFeed :: norm true x3) by now rewrite <- app_assoc.
    rewrite (split_lf_line (r ++ l) _ Hrl). cbn [fst snd]. rewrite fold_left_cons.
    rewrite scan_cr in Hs1 by lia.
    rewrite (loop_iter _ url _ _ (Z.of_nat (length (r ++ l))) fl1 true);
      cbn [l_pos l_vars l_startingPos l_startingFieldLength].
    2:{ exact Hlt. }
    2:{ rewrite (Hpos _ eq_refl). rewrite Hdrop, Hs1. do 2 f_equal.
        rewrite length_app. lia. }
    rewrite (Hpos _ eq_refl).
    rewrite (ltb_false (Z.of_nat (length (r ++ l))) 0) by lia.
    replace (r ++ l ++ carriageReturn :: x3)
      with ([] ++ ((r ++ l) ++ [carriageReturn]) ++ x3)
      by (cbn [app]; now rewrite <- !app_assoc).
    change 0 with (Z.of_nat (length (@nil byte))) at 1 2.
    rewrite parse_set_discard, parse_line_cr by assumption.
    cbn [app length]. change (Z.of_nat 0) with 0.
    replace (0 + Z.of_nat (length (r ++ l)) + 1)
      with (Z.of_nat (length ((r ++ l) ++ [carriageReturn])))
      by (rewrite !length_app; simpl; lia).
    destruct (loop_cr url (length (((r ++ l) ++ [carriageReturn]) ++ x3))
                      ((r ++ l) ++ [carriageReturn]) x3
                      (set_discard true (line_step url v (r ++ l))) (-1) true)
      as (sfl' & d' & Hrep' & Hd' & Hw); [|assumption|reflexivity|lia|].
    { rewrite !length_app. cbn [length]. lia. }
    exists sfl', d'. split; [assumption|]. split; [assumption|].
    rewrite Hw, fold_set_discard, set_discard_twice. reflexivity.
Qed.

(** *** The three readings of a stream and concatenation *)

Lemma norm_app s : forall p t, norm p (s ++ t) = norm p s ++ norm (ends_cr p s) t.
Proof.
  induction s as [|c s IH]; intros p t; [reflexivity|].
  cbn [app norm ends_cr]. destruct (Byte.eqb c carriageReturn) eqn:Ec.
  - now rewrite IH.
  - destruct (Byte.eqb c lineFeed); [destruct p|]; rewrite IH; reflexivity.
Qed.

Lemma lf_after_cr_app s : forall p t,
  lf_after_cr p (s ++ t) = lf_after_cr p s && lf_after_cr (ends_cr p s) t.
Proof.
  induction s as [|c s IH]; intros p t; [reflexivity|].
  cbn [app lf_after_cr ends_cr]. destruct (Byte.eqb c lineFeed) eqn:El.
  - rewrite IH. apply byte_eqb_eq in El. subst c.
    change (Byte.eqb lineFeed carriageReturn) with false. now rewrite andb_assoc.
  - apply IH.
Qed.

Lemma ends_cr_app s : forall p t, ends_cr p (s ++ t) = ends_cr (ends_cr p s) t.
Proof. induction s as [|c s IH]; intros p t; [reflexivity|]. cbn [app ends_cr]. apply IH. Qed.

Lemma no_cr_norm s : forall p, no_cr (norm p s) = true.
Proof.
  induction s as [|c s IH]; intros p; [reflexivity|]. cbn [norm].
  destruct (Byte.eqb c carriageReturn) eqn:Ec.
  - cbn [no_cr forallb]. change (Byte.eqb lineFeed carriageReturn) with false.
    cbn [negb andb]. apply IH.
  - destruct (Byte.eqb c lineFeed); [destruct p|].
    + apply IH.
    + cbn [no_cr forallb]. change (Byte.eqb lineFeed carriageReturn) with false.
      cbn [negb andb]. apply IH.
    + cbn [no_cr forallb]. rewrite Ec. cbn [negb andb]. apply IH.
Qed.

Lemma split_lf_snoc_lf s : snd (split_lf (s ++ [lineFeed])) = [].
Proof.
  rewrite split_lf_app. cbn [snd].
  destruct (split_lf_render s) as (_ & _ & Hr).
  replace (snd (split_lf s) ++ [lineFeed]) with (snd (split_lf s) ++ lineFeed :: [])
    by reflexivity.
  rewrite split_lf_prefix by assumption. reflexivity.
Qed.

(** A stream that ends with a carriage return ends, once read with
    line feeds, with a line feed. *)
Lemma norm_ends s : forall p,
  ends_cr p s = true -> s <> [] -> exists y, norm p s = y ++ [lineFeed].
Proof.
  induction s as [|c s IH]; intros p He Hne; [congruence|].
  cbn [ends_cr norm] in *. destruct s as [|c' s'].
  - cbn [ends_cr] in He. rewrite He. now exists [].
  - destruct (IH _ He) as (y & Hy); [discriminate|].
    destruct (Byte.eqb c carriageReturn) eqn:Ec.
    + rewrite Hy. now exists (lineFeed :: y).
    + destruct (Byte.eqb c lineFeed); [destruct p|]; rewrite Hy;
        first [now exists y | now exists (lineFeed :: y) | now exists (c :: y)].
Qed.

Lemma ends_cr_rem r s p :
  (r <> [] -> p = false) -> ends_cr p s = true -> snd (split_lf (r ++ norm p s)) = [].
Proof.
  intros Hr He. destruct s as [|c s].
  - cbn [ends_cr] in He. subst p. destruct r as [|c r]; [reflexivity|].
    now specialize (Hr ltac:(discriminate)).
  - destruct (norm_ends (c :: s) p He) as (y & ->); [discriminate|].
    rewrite app_assoc. apply split_lf_snoc_lf.
Qed.

(** What is left after the last line end is a suffix of the stream as
    it was received. *)
Lemma norm_clean_id s : clean_line (norm false s) = true -> norm false s = s.
Proof.
  destruct (clean_prefix s) as (l & x' & -> & Hl & Hx').
  rewrite norm_clean by assumption. intros H.
  destruct x' as [|c x3]; [reflexivity|]. exfalso.
  unfold clean_line in H. rewrite no_cr_app, no_lf_app in H.
  apply andb_true_iff in H as [_ H]. apply andb_true_iff in H as [_ H].
  cbn [norm] in H. destruct Hx' as [Hc|Hc].
  - now rewrite Hc in H.
  - rewrite Hc in H. destruct (Byte.eqb c carriageReturn); discriminate.
Qed.

Lemma norm_suffix s : forall p a rem,
  norm p s = a ++ rem -> clean_line rem = true ->
  (a = [] \/ exists a', a = a' ++ [lineFeed]) ->
  exists y, s = y ++ rem.
Proof.
  induction s as [|c s IH]; intros p a rem E Hrem Ha.
  - cbn [norm] in E. symmetry in E. apply app_eq_nil in E as [_ ->]. now exists [].
  - assert (Hhead : forall q, lineFeed :: norm q s = a ++ rem -> exists y, c :: s = y ++ rem).
    { intros q E'. destruct a as [|a0 a1].
      - cbn [app] in E'. rewrite <- E' in Hrem.
        apply clean_line_cons in Hrem as (_ & Hrem & _). discriminate.
      - cbn [app] in E'. injection E' as <- E'.
        destruct (IH q a1 rem E' Hrem) as (y & ->); [|now exists (c :: y)].
        destruct Ha as [Ha|[a' Ha]]; [discriminate|].
        destruct a' as [|a0' a'']; [left|right; exists a''];
          cbn [app] in Ha; now injection Ha. }
    cbn [norm] in E. destruct (Byte.eqb c carriageReturn) eqn:Ec; [exact (Hhead _ E)|].
    destruct (Byte.eqb c lineFeed) eqn:El.
    + destruct p; [|exact (Hhead _ E)].
      destruct (IH false a rem E Hrem Ha) as (y & ->). now exists (c :: y).
    + destruct a as [|a0 a1].
      * cbn [app] in E. subst rem.
        apply clean_line_cons in Hrem as (_ & _ & Hrem).
        rewrite (norm_clean_id s Hrem). now exists [].
      * cbn [app] in E. injection E as <- E.
        destruct (IH false a1 rem E Hrem) as (y & ->); [|now exists (c :: y)].
        destruct Ha as [Ha|[a' Ha]]; [discriminate|].
        destruct a' as [|a0' a'']; cbn [app] in Ha.
        -- injection Ha as -> _. discriminate.
        -- right. exists a''. now injection Ha.
Qed.

Lemma render_lines_end ls : ls = [] \/ exists a', render_lines ls = a' ++ [lineFeed].
Proof.
  induction ls as [|l ls IH]; [now left|]. right. rewrite render_lines_cons.
  destruct IH as [->|(a' & ->)].
  - exists l. reflexivity.
  - exists (l ++ lineFeed :: a'). now rewrite <- app_assoc.
Qed.

Lemma rem_suffix s p :
  clean_line (snd (split_lf (norm p s))) = true
  /\ exists y, s = y ++ snd (split_lf (norm p s)).
Proof.
  destruct (split_lf_clean (norm p s) (no_cr_norm s p)) as [_ Hc].
  split; [assumption|].
  destruct (split_lf_render (norm p s)) as (E & _ & _).
  apply (norm_suffix s p (render_lines (fst (split_lf (norm p s)))) _ E Hc).
  destruct (render_lines_end (fst (split_lf (norm p s)))) as [->|H]; [now left|now right].
Qed.

Lemma drop_suffix {A : Type} (y rem : list A) :
  drop (Z.to_nat (Z.of_nat (length (y ++ rem)) - Z.of_nat (length rem))) (y ++ rem) = rem.
Proof.
  rewrite length_app. replace (Z.to_nat _) with (length y) by lia.
  now rewrite drop_app_length.
Qed.

(** *** One call of the data handler, and all of them *)

Lemma loop_cr_any url r chunk v sfl p :
  clean_line r = true -> repr sfl r -> (r <> [] -> p = false) ->
  lf_after_cr p chunk = true -> (p = true -> discardTrailingNewline v = true) ->
  exists sfl' d',
    repr sfl' (snd (split_lf (r ++ norm p chunk)))
    /\ (ends_cr p chunk = true -> d' = true)
    /\ while_loop (S (length (r ++ chunk))) url (r ++ chunk)
                  (mkLoop 0 (Z.of_nat (length r)) sfl v)
       = Some (mkLoop (Z.of_nat (length (r ++ chunk))
                       - Z.of_nat (length (snd (split_lf (r ++ norm p chunk)))))
                      (Z.of_nat (length (snd (split_lf (r ++ norm p chunk))))) sfl'
                      (set_discard d' (fold_left (line_step url)
                                         (fst (split_lf (r ++ norm p chunk))) v))).
Proof.
  intros Hr Hrep Hrp Hx Hp. destruct r as [|c r1].
  - apply repr_nil in Hrep.
    exact (loop_cr url (S (length chunk)) [] chunk v sfl p (Nat.lt_succ_diag_r _) Hx Hp Hrep).
  - rewrite (Hrp ltac:(discriminate)) in *.
    now apply loop_cr_carry.
Qed.

Lemma on_data_cr url chunk r st v p :
  stream_ok r st -> clean_line r = true -> (r <> [] -> p = false) ->
  lf_after_cr p chunk = true -> (p = true -> discardTrailingNewline v = true) ->
  exists st' d',
    on_data url chunk st v
    = Some (st', set_discard d' (fold_left (line_step url)
                                           (fst (split_lf (r ++ norm p chunk))) v))
    /\ stream_ok (snd (split_lf (r ++ norm p chunk))) st'
    /\ (ends_cr p chunk = true -> d' = true).
Proof.
  intros (Hf & Hb & Hsp & Hrep) Hr Hrp Hx Hp.
  destruct st as [f b sp sfl]. cbn [isFirst buf startingPos startingFieldLength] in *.
  subst f b sp. unfold on_data. cbn [isFirst buf startingPos startingFieldLength andb].
  match goal with
  | |- context [while_loop _ _ ?B _] =>
      assert (EB : B = r ++ chunk) by (now destruct r); rewrite EB; clear EB
  end.
  destruct (loop_cr_any url r chunk v sfl p Hr Hrep Hrp Hx Hp) as (sfl' & d' & Hrep' & Hd' & Hw).
  rewrite Hw. cbn [l_pos l_vars l_startingPos l_startingFieldLength].
  assert (Hq : exists q, norm q (r ++ chunk) = r ++ norm p chunk).
  { destruct r as [|c r1]; [now exists p|]. exists false.
    rewrite (Hrp ltac:(discriminate)). now apply norm_clean. }
  destruct Hq as (q & Hq).
  destruct (rem_suffix (r ++ chunk) q) as (Hc & y & Hy). rewrite Hq in Hc, Hy.
  set (rem := snd (split_lf (r ++ norm p chunk))) in *.
  exists (mkStream false
            (if Z.of_nat (length (r ++ chunk)) - Z.of_nat (length rem)
                =? Z.of_nat (length (r ++ chunk))
             then None
             else if 0 <? Z.of_nat (length (r ++ chunk)) - Z.of_nat (length rem)
                  then Some (slice_from (r ++ chunk)
                               (Z.of_nat (length (r ++ chunk)) - Z.of_nat (length rem)))
                  else Some (r ++ chunk))
            (Z.of_nat (length rem)) sfl'), d'.
  split; [reflexivity|]. split; [|assumption].
  unfold stream_ok. cbn [isFirst buf startingPos startingFieldLength].
  repeat split; [|assumption].
  rewrite Hy. rewrite length_app.
  destruct rem as [|c rem'].
  - cbn [length]. rewrite Nat.add_0_r, Z.sub_0_r, Z.eqb_refl. reflexivity.
  - set (rem := c :: rem') in *.
    replace (Z.of_nat (length y + length rem) - Z.of_nat (length rem))
      with (Z.of_nat (length y)) by lia.
    destruct (Z.eqb_spec (Z.of_nat (length y)) (Z.of_nat (length y + length rem)))
      as [He|_]; [unfold rem in He; cbn [length] in He; lia|].
    destruct (Z.ltb_spec 0 (Z.of_nat (length y))) as [Hpos|Hz].
    + rewrite slice_from_drop. now rewrite drop_app_length.
    + destruct y; [reflexivity|cbn [length] in Hz; lia].
Qed.

Lemma clean_rem s : no_cr s = true -> clean_line (snd (split_lf s)) = true.
Proof. intros H. now destruct (split_lf_clean s H). Qed.

Lemma feed_cr url chunks : forall r st v p,
  stream_ok r st -> clean_line r = true -> (r <> [] -> p = false) ->
  lf_after_cr p (concat chunks) = true -> (p = true -> discardTrailingNewline v = true) ->
  exists st' d',
    feed url chunks st v
    = Some (st', set_discard d' (fold_left (line_step url)
                                   (fst (split_lf (r ++ norm p (concat chunks)))) v)).
Proof.
  induction chunks as [|c chunks IH]; intros r st v p Hok Hr Hrp Hx Hp.
  - cbn [feed concat norm]. rewrite app_nil_r.
    assert (Hlf : no_lf r = true) by (unfold clean_line in Hr; now apply andb_true_iff in Hr).
    rewrite (split_lf_no_lf r Hlf). cbn [fst fold_left].
    exists st, (discardTrailingNewline v). now rewrite set_discard_same.
  - cbn [concat] in Hx. rewrite lf_after_cr_app in Hx. apply andb_true_iff in Hx as [Hc Hcs].
    destruct (on_data_cr url c r st v p Hok Hr Hrp Hc Hp) as (st1 & d1 & E1 & Hok1 & Hd1).
    cbn [feed concat]. rewrite E1.
    assert (Hrc : no_cr (r ++ norm p c) = true).
    { rewrite no_cr_app, no_cr_norm. unfold clean_line in Hr.
      now apply andb_true_iff in Hr as [-> _]. }
    destruct (IH (snd (split_lf (r ++ norm p c))) st1
                 (set_discard d1 (fold_left (line_step url) (fst (split_lf (r ++ norm p c))) v))
                 (ends_cr p c) Hok1 (clean_rem _ Hrc))
      as (st2 & d2 & E2).
    + intros Hne. destruct (ends_cr p c) eqn:He; [|reflexivity].
      now rewrite (ends_cr_rem r c p Hrp He) in Hne.
    + assumption.
    + intros He. cbn [discardTrailingNewline set_discard]. now apply Hd1.
    + exists st2, d2. rewrite E2. rewrite fold_set_discard, set_discard_twice.
      rewrite norm_app, app_assoc, (split_lf_app (r ++ norm p c)). cbn [fst snd].
      now rewrite fold_left_app.
Qed.

End CrFacts.

(** ** Facts on well-formed streams *)

Module WireFacts.
Import Js Parser Lines Wire ParserFacts.

Lemma append_cons x (a b : string) : (String x a ++ b)%string = String x (a ++ b).
Proof. reflexivity. Qed.

Lemma append_assoc (a b c : string) : ((a ++ b) ++ c = a ++ b ++ c)%string.
Proof.
  induction a as [|x a IH]; [reflexivity|]. rewrite !append_cons. now rewrite IH.
Qed.

Lemma append_nil_r (a : string) : (a ++ "")%string = a.
Proof.
  induction a as [|x a IH]; [reflexivity|]. rewrite append_cons. now rewrite IH.
Qed.

Lemma length_append (a b : string) :
  String.length (a ++ b) = (String.length a + String.length b)%nat.
Proof.
  induction a as [|x a IH]; [reflexivity|]. rewrite append_cons. simpl. now rewrite IH.
Qed.

Lemma list_ascii_append (a b : string) :
  list_ascii_of_string (a ++ b) = list_ascii_of_string a ++ list_ascii_of_string b.
Proof.
  induction a as [|x a IH]; [reflexivity|]. rewrite append_cons. simpl. now rewrite IH.
Qed.

(** [(s + '\n').slice(0, -1)] is [s]. *)
Lemma str_slice_nl s : str_slice (s ++ nl) 0 (-1) = s.
Proof.
  unfold str_slice, slice. rewrite list_ascii_append, length_app. cbn [nl list_ascii_of_string length].
  unfold clamp. cbn [Z.ltb Z.compare].
  rewrite Z.min_l by lia. rewrite Z.max_r by lia. cbn [Z.to_nat drop].
  replace (Z.to_nat (Z.of_nat (length (list_ascii_of_string s) + 1) + -1 - 0))
    with (length (list_ascii_of_string s)) by lia.
  change (Z.to_nat 0) with 0%nat. rewrite drop_0.
  rewrite take_app_length. apply string_of_list_ascii_of_string.
Qed.

Lemma lines_nl_join vs : vs <> [] -> lines_nl vs = (join_nl vs ++ nl)%string.
Proof.
  induction vs as [|x vs IH]; [congruence|]. intros _.
  destruct vs as [|y vs].
  - cbn [lines_nl join_nl]. now rewrite append_nil_r.
  - cbn [lines_nl join_nl] in *. rewrite IH by congruence.
    now rewrite !append_assoc.
Qed.

Lemma value_ok_space sp x :
  value_ok sp x = true ->
  sp = false -> match bytes x with c :: _ => Byte.eqb c space = false | [] => True end.
Proof.
  unfold value_ok. intros [_ H]%andb_true_iff ->. cbn [orb] in H.
  destruct (bytes x) as [|c b]; [exact I|]. cbn in H. now apply negb_true_iff in H.
Qed.

(** The line function on each kind of line. *)
Lemma line_step_wire url v l :
  line_ok l = true ->
  line_step url v (line_bytes l) =
  match l with
  | Blank =>
      set_eventName None
        (if 0 <? Z.of_nat (String.length (data v))
         then set_data "" (emit (EMessage (type_of (eventName v)) (str_slice (data v) 0 (-1))
                                          (lastEventId v) url) v)
         else v)
  | FData _ x => set_data (data v ++ x ++ nl)%string v
  | FEvent _ n => set_eventName (Some n) v
  | FId _ x => set_lastEventId x v
  | FRetry _ x =>
      match parseInt x with
      | Some retry => set_reconnectInterval retry v
      | None => v
      end
  | FComment _ => v
  end.
Proof.
  intros Hl.
  destruct l as [|sp x|sp n|sp x|sp x|t]; cbn [line_bytes line_ok] in *; unfold field;
    [reflexivity| | | | |apply line_step_no_colon; [reflexivity|discriminate]].
  2: apply andb_true_iff in Hl as [Hl _].
  all: rewrite line_step_field;
    [cbv zeta; rewrite !toString_bytes; reflexivity
    |reflexivity|discriminate|now apply value_ok_space].
Qed.

Lemma clean_line_app a b :
  clean_line a = true -> clean_line b = true -> clean_line (a ++ b) = true.
Proof.
  unfold clean_line. rewrite no_cr_app, no_lf_app.
  intros [-> ->]%andb_true_iff [-> ->]%andb_true_iff. reflexivity.
Qed.

Lemma field_clean name sp value :
  clean_line (bytes name) = true -> value_ok sp value = true ->
  clean_line (field name sp value) = true.
Proof.
  intros Hn [Hv _]%andb_true_iff. unfold field. apply clean_line_app; [assumption|].
  destruct sp.
  - now apply (clean_line_app [colon; space]).
  - now apply (clean_line_app [colon]).
Qed.

Lemma line_ok_clean l : line_ok l = true -> clean_line (line_bytes l) = true.
Proof.
  destruct l; cbn [line_ok line_bytes]; intros H.
  - reflexivity.
  - now apply field_clean.
  - apply andb_true_iff in H as [H _]. now apply field_clean.
  - now apply field_clean.
  - now apply field_clean.
  - now apply (clean_line_app [colon]).
Qed.

Lemma lines_clean ls :
  forallb line_ok ls = true -> forallb clean_line (map line_bytes ls) = true.
Proof.
  induction ls as [|l ls IH]; [reflexivity|]. cbn [forallb map].
  intros [Hl Hls]%andb_true_iff. now rewrite line_ok_clean, IH.
Qed.

Lemma clean_no_lf ls : forallb clean_line ls = true -> forallb no_lf ls = true.
Proof.
  induction ls as [|l ls IH]; [reflexivity|]. cbn [forallb].
  intros [Hl Hls]%andb_true_iff. unfold clean_line in Hl.
  apply andb_true_iff in Hl as [_ ->]. now rewrite IH.
Qed.

Lemma clean_no_cr ls : forallb clean_line ls = true -> forallb no_cr ls = true.
Proof.
  induction ls as [|l ls IH]; [reflexivity|]. cbn [forallb].
  intros [Hl Hls]%andb_true_iff. unfold clean_line in Hl.
  apply andb_true_iff in Hl as [-> _]. now rewrite IH.
Qed.

Lemma split_lf_stream ls :
  forallb line_ok ls = true -> split_lf (stream_of ls) = (map line_bytes ls, []).
Proof.
  intros H. unfold stream_of. rewrite <- (app_nil_r (render_lines _)).
  rewrite split_lf_render_app by (now apply clean_no_lf, lines_clean).
  cbn [split_lf fst snd]. now rewrite app_nil_r.
Qed.

Lemma no_cr_stream ls : forallb line_ok ls = true -> no_cr (stream_of ls) = true.
Proof.
  intros H. unfold stream_of. rewrite no_cr_render. now apply clean_no_cr, lines_clean.
Qed.

Lemma no_cr_concat chunks : no_cr (concat chunks) = forallb no_cr chunks.
Proof.
  induction chunks as [|c chunks IH]; [reflexivity|].
  cbn [concat forallb]. now rewrite no_cr_app, IH.
Qed.

(** *** The byte-order mark *)

Lemma hasBom_eq b :
  hasBom b =
  match b with
  | x :: y :: z :: _ => Byte.eqb x xef && Byte.eqb y xbb && Byte.eqb z xbf
  | _ => false
  end.
Proof.
  destruct b as [|x [|y [|z rest]]]; cbv -[Byte.eqb];
    repeat match goal with
           | |- context [Byte.eqb ?a ?b] => destruct (Byte.eqb a b)
           end; reflexivity.
Qed.

Lemma hasBom_shape b :
  hasBom b = true -> exists rest, b = xef :: xbb :: xbf :: rest.
Proof.
  rewrite hasBom_eq. destruct b as [|x [|y [|z rest]]]; try discriminate.
  intros [[Ex Ey]%andb_true_iff Ez]%andb_true_iff.
  apply Byte.byte_dec_bl in Ex, Ey, Ez. subst. eauto.
Qed.




Lemma stream_head ls :
  match stream_of ls with
  | [] => True
  | b :: _ => Byte.eqb b xef = false
  end.
Proof. destruct ls as [|[] ls]; try exact I; reflexivity. Qed.

(** The parser on the chunks of a well-formed stream. *)
Lemma feed_wire url chunks ls v :
  forallb line_ok ls = true -> concat chunks = stream_of ls ->
  discardTrailingNewline v = false ->
  exists st,
    feed url chunks new_stream v
    = Some (st, fold_left (line_step url) (map line_bytes ls) v).
Proof.
  intros Hls E Hd. destruct chunks as [|c chunks].
  - destruct ls as [|l ls]; [cbn; eauto|].
    unfold stream_of in E. cbn [map] in E. rewrite render_lines_cons in E.
    cbn [concat] in E. now destruct (line_bytes l).
  - destruct (feed_fresh url c chunks v) as (st & F); [|assumption|].
    { rewrite <- no_cr_concat, E. now apply no_cr_stream. }
    exists st. rewrite F. do 2 f_equal.
    assert (Hb : hasBom c = false).
    { destruct (hasBom c) eqn:Hc; [|reflexivity].
      destruct (hasBom_shape c Hc) as (rest & ->).
      pose proof (stream_head ls) as Hh. rewrite <- E in Hh. cbn in Hh. discriminate. }
    unfold strip_bom. rewrite Hb. cbn [concat] in E. rewrite E.
    now rewrite split_lf_stream.
Qed.

(** *** What the lines of a stream do to the parser variables *)

Lemma fold_last_id url ls : forall v,
  forallb line_ok ls = true ->
  lastEventId (fold_left (line_step url) (map line_bytes ls) v) = last_id ls (lastEventId v).
Proof.
  unfold last_id. induction ls as [|l ls IH]; intros v Hls; [reflexivity|].
  cbn [forallb] in Hls. apply andb_true_iff in Hls as [Hl Hls].
  cbn [map fold_left]. rewrite IH, line_step_wire by assumption. f_equal.
  destruct l; try reflexivity.
  - now destruct (0 <? Z.of_nat (String.length (data v))).
  - now destruct (parseInt value).
Qed.

Lemma fold_last_retry url ls : forall v,
  forallb line_ok ls = true ->
  reconnectInterval (fold_left (line_step url) (map line_bytes ls) v)
  = last_retry ls (reconnectInterval v).
Proof.
  unfold last_retry. induction ls as [|l ls IH]; intros v Hls; [reflexivity|].
  cbn [forallb] in Hls. apply andb_true_iff in Hls as [Hl Hls].
  cbn [map fold_left]. rewrite IH, line_step_wire by assumption. f_equal.
  destruct l; try reflexivity.
  - now destruct (0 <? Z.of_nat (String.length (data v))).
  - now destruct (parseInt value).
Qed.

Lemma field_ok_line_ok l : field_ok l = true -> line_ok l = true.
Proof. now destruct l. Qed.

Lemma fields_ok_lines_ok b : forallb field_ok b = true -> forallb line_ok b = true.
Proof.
  intros H. apply forallb_forall. intros l Hl.
  apply field_ok_line_ok. exact (proj1 (forallb_forall _ _) H l Hl).
Qed.

Lemma name_fold_some fields : forall n,
  forallb field_ok fields = true -> truthy_str n = true ->
  exists n', fold_left (fun acc l => match l with FEvent _ m => Some m | _ => acc end)
                       fields (Some n) = Some n'
             /\ truthy_str n' = true.
Proof.
  induction fields as [|l fields IH]; intros n Hf Hn; [now exists n|].
  cbn [forallb] in Hf. apply andb_true_iff in Hf as [Hl Hf]. cbn [fold_left].
  destruct l; try (now apply IH).
  cbn [field_ok line_ok] in Hl. apply andb_true_iff in Hl as [_ Hl]. now apply IH.
Qed.

Lemma type_of_block fields : forall acc,
  forallb field_ok fields = true ->
  type_of (fold_left (fun acc l => match l with FEvent _ m => Some m | _ => acc end) fields acc)
  = match event_name fields with
    | Some n => n
    | None => type_of acc
    end.
Proof.
  unfold event_name.
  induction fields as [|l fields IH]; intros acc Hf; [reflexivity|].
  cbn [forallb] in Hf. apply andb_true_iff in Hf as [Hl Hf]. cbn [fold_left].
  destruct l; try (now apply IH).
  cbn [field_ok line_ok] in Hl. apply andb_true_iff in Hl as [_ Hl].
  destruct (name_fold_some fields name Hf Hl) as (n' & -> & Hn').
  unfold type_of. now rewrite Hn'.
Qed.

(** The field lines of a block. *)
Lemma fold_fields url fields : forall v,
  forallb field_ok fields = true ->
  let v' := fold_left (line_step url) (map line_bytes fields) v in
  data v' = (data v ++ lines_nl (data_values fields))%string
  /\ eventName v'
     = fold_left (fun acc l => match l with FEvent _ m => Some m | _ => acc end)
                 fields (eventName v)
  /\ log v' = log v.
Proof.
  induction fields as [|l fields IH]; intros v Hf.
  - cbn. now rewrite append_nil_r.
  - cbn [forallb] in Hf. apply andb_true_iff in Hf as [Hl Hf].
    cbn [map fold_left]. cbv zeta in *.
    destruct (IH (line_step url v (line_bytes l)) Hf) as (Hd & Hn & Hlog).
    rewrite Hd, Hn, Hlog, line_step_wire by now apply field_ok_line_ok.
    destruct l; try discriminate; cbn [data_values flat_map app lines_nl];
      try (now repeat split).
    + cbn [data eventName log set_data]. repeat split. now rewrite !append_assoc.
    + now destruct (parseInt value).
Qed.

(** A block and its blank line. *)
Lemma block_step url b v :
  block_ok b = true -> data v = "" -> type_of (eventName v) = "message" ->
  let v' := fold_left (line_step url) (map line_bytes (block_lines b)) v in
  data v' = "" /\ eventName v' = None
  /\ log v' = log v ++ [EMessage (fst (expected b)) (snd (expected b))
                                 (last_id b (lastEventId v)) url].
Proof.
  intros Hb Hd Ht. unfold block_ok in Hb. apply andb_true_iff in Hb as [Hf Hne].
  cbv zeta. unfold block_lines. rewrite map_app, fold_left_app. cbn [map fold_left line_bytes].
  destruct (fold_fields url b v Hf) as (Hd' & Hn' & Hlog').
  pose proof (fold_last_id url b v (fields_ok_lines_ok b Hf)) as Hid.
  set (w := fold_left (line_step url) (map line_bytes b) v) in *.
  rewrite line_step_blank.
  assert (Hvs : data_values b <> []).
  { destruct (data_values b); [discriminate|congruence]. }
  rewrite Hd in Hd'. change ("" ++ lines_nl (data_values b))%string
    with (lines_nl (data_values b)) in Hd'.
  rewrite (lines_nl_join _ Hvs) in Hd'.
  rewrite Hd', length_append. cbn [nl String.length].
  rewrite (ltb_true 0) by lia.
  cbn [data eventName log set_eventName set_data emit].
  repeat split. rewrite Hlog', str_slice_nl, Hn', Hid.
  rewrite type_of_block by assumption. rewrite Ht. reflexivity.
Qed.

Lemma block_lines_ok b : block_ok b = true -> forallb line_ok (block_lines b) = true.
Proof.
  unfold block_ok, block_lines. intros [Hf _]%andb_true_iff.
  rewrite forallb_app. cbn. rewrite andb_true_r. now apply fields_ok_lines_ok.
Qed.

Lemma blocks_ok blocks :
  forallb block_ok blocks = true ->
  forallb line_ok (concat (map block_lines blocks)) = true.
Proof.
  induction blocks as [|b blocks IH]; [reflexivity|]. cbn [forallb map concat].
  intros [Hb Hbs]%andb_true_iff. rewrite forallb_app, block_lines_ok, IH; auto.
Qed.


End WireFacts.

(** ** The parser: the properties of the specification *)

Module ParserSpec.
Import Js Parser Lines Wire ParserFacts WireFacts.

(** C3 (what the code does).  A line that consists of [data] and has no
    colon is not dispatched: nothing is appended to the pending data,
    and the blank line that follows emits nothing.  A field with an
    empty value would have given a pending data of one line feed and a
    message with empty data. *)
Theorem bare_data_line_is_dropped :
  option_map (fun r => data (snd r))
             (feed "http://h/" [bytes "data" ++ [lineFeed]] new_stream (init_vars "")) = Some ""
  /\ emitted_by [bytes "data" ++ [lineFeed; lineFeed]] = Some []
  /\ emitted_by [bytes "data:" ++ [lineFeed; lineFeed]]
     = Some [EMessage "message" "" "" "http://h/"].
Proof. repeat split; vm_compute; reflexivity. Qed.

(** C3 (what the code does), for every line: a complete line that is
    not blank and holds no colon leaves the parser variables as they
    were. *)
Lemma line_without_colon_is_ignored url v l :
  l <> [] -> colon_index l = -1 -> line_step url v l = v.
Proof. intros Hne Hc. apply line_step_no_colon; [lia|assumption]. Qed.



(** C1, the scenarios of the specification. *)
Lemma scenarios_A_B_C :
  emitted_by [bytes "data: hello" ++ [lineFeed; lineFeed]]
  = Some [EMessage "message" "hello" "" "http://h/"]
  /\ emitted_by [bytes "event: foo" ++ [lineFeed] ++ bytes "data: a" ++ [lineFeed]
                 ++ bytes "data: b" ++ [lineFeed; lineFeed]]
     = Some [EMessage "foo" ("a" ++ nl ++ "b") "" "http://h/"]
  /\ emitted_by [bytes ": comment" ++ [lineFeed] ++ bytes "data: x" ++ [lineFeed; lineFeed]]
     = Some [EMessage "message" "x" "" "http://h/"].
Proof. repeat split; vm_compute; reflexivity. Qed.

(** An event field with an empty value leaves the type "message". *)
Lemma empty_event_name_is_message :
  emitted_by [bytes "event:" ++ [lineFeed] ++ bytes "data: x" ++ [lineFeed; lineFeed]]
  = Some [EMessage "message" "x" "" "http://h/"].
Proof. vm_compute. reflexivity. Qed.




(** C2 (the other way in which the claim fails).  After a line that
    ends with a carriage return, the scan of the next lines starts
    again at the head of the buffer and sees that carriage return
    again: the line feed of a blank line is then discarded.  The stream
    fed whole gives no message; cut after the carriage return it gives
    one. *)
Lemma carriage_return_seen_twice :
  let stream := bytes "x" ++ [carriageReturn] ++ bytes "data: a" ++ [lineFeed; lineFeed] in
  emitted_by [stream] = Some []
  /\ emitted_by [take 2 stream; drop 2 stream]
     = Some [EMessage "message" "a" "" "http://h/"].
Proof. cbv zeta. split; vm_compute; reflexivity. Qed.

End ParserSpec.

(** ** Facts on the connection manager *)

Module ConnFacts.
Import Js Parser Lines Wire ParserFacts WireFacts Conn.

(** *** The merge loops *)

Lemma merge_headers_lookup (caller base : gmap string string) (k : string) :
  merge_headers caller base !! k =
  match caller !! k with
  | Some x => if truthy_str x then Some x else base !! k
  | None => base !! k
  end.
Proof.
  unfold merge_headers.
  apply (map_fold_weak_ind
           (fun (r m : gmap string string) =>
              r !! k = match m !! k with
                       | Some x => if truthy_str x then Some x else base !! k
                       | None => base !! k
                       end)).
  - now rewrite lookup_empty.
  - intros i x m r Hi IH. destruct (decide (i = k)) as [->|Hne].
    + rewrite lookup_insert_eq. destruct (truthy_str x).
      * now rewrite lookup_insert_eq.
      * now rewrite IH, Hi.
    + rewrite lookup_insert_ne by assumption.
      destruct (truthy_str x); [rewrite lookup_insert_ne by assumption|]; exact IH.
Qed.

Lemma merge_https_lookup (tls props : gmap string jsval) (k : string) :
  merge_https tls props !! k =
  match tls !! k with
  | Some x =>
      if existsb (String.eqb k) httpsOptions && negb (is_undefined x)
      then Some x else props !! k
  | None => props !! k
  end.
Proof.
  unfold merge_https.
  apply (map_fold_weak_ind
           (fun (r m : gmap string jsval) =>
              r !! k = match m !! k with
                       | Some x =>
                           if existsb (String.eqb k) httpsOptions && negb (is_undefined x)
                           then Some x else props !! k
                       | None => props !! k
                       end)).
  - now rewrite lookup_empty.
  - intros i x m r Hi IH. destruct (decide (i = k)) as [->|Hne].
    + rewrite lookup_insert_eq.
      destruct (existsb (String.eqb k) httpsOptions); cbn [negb andb].
      * destruct (is_undefined x); cbn [negb].
        -- now rewrite IH, Hi.
        -- now rewrite lookup_insert_eq.
      * now rewrite IH, Hi.
    + rewrite lookup_insert_ne by assumption.
      destruct (negb (existsb (String.eqb i) httpsOptions)); [exact IH|].
      destruct (is_undefined x); [exact IH|].
      now rewrite lookup_insert_ne by assumption.
Qed.

(** *** The headers of a request *)

(** The Last-Event-ID header that [connect] sends, when the caller's
    headers hold no truthy entry of that name. *)
Lemma own_headers_lookup id :
  own_headers id !! "Last-Event-ID" = (if truthy_str id then Some id else None)
  /\ own_headers id !! "Accept" = Some "text/event-stream"
  /\ own_headers id !! "Cache-Control" = Some "no-cache".
Proof.
  unfold own_headers. destruct (truthy_str id); repeat split;
    try apply lookup_insert_eq; reflexivity.
Qed.

Lemma last_event_id_header s :
  match eventSourceInitDict s with
  | Some d =>
      match headers d with
      | Some h =>
          match h !! "Last-Event-ID" with
          | Some x => truthy_str x = false
          | None => True
          end
      | None => True
      end
  | None => True
  end ->
  o_headers (build_options s) !! "Last-Event-ID"
  = if truthy_str (lastEventId (vars s)) then Some (lastEventId (vars s)) else None.
Proof.
  intros H. unfold build_options. cbn [o_headers].
  destruct (own_headers_lookup (lastEventId (vars s))) as (Hbase & _ & _).
  destruct (eventSourceInitDict s) as [d|]; [|exact Hbase].
  destruct (headers d) as [h|]; [|exact Hbase].
  rewrite merge_headers_lookup.
  destruct (h !! "Last-Event-ID") as [x|]; [|exact Hbase].
  now rewrite H.
Qed.

(** The caller's headers after the constructor hold no truthy
    Last-Event-ID. *)
Lemma take_last_event_id_clean dict :
  match snd (take_last_event_id dict) with
  | Some d =>
      match headers d with
      | Some h =>
          match h !! "Last-Event-ID" with
          | Some x => truthy_str x = false
          | None => True
          end
      | None => True
      end
  | None => True
  end.
Proof.
  unfold take_last_event_id.
  destruct dict as [d|]; [|exact I].
  destruct (headers d) as [h|] eqn:Eh; cbn [snd]; [|now rewrite Eh].
  destruct (h !! "Last-Event-ID") as [x|] eqn:Ex; cbn [snd].
  - destruct (truthy_str x) eqn:Et; cbn [snd headers].
    + now rewrite lookup_delete_eq.
    + now rewrite Eh, Ex.
  - now rewrite Eh, Ex.
Qed.

(** *** The callbacks and the state *)

Lemma set_ticks_same s : set_ticks (ticks s) s = s.
Proof. now destruct s. Qed.

Lemma req_aborted_connect s : req_aborted (connect s) = false.
Proof. unfold req_aborted, connect. cbn [requests set_requests]. now rewrite rev_unit. Qed.

Lemma req_aborted_abort s : req_aborted (abort_req s) = true.
Proof.
  unfold req_aborted, abort_req. destruct (rev (requests s)) as [|r older] eqn:E.
  - now rewrite E.
  - cbn [requests set_requests]. now rewrite rev_unit.
Qed.

Lemma ticks_abort s : ticks (abort_req s) = ticks s.
Proof. unfold abort_req. now destruct (rev (requests s)). Qed.

Lemma not_closed_iff r : is_closed r = false <-> r <> CLOSED.
Proof. destruct r; simpl; split; congruence. Qed.

(** With an empty queue, [exec] is the handler. *)
Lemma exec_handle e s :
  enabled e s = true -> ticks (handle e s) = 0%nat -> exec e s = handle e s.
Proof.
  intros He Ht. unfold exec. rewrite He, Ht. cbn [drain].
  rewrite <- Ht at 1. apply set_ticks_same.
Qed.

Lemma exec_disabled e s : enabled e s = false -> exec e s = s.
Proof. intros He. unfold exec. now rewrite He. Qed.

Lemma ticks_onConnectionClosed m s : ticks (onConnectionClosed m s) = ticks s.
Proof.
  unfold onConnectionClosed. destruct (is_closed (readyState s)); [reflexivity|].
  cbn. destruct (reconnectUrl s) as [u|]; [destruct (truthy_str u)|]; reflexivity.
Qed.

Lemma ticks_close s : ticks (_close s) = ticks s.
Proof.
  unfold _close, abort_req. destruct (is_closed (readyState s)); [reflexivity|].
  cbn. now destruct (rev (requests s)).
Qed.

Lemma ticks_on_chunk c s : ticks (on_chunk c s) = ticks s.
Proof.
  unfold on_chunk. destruct (stream s) as [st|]; [|reflexivity].
  now destruct (on_data (url s) c st (vars s)) as [[st' v']|].
Qed.

Lemma ticks_on_timer s : ticks (on_timer s) = ticks s.
Proof.
  unfold on_timer.
  now destruct (negb (is_connecting (readyState s)) || connectionInProgress s).
Qed.

Lemma readyState_onConnectionClosed m s :
  readyState (onConnectionClosed m s)
  = if is_closed (readyState s) then CLOSED else CONNECTING.
Proof.
  unfold onConnectionClosed. destruct (readyState s) eqn:E; cbn; try assumption;
    destruct (reconnectUrl s) as [u|]; try destruct (truthy_str u); reflexivity.
Qed.

(** The handlers leave a client closed only through [_close]. *)
Lemma settled_exec e s : settled s -> settled (exec e s).
Proof.
  destruct s as [rs u cip ru dict v str reqs tms tks].
  unfold settled. cbn [ticks readyState]. intros [-> Hc].
  unfold exec. destruct (enabled e _) eqn:He; [|now split].
  destruct e; cbn [handle enabled] in *.
  - (* the response callback *)
    apply negb_true_iff in He.
    assert (Hn : rs <> CLOSED) by (intros E; rewrite (Hc E) in He; discriminate).
    unfold on_response, onConnectionClosed, _close. cbn -[status_in Z.eqb].
    repeat match goal with
           | |- context [status_in ?a ?b] => destruct (status_in a b)
           | |- context [negb (status =? 200)] => destruct (negb (status =? 200))
           | |- context [status =? 307] => destruct (status =? 307)
           | |- context [is_closed rs] => destruct rs; cbn
           | |- context [match location with _ => _ end] => destruct location as [target|]; cbn
           | |- context [truthy_str ?x] => destruct (truthy_str x); cbn
           | |- context [match ru with _ => _ end] => destruct ru as [ru'|]; cbn
           end;
      try congruence;
      try (split; [reflexivity|discriminate]);
      try (split; [reflexivity|intros E; cbn in E; congruence]).
    all: rewrite ticks_abort; cbn [ticks set_readyState emit_es set_vars
                                   set_connectionInProgress drain].
    all: split; [reflexivity|intros _].
    all: change (req_aborted (set_ticks 0 ?x)) with (req_aborted x).
    all: apply req_aborted_abort.
  - (* a chunk *)
    unfold on_chunk. cbn.
    destruct str as [st|]; [|discriminate].
    destruct (on_data u chunk st v) as [[st' v']|]; cbn; now split.
  - (* the end of the response *)
    unfold on_end, onConnectionClosed. cbn.
    destruct rs; cbn; try (destruct ru as [x|]; [destruct (truthy_str x)|]; cbn);
      first [split; [reflexivity|discriminate] | now split].
  - (* an error of the request *)
    unfold on_req_error, onConnectionClosed. cbn.
    destruct rs; cbn; try (destruct ru as [x|]; [destruct (truthy_str x)|]; cbn);
      first [split; [reflexivity|discriminate] | now split].
  - (* a timer *)
    unfold on_timer. cbn.
    destruct rs; cbn; try destruct cip; cbn;
      first [split; [reflexivity|discriminate] | now split].
  - (* close *)
    unfold _close. cbn. destruct rs; cbn; try (now split).
    all: rewrite ticks_abort; cbn [ticks set_readyState drain].
    all: split; [reflexivity|intros _].
    all: change (req_aborted (set_ticks 0 ?x)) with (req_aborted x).
    all: apply req_aborted_abort.
Qed.

Lemma settled_run es : forall s, settled s -> settled (run es s).
Proof.
  unfold run. induction es as [|e es IH]; intros s H; [assumption|].
  cbn [fold_left]. apply IH. now apply settled_exec.
Qed.

Lemma settled_new url dict : settled (EventSource url dict).
Proof.
  unfold EventSource. destruct (take_last_event_id dict) as [id dict'].
  split; [reflexivity|discriminate].
Qed.

(** *** A closed client *)

Lemma drain_frame n : forall s,
  readyState (drain n s) = readyState s /\ url (drain n s) = url s
  /\ reconnectUrl (drain n s) = reconnectUrl s /\ vars (drain n s) = vars s
  /\ timers (drain n s) = timers s /\ stream (drain n s) = stream s
  /\ ticks (drain n s) = ticks s
  /\ eventSourceInitDict (drain n s) = eventSourceInitDict s.
Proof.
  induction n as [|n IH]; intros s; [now repeat split|].
  cbn [drain]. destruct (IH (connect s)) as (H1 & H2 & H3 & H4 & H5 & H6 & H7 & H8).
  rewrite H1, H2, H3, H4, H5, H6, H7, H8. now repeat split.
Qed.




Lemma exec_close_closed s :
  ticks s = 0%nat -> readyState s = CLOSED -> exec Close s = s.
Proof.
  intros Ht Hc. rewrite exec_handle.
  - cbn [handle]. unfold _close. now rewrite Hc.
  - reflexivity.
  - cbn [handle]. unfold _close. now rewrite Hc.
Qed.



(** *** Reading a response *)

Lemma run_app es1 es2 s : run (es1 ++ es2) s = run es2 (run es1 s).
Proof. unfold run. apply fold_left_app. Qed.

Lemma run_chunks chunks : forall s st,
  stream s = Some st -> ticks s = 0%nat ->
  exists st' v',
    feed (url s) chunks st (vars s) = Some (st', v')
    /\ run (map Chunk chunks) s = set_vars v' (set_stream (Some st') s).
Proof.
  induction chunks as [|c chunks IH]; intros s st Hst Ht.
  - exists st, (vars s). split; [reflexivity|].
    destruct s. cbn in *. now subst.
  - cbn [map feed]. change (run (Chunk c :: map Chunk chunks) s)
      with (run (map Chunk chunks) (exec (Chunk c) s)).
    destruct (on_data_total (url s) c st (vars s)) as ([st1 v1] & E1).
    assert (Ex : exec (Chunk c) s = set_vars v1 (set_stream (Some st1) s)).
    { rewrite exec_handle; cbn [handle enabled on_chunk]; unfold on_chunk;
        rewrite Hst; [now rewrite E1|reflexivity|now rewrite E1]. }
    rewrite Ex, E1.
    destruct (IH (set_vars v1 (set_stream (Some st1) s)) st1 eq_refl Ht)
      as (st' & v' & F & R).
    exists st', v'. split; [exact F|]. rewrite R. reflexivity.
Qed.

(** Responses with status 200 and chunks keep the client open or
    connecting and leave the url and the pending timers alone. *)
Lemma reading_exec e s :
  settled s -> readyState s <> CLOSED -> is_reading e = true ->
  readyState (exec e s) <> CLOSED /\ url (exec e s) = url s
  /\ reconnectUrl (exec e s) = reconnectUrl s /\ timers (exec e s) = timers s.
Proof.
  destruct s as [rs u cip ru dict v str reqs tms tks].
  unfold settled. cbn [ticks readyState]. intros [-> Hc] Hn Hr.
  unfold exec. destruct (enabled e _) eqn:He; [|now repeat split].
  destruct e; try discriminate; cbn [handle is_reading] in *.
  - apply Z.eqb_eq in Hr. subst status. cbn. repeat split. discriminate.
  - unfold on_chunk. cbn. destruct str as [st|]; [|discriminate].
    destruct (on_data u chunk st v) as [[st' v']|]; cbn; now repeat split.
Qed.

Lemma reading_run mid : forall s,
  settled s -> readyState s <> CLOSED -> forallb is_reading mid = true ->
  settled (run mid s) /\ readyState (run mid s) <> CLOSED /\ url (run mid s) = url s
  /\ reconnectUrl (run mid s) = reconnectUrl s /\ timers (run mid s) = timers s.
Proof.
  unfold run. induction mid as [|e mid IH]; intros s Hs Hn Hm;
    [cbn [fold_left]; intuition|].
  cbn [forallb] in Hm. apply andb_true_iff in Hm as [He Hm]. cbn [fold_left].
  destruct (reading_exec e s Hs Hn He) as (H1 & H2 & H3 & H4).
  destruct (IH (exec e s) (settled_exec e s Hs) H1 Hm) as (I0 & I1 & I2 & I3 & I4).
  rewrite I2, I3, I4, H2, H3, H4. intuition.
Qed.

(** A disconnection of a client that is not closed: the url of a
    temporary redirect is given back, and a reconnection is scheduled
    after the reconnect interval. *)
Lemma disconnect_exec d s :
  settled s -> readyState s <> CLOSED -> is_disconnect d = true -> enabled d s = true ->
  readyState (exec d s) = CONNECTING
  /\ timers (exec d s) = timers s ++ [reconnectInterval (vars s)]
  /\ requests (exec d s) = requests s
  /\ match reconnectUrl s with
     | Some r => if truthy_str r
                 then url (exec d s) = r /\ reconnectUrl (exec d s) = None
                 else url (exec d s) = url s /\ reconnectUrl (exec d s) = Some r
     | None => url (exec d s) = url s /\ reconnectUrl (exec d s) = None
     end.
Proof.
  destruct s as [rs u cip ru dict v str reqs tms tks].
  unfold settled. cbn [ticks readyState]. intros [-> Hc] Hn Hd He.
  unfold exec. rewrite He.
  destruct d; try discriminate; cbn [handle is_disconnect] in *.
  - unfold on_response. rewrite Hd. unfold onConnectionClosed. cbn.
    destruct rs; try congruence; cbn;
      destruct ru as [x|]; try destruct (truthy_str x); cbn; now repeat split.
  - unfold on_end, onConnectionClosed. cbn.
    destruct rs; try congruence; cbn;
      destruct ru as [x|]; try destruct (truthy_str x); cbn; now repeat split.
  - unfold on_req_error, onConnectionClosed. cbn.
    destruct rs; try congruence; cbn;
      destruct ru as [x|]; try destruct (truthy_str x); cbn; now repeat split.
Qed.

(** A new client that receives a response with status 200 and then the
    chunks of a well-formed stream. *)
Lemma reading_new u dict ls chunks :
  forallb line_ok ls = true -> concat chunks = stream_of ls ->
  let s0 := EventSource u dict in
  let s := run (Response 200 "OK" None :: map Chunk chunks) s0 in
  settled s /\ readyState s = OPEN /\ timers s = [] /\ requests s = requests s0
  /\ connectionInProgress s = false
  /\ eventSourceInitDict s = eventSourceInitDict s0
  /\ reconnectUrl s = None /\ url s = u
  /\ (exists st, stream s = Some st)
  /\ lastEventId (vars s) = last_id ls (lastEventId (vars s0))
  /\ reconnectInterval (vars s) = last_retry ls 1000.
Proof.
  intros Hls E. cbv zeta.
  assert (Hs : settled (run (Response 200 "OK" None :: map Chunk chunks) (EventSource u dict)))
    by apply settled_run, settled_new.
  revert Hs. unfold EventSource. destruct (take_last_event_id dict) as [id dict'].
  change (run (Response 200 "OK" None :: map Chunk chunks)
              (connect (mkES CONNECTING u false None dict' (init_vars id) None [] [] 0)))
    with (run (map Chunk chunks)
              (mkES OPEN u false None dict' (emit EOpen (init_vars id)) (Some new_stream)
                    [mkRequest (build_options
                                  (mkES CONNECTING u false None dict' (init_vars id) None [] [] 0))
                               false] [] 0)).
  match goal with
  | |- context [run (map Chunk chunks) ?s1] =>
      destruct (run_chunks chunks s1 new_stream eq_refl eq_refl) as (st' & v' & F & ->)
  end.
  cbn [url vars] in F.
  destruct (feed_wire u chunks ls (emit EOpen (init_vars id)) Hls E eq_refl) as (st2 & F2).
  rewrite F2 in F. injection F as _ <-.
  intros Hs. cbn. repeat split; try assumption; try apply Hs.
  - eauto.
  - now rewrite fold_last_id by assumption.
  - now rewrite fold_last_retry by assumption.
Qed.

End ConnFacts.

(** ** The connection manager: the properties of the specification *)

Module ConnSpec.
Import Js Parser Lines Wire ParserFacts WireFacts Conn ConnFacts.

Lemma truthy_str_iff x : truthy_str x = true <-> x <> "".
Proof. destruct x; simpl; split; congruence. Qed.

(** C10.  A non-empty Last-Event-ID among the caller's headers becomes
    the initial last event id; the entry is deleted from the caller's
    headers; the first request carries the id in its Last-Event-ID
    header, which comes from the stored id and not from the merge of
    the caller's headers. *)
Theorem constructor_takes_last_event_id url d h x :
  headers d = Some h -> h !! "Last-Event-ID" = Some x -> x <> "" ->
  let s := EventSource url (Some d) in
  lastEventId (vars s) = x
  /\ (exists d', eventSourceInitDict s = Some d'
                 /\ headers d' = Some (delete "Last-Event-ID" h)
                 /\ delete "Last-Event-ID" h !! "Last-Event-ID" = None)
  /\ (exists o, requests s = [mkRequest o false]
                /\ o_url o = url
                /\ o_headers o = merge_headers (delete "Last-Event-ID" h) (own_headers x)
                /\ o_headers o !! "Last-Event-ID" = Some x).
Proof.
  intros Hh Hx Hne. apply truthy_str_iff in Hne.
  unfold EventSource, take_last_event_id. rewrite Hh, Hx, Hne. cbv zeta.
  unfold connect. cbn. split; [reflexivity|]. split.
  - eexists. split; [reflexivity|]. cbn. split; [reflexivity|]. apply lookup_delete_eq.
  - eexists. split; [reflexivity|]. cbn. split; [reflexivity|]. split; [reflexivity|].
    rewrite merge_headers_lookup, lookup_delete_eq.
    destruct (own_headers_lookup x) as (-> & _ & _). now rewrite Hne.
Qed.

Lemma constructor_takes_last_event_id_witness :
  let h : gmap string string := <["Last-Event-ID" := "42"]> (<["X-Token" := "t"]> ∅) in
  let d := mkInit (Some h) JUndefined None in
  let s := EventSource "http://h/" (Some d) in
  lastEventId (vars s) = "42"
  /\ (exists d', eventSourceInitDict s = Some d'
                 /\ headers d' = Some (delete "Last-Event-ID" h)
                 /\ delete "Last-Event-ID" h !! "Last-Event-ID" = None)
  /\ (exists o, requests s = [mkRequest o false]
                /\ o_url o = "http://h/"
                /\ o_headers o = merge_headers (delete "Last-Event-ID" h) (own_headers "42")
                /\ o_headers o !! "Last-Event-ID" = Some "42").
Proof.
  cbv zeta.
  apply (constructor_takes_last_event_id "http://h/"
           (mkInit (Some (<["Last-Event-ID" := "42"]> (<["X-Token" := "t"]> ∅))) JUndefined None)
           (<["Last-Event-ID" := "42"]> (<["X-Token" := "t"]> ∅)) "42");
    [reflexivity|reflexivity|discriminate].
Defined.

(** C7 (what the code does).  With an init dict that sets neither the
    legacy flag nor the https option, the request is built with
    [rejectUnauthorized] false; it is true only when there is no init
    dict at all. *)
Theorem reject_unauthorized_default_with_init_dict :
  request_prop (EventSource "https://h/" (Some (mkInit None JUndefined None)))
               "rejectUnauthorized" = Some (JBool false)
  /\ request_prop (EventSource "https://h/" None) "rejectUnauthorized" = Some (JBool true).
Proof. split; reflexivity. Qed.

(** C7, the resolution in general: the value given through the https
    options wins; without one the legacy flag decides, read by its
    truthiness; without an init dict the option is true. *)
Lemma reject_unauthorized_resolution url dict :
  request_prop (EventSource url dict) "rejectUnauthorized" =
  match dict with
  | None => Some (JBool true)
  | Some d =>
      match structured d "rejectUnauthorized" with
      | Some x => Some x
      | None => Some (JBool (truthy (rejectUnauthorized d)))
      end
  end.
Proof.
  assert (E : eventSourceInitDict (EventSource url dict) = snd (take_last_event_id dict)
              /\ request_prop (EventSource url dict) "rejectUnauthorized"
                 = o_props (build_options
                              (mkES CONNECTING url false None (snd (take_last_event_id dict))
                                    (init_vars (fst (take_last_event_id dict))) None [] [] 0))
                   !! "rejectUnauthorized").
  { unfold EventSource. destruct (take_last_event_id dict) as [id dict']. split; reflexivity. }
  destruct E as [_ ->]. unfold build_options. cbn [eventSourceInitDict o_props].
  assert (Hd : match snd (take_last_event_id dict), dict with
               | Some d', Some d => rejectUnauthorized d' = rejectUnauthorized d
                                    /\ https d' = https d
               | None, None => True
               | _, _ => False
               end).
  { unfold take_last_event_id. destruct dict as [d|]; [|exact I].
    destruct (headers d) as [h|]; [|now split].
    destruct (h !! "Last-Event-ID") as [x|]; [|now split].
    destruct (truthy_str x); now split. }
  destruct (snd (take_last_event_id dict)) as [d'|], dict as [d|]; try contradiction;
    [|reflexivity].
  destruct Hd as [Hr Hh]. unfold structured. rewrite Hr, Hh, negb_involutive.
  destruct (https d) as [t|]; [|apply lookup_insert_eq].
  rewrite merge_https_lookup, lookup_insert_eq.
  destruct (t !! "rejectUnauthorized") as [x|]; [|reflexivity].
  change (existsb (String.eqb "rejectUnauthorized") httpsOptions) with true. cbn [andb].
  now destruct (is_undefined x).
Qed.

(** C8.  A response with status 301, 302 or 307 and no usable Location
    emits an error with the status and the message and does nothing
    else: no timer and no request is added, the state and the url are
    kept, and no connection is in progress. *)
Theorem redirect_without_location_stalls s status msg location :
  status_in status [301; 302; 307] = true -> truthy_header location = false ->
  enabled (Response status msg location) s = true -> ticks s = 0%nat ->
  let s' := exec (Response status msg location) s in
  log (vars s') = log (vars s) ++ [EError (Some status) (Some msg)]
  /\ readyState s' = readyState s /\ timers s' = timers s /\ requests s' = requests s
  /\ ticks s' = 0%nat /\ url s' = url s /\ reconnectUrl s' = reconnectUrl s
  /\ stream s' = stream s /\ connectionInProgress s' = false.
Proof.
  intros Hst Hloc Hen Ht. cbv zeta. unfold exec. rewrite Hen. cbn [handle].
  unfold on_response. rewrite Hst.
  assert (H5 : status_in status [500; 502; 503; 504] = false).
  { unfold status_in in *. cbn [existsb] in *.
    destruct (Z.eqb_spec status 301); [subst; reflexivity|].
    destruct (Z.eqb_spec status 302); [subst; reflexivity|].
    destruct (Z.eqb_spec status 307); [subst; reflexivity|discriminate]. }
  rewrite H5.
  assert (E : match location with
              | Some target =>
                  if truthy_str target
                  then set_ticks (S (ticks (set_url target
                         (if status =? 307
                          then set_reconnectUrl (Some (url (set_connectionInProgress false s)))
                                                (set_connectionInProgress false s)
                          else set_connectionInProgress false s))))
                         (set_url target
                            (if status =? 307
                             then set_reconnectUrl (Some (url (set_connectionInProgress false s)))
                                                   (set_connectionInProgress false s)
                             else set_connectionInProgress false s))
                  else emit_es (EError (Some status) (Some msg)) (set_connectionInProgress false s)
              | None => emit_es (EError (Some status) (Some msg)) (set_connectionInProgress false s)
              end = emit_es (EError (Some status) (Some msg)) (set_connectionInProgress false s)).
  { destruct location as [t|]; [|reflexivity]. cbn in Hloc. now rewrite Hloc. }
  cbv zeta. rewrite E. cbn. rewrite Ht. cbn. repeat split.
Qed.

Lemma redirect_without_location_stalls_witness :
  let s := EventSource "http://h/a" None in
  let s' := exec (Response 301 "Moved Permanently" None) s in
  log (vars s') = log (vars s) ++ [EError (Some 301) (Some "Moved Permanently")]
  /\ readyState s' = readyState s /\ timers s' = timers s /\ requests s' = requests s
  /\ ticks s' = 0%nat /\ url s' = url s /\ reconnectUrl s' = reconnectUrl s
  /\ stream s' = stream s /\ connectionInProgress s' = false.
Proof.
  cbv zeta.
  apply (redirect_without_location_stalls (EventSource "http://h/a" None) 301
           "Moved Permanently" None); reflexivity.
Defined.



(** C5.  A response with status 307 and a Location makes the client
    keep the current url as the url to reconnect to, take the Location
    as its url, and send a request to it at once: no timer is added.
    When the connection is next reported closed, after any number of
    accepted responses and chunks, the url is the one from before the
    redirect again and the kept url is cleared. *)
Theorem temporary_redirect s target msg mid d :
  settled s -> enabled (Response 307 msg (Some target)) s = true ->
  url s <> "" -> target <> "" ->
  let s1 := exec (Response 307 msg (Some target)) s in
  reconnectUrl s1 = Some (url s) /\ url s1 = target
  /\ timers s1 = timers s /\ readyState s1 = readyState s
  /\ (exists o, requests s1 = requests s ++ [mkRequest o false] /\ o_url o = target)
  /\ (forallb is_reading mid = true -> is_disconnect d = true ->
      enabled d (run mid s1) = true ->
      let s2 := exec d (run mid s1) in
      url s2 = url s /\ reconnectUrl s2 = None /\ readyState s2 = CONNECTING).
Proof.
  intros Hs He Hu Ht. cbv zeta.
  assert (Hs1 : settled (exec (Response 307 msg (Some target)) s)) by now apply settled_exec.
  assert (Hn : readyState s <> CLOSED).
  { intros E. destruct Hs as [_ Ha]. cbn [enabled] in He. rewrite (Ha E) in He. discriminate. }
  apply truthy_str_iff in Hu, Ht.
  assert (H1 : reconnectUrl (exec (Response 307 msg (Some target)) s) = Some (url s)
               /\ url (exec (Response 307 msg (Some target)) s) = target
               /\ timers (exec (Response 307 msg (Some target)) s) = timers s
               /\ readyState (exec (Response 307 msg (Some target)) s) = readyState s
               /\ (exists o, requests (exec (Response 307 msg (Some target)) s)
                             = requests s ++ [mkRequest o false] /\ o_url o = target)).
  { unfold exec. rewrite He. cbn [handle]. unfold on_response.
    change (status_in 307 [500; 502; 503; 504]) with false.
    change (status_in 307 [301; 302; 307]) with true.
    change (307 =? 307) with true. cbv iota. rewrite Ht.
    destruct Hs as [Hk _]. destruct s as [rs u cip ru dict v str reqs tms tks].
    cbn in Hk. subst tks. cbn. repeat split. eexists. split; reflexivity. }
  destruct H1 as (R1 & R2 & R3 & R4 & R5).
  do 5 (split; [assumption|]).
  intros Hm Hd Hen.
  destruct (reading_run mid _ Hs1 ltac:(now rewrite R4) Hm) as (M0 & M1 & M2 & M3 & M4).
  destruct (disconnect_exec d _ M0 M1 Hd Hen) as (D1 & D2 & D3 & D4).
  rewrite M3, R1, Hu in D4. destruct D4 as [D4 D5]. now repeat split.
Qed.

Lemma temporary_redirect_witness :
  let s := EventSource "http://h/a" None in
  let s1 := exec (Response 307 "Temporary Redirect" (Some "http://h/b")) s in
  let mid := [Response 200 "OK" None; Chunk (bytes "data: x" ++ [lineFeed; lineFeed])] in
  reconnectUrl s1 = Some "http://h/a" /\ url s1 = "http://h/b"
  /\ timers s1 = [] /\ readyState s1 = CONNECTING
  /\ (exists o, requests s1 = requests s ++ [mkRequest o false] /\ o_url o = "http://h/b")
  /\ (let s2 := exec End (run mid s1) in
      url s2 = "http://h/a" /\ reconnectUrl s2 = None /\ readyState s2 = CONNECTING).
Proof.
  cbv zeta.
  destruct (temporary_redirect (EventSource "http://h/a" None) "http://h/b" "Temporary Redirect"
              [Response 200 "OK" None; Chunk (bytes "data: x" ++ [lineFeed; lineFeed])] End)
    as (H1 & H2 & H3 & H4 & H5 & H6);
    [split; [reflexivity|discriminate]|reflexivity|discriminate|discriminate|].
  repeat split; try assumption; apply (H6 eq_refl eq_refl eq_refl).
Defined.

(** C4 (counterexample).  The ids "5" and then "" are parsed; the
    request of the next reconnection has no Last-Event-ID header,
    although the last non-empty id seen is "5". *)
Lemma empty_id_clears_last_event_id :
  let body := stream_of [FId true "5"; FData true "x"; Blank;
                         FId true ""; FData true "y"; Blank] in
  let s := run [Response 200 "OK" None; Chunk body; End; TimerFire 0]
               (EventSource "http://h/" None) in
  map summary (log (vars s)) = [None; Some ("message", "x"); Some ("message", "y"); None]
  /\ length (requests s) = 2%nat
  /\ request_header s "Last-Event-ID" = None
  /\ request_header s "Last-Event-ID" <> Some "5".
Proof. cbv zeta. repeat split; try (vm_compute; reflexivity). vm_compute. discriminate. Qed.

(** C4 (amended).  After the lines of a response, the request of the
    next reconnection carries in Last-Event-ID the value of the last
    id field seen, whatever the number of events since the connection
    was made, or the id the client started with when no id field was
    seen; the header is present only when that value is not empty, so
    an empty id field removes it. *)
Theorem last_event_id_on_reconnect u dict ls chunks :
  forallb line_ok ls = true -> concat chunks = stream_of ls ->
  let s0 := EventSource u dict in
  let s := run (Response 200 "OK" None :: map Chunk chunks ++ [End; TimerFire 0]) s0 in
  length (requests s) = 2%nat
  /\ request_header s "Last-Event-ID"
     = (let id := last_id ls (lastEventId (vars s0)) in
        if truthy_str id then Some id else None).
Proof.
  intros Hls E. cbv zeta.
  destruct (reading_new u dict ls chunks Hls E)
    as (Hs & Hr & Ht & Hq & Hc & Hd & Hru & Hu & (st & Hst) & Hid & _).
  change (Response 200 "OK" None :: map Chunk chunks ++ [End; TimerFire 0])
    with ((Response 200 "OK" None :: map Chunk chunks) ++ [End; TimerFire 0]).
  rewrite run_app.
  set (s := run (Response 200 "OK" None :: map Chunk chunks) (EventSource u dict)) in *.
  assert (Hclean : match eventSourceInitDict s with
                   | Some d => match headers d with
                               | Some h => match h !! "Last-Event-ID" with
                                           | Some x => truthy_str x = false
                                           | None => True
                                           end
                               | None => True
                               end
                   | None => True
                   end).
  { rewrite Hd. unfold EventSource.
    pose proof (take_last_event_id_clean dict) as Hc'.
    now destruct (take_last_event_id dict) as [id dict']. }
  assert (Hq1 : length (requests s) = 1%nat).
  { rewrite Hq. unfold EventSource. now destruct (take_last_event_id dict). }
  rewrite <- Hid. clearbody s. destruct Hs as [Hk _].
  destruct s as [rs su cip ru sd v str reqs tms tks]. cbn in *. subst.
  unfold run, exec. cbn. unfold request_header, last_request. cbn.
  split; [rewrite length_app, Hq1; reflexivity|].
  rewrite rev_unit. cbn [r_options].
  rewrite last_event_id_header; [reflexivity|exact Hclean].
Qed.

Lemma last_event_id_on_reconnect_witness :
  let ls := [FId true "1"; FData true "a"; Blank; FData false "b"; FId false "2"; Blank;
             FComment "k"] in
  let chunks := [take 5 (stream_of ls); drop 5 (stream_of ls)] in
  let s := run (Response 200 "OK" None :: map Chunk chunks ++ [End; TimerFire 0])
               (EventSource "http://h/" None) in
  length (requests s) = 2%nat /\ request_header s "Last-Event-ID" = Some "2".
Proof.
  cbv zeta.
  apply (last_event_id_on_reconnect "http://h/" None
           [FId true "1"; FData true "a"; Blank; FData false "b"; FId false "2"; Blank;
            FComment "k"]);
    reflexivity.
Defined.

(** C9.  When the value of a retry field parses as an integer, the
    reconnect interval becomes that integer, and the timer set when the
    connection is next reported closed has that delay; when the value
    does not parse, the interval is the one that was in force before
    the field, 1000 when no earlier field changed it. *)
Theorem retry_sets_reconnect_interval u dict before sp value chunks d :
  forallb line_ok before = true -> value_ok sp value = true ->
  concat chunks = stream_of (before ++ [FRetry sp value]) ->
  d = End \/ (exists m, d = ReqError m) ->
  let s := run (Response 200 "OK" None :: map Chunk chunks) (EventSource u dict) in
  (forall n, parseInt value = Some n ->
             reconnectInterval (vars s) = n /\ timers (exec d s) = [n])
  /\ (parseInt value = None ->
      reconnectInterval (vars s) = last_retry before 1000
      /\ timers (exec d s) = [last_retry before 1000]).
Proof.
  intros Hb Hv E Hd. cbv zeta.
  destruct (reading_new u dict (before ++ [FRetry sp value]) chunks)
    as (Hs & Hr & Ht & _ & _ & _ & _ & _ & (st & Hst) & _ & Hint);
    [rewrite forallb_app, Hb; cbn; now rewrite Hv|exact E|].
  set (s := run (Response 200 "OK" None :: map Chunk chunks) (EventSource u dict)) in *.
  clearbody s.
  assert (Hdis : timers (exec d s) = [reconnectInterval (vars s)]).
  { destruct (disconnect_exec d s Hs) as (_ & D & _).
    - rewrite Hr. discriminate.
    - destruct Hd as [->|[m ->]]; reflexivity.
    - destruct Hd as [->|[m ->]]; cbn [enabled]; [now rewrite Hst|reflexivity].
    - now rewrite D, Ht. }
  rewrite Hdis, Hint. unfold last_retry. rewrite fold_left_app. cbn [fold_left].
  split.
  - intros n Hn. now rewrite Hn.
  - intros Hn. now rewrite Hn.
Qed.

Lemma retry_sets_reconnect_interval_witness :
  let s := run [Response 200 "OK" None; Chunk (bytes "retry: 50"); Chunk (bytes "00" ++ [lineFeed])]
               (EventSource "http://h/" None) in
  reconnectInterval (vars s) = 5000 /\ timers (exec End s) = [5000].
Proof.
  cbv zeta.
  destruct (retry_sets_reconnect_interval "http://h/" None [] true "5000"
              [bytes "retry: 50"; bytes "00" ++ [lineFeed]] End) as [H _];
    [reflexivity|reflexivity|reflexivity|now left|].
  apply (H 5000). reflexivity.
Defined.

(** C9, the default: without a retry field the delay is 1000. *)
Lemma default_reconnect_interval :
  timers (run [Response 200 "OK" None; End] (EventSource "http://h/" None)) = [1000].
Proof. reflexivity. Qed.

End ConnSpec.

(** ** The parser: further properties *)

Module ParserProps.
Import Js Parser Lines Wire Expect ParserFacts CrFacts WireFacts.

(** *** The position of the loop stays inside the buffer *)

Lemma scan_done rest : forall pos i ll fl d,
  0 <= ll -> scan pos rest i ll fl d = (ll, fl, d).
Proof.
  destruct rest as [|c rest]; intros pos i ll fl d H; cbn [scan]; [reflexivity|].
  now rewrite (ltb_false ll 0) by lia.
Qed.

Lemma scan_bound rest : forall pos i ll fl d ll' fl' d',
  scan pos rest i ll fl d = (ll', fl', d') -> ll < 0 -> 0 <= ll' ->
  i <= ll' + pos < i + Z.of_nat (length rest).
Proof.
  induction rest as [|c rest IH]; intros pos i ll fl d ll' fl' d' E Hll Hll'; cbn [scan] in E.
  - injection E as -> _ _. lia.
  - rewrite (ltb_true ll 0) in E by lia. cbn [length]. rewrite Nat2Z.inj_succ.
    destruct (Byte.eqb c colon).
    { specialize (IH _ _ _ _ _ _ _ _ E Hll Hll'). lia. }
    destruct (Byte.eqb c carriageReturn).
    { destruct (Z.ltb_spec (i - pos) 0) as [Hn|Hp].
      - specialize (IH _ _ _ _ _ _ _ _ E Hn Hll'). lia.
      - rewrite scan_done in E by assumption. injection E as <- _ _. lia. }
    destruct (Byte.eqb c lineFeed).
    { destruct (Z.ltb_spec (i - pos) 0) as [Hn|Hp].
      - specialize (IH _ _ _ _ _ _ _ _ E Hn Hll'). lia.
      - rewrite scan_done in E by assumption. injection E as <- _ _. lia. }
    specialize (IH _ _ _ _ _ _ _ _ E Hll Hll'). lia.
Qed.

Lemma index_some_lt (b : Buffer) i c : is_code (index b i) c = true -> 0 <= i < Z.of_nat (length b).
Proof.
  unfold is_code, index. destruct (Z.ltb_spec i 0) as [|Hi]; [discriminate|].
  destruct (nth_error b (Z.to_nat i)) eqn:E; [|discriminate]. intros _.
  assert (Z.to_nat i < length b)%nat by (apply nth_error_Some; congruence). lia.
Qed.

Lemma loop_pos url b : forall fuel st st',
  while_loop fuel url b st = Some st' -> 0 <= l_pos st <= Z.of_nat (length b) ->
  l_pos st <= l_pos st' <= Z.of_nat (length b).
Proof.
  induction fuel as [|fuel IH]; intros st st' E Hp; [discriminate|].
  cbn [while_loop] in E.
  destruct (Z.ltb_spec (l_pos st) (Z.of_nat (length b))) as [Hlt|Hge];
    [|injection E as <-; lia].
  set (pos := if discardTrailingNewline (l_vars st)
              then (if is_code (index b (l_pos st)) lineFeed then l_pos st + 1 else l_pos st)
              else l_pos st) in *.
  assert (Hpos : l_pos st <= pos <= Z.of_nat (length b)).
  { unfold pos. destruct (discardTrailingNewline (l_vars st)); [|lia].
    destruct (is_code (index b (l_pos st)) lineFeed); lia. }
  match type of E with
  | context [scan ?p ?r ?i ?a ?f ?d] => destruct (scan p r i a f d) as [[ll fl] d'] eqn:Es
  end.
  destruct (Z.ltb_spec ll 0) as [Hneg|Hnn].
  - injection E as <-. cbn [l_pos]. lia.
  - apply IH in E; cbn [l_pos] in *.
    + lia.
    + apply scan_bound in Es; [|lia|assumption].
      rewrite length_skipn in Es. lia.
Qed.

(** X1.  The data handler returns on every chunk and in every state of
    the response; afterwards the first-call flag is off, and what it
    keeps for the next call is a suffix of the buffer it worked on, and
    is never an empty buffer: when all bytes are used nothing is
    kept. *)
Theorem handler_keeps_a_suffix url chunk s v :
  exists s' v' k,
    on_data url chunk s v = Some (s', v')
    /\ isFirst s' = false
    /\ (k <= length (received chunk s))%nat
    /\ buf s' = (if (k =? length (received chunk s))%nat then None
                 else Some (drop k (received chunk s))).
Proof.
  set (b := received chunk s). unfold on_data. cbv zeta.
  match goal with
  | |- context [while_loop (S (length ?B)) url ?B _] => change B with b
  end.
  destruct (while_loop_total url b (S (length b))
              (mkLoop 0 (startingPos s) (startingFieldLength s) v)) as (st & E);
    [cbn [l_pos]; lia|].
  rewrite E. pose proof (loop_pos url b _ _ _ E) as Hp. cbn [l_pos] in Hp.
  specialize (Hp ltac:(lia)).
  eexists _, _, (Z.to_nat (l_pos st)). split; [reflexivity|]. cbn [isFirst buf].
  split; [reflexivity|]. split; [lia|].
  destruct (Z.eqb_spec (l_pos st) (Z.of_nat (length b))) as [He|Hne].
  - rewrite He, Nat2Z.id, Nat.eqb_refl. reflexivity.
  - destruct (Nat.eqb_spec (Z.to_nat (l_pos st)) (length b)) as [Hx|_]; [lia|].
    destruct (Z.ltb_spec 0 (l_pos st)) as [Hgt|Hle].
    + rewrite <- (Z2Nat.id (l_pos st)) at 1 by lia. now rewrite slice_from_drop.
    + replace (l_pos st) with 0 by lia. reflexivity.
Qed.

(** *** The log only grows *)

Lemma type_of_truthy n : truthy_str (type_of n) = true.
Proof. destruct n as [[|c n]|]; reflexivity. Qed.

Lemma parse_log url b pos fl ll v :
  exists more,
    log (parseEventStreamLine url b pos fl ll v) = log v ++ more
    /\ forallb (is_message_for url) more = true.
Proof.
  unfold parseEventStreamLine.
  destruct (ll =? 0).
  - destruct (0 <? Z.of_nat (String.length (data v))); cbn.
    + eexists [_]. split; [reflexivity|]. cbn.
      now rewrite type_of_truthy, String.eqb_refl.
    + exists []. now rewrite app_nil_r.
  - exists []. rewrite app_nil_r. split; [|reflexivity].
    destruct (0 <? fl); [|reflexivity].
    repeat match goal with
           | |- context [if ?c then _ else _] => destruct c; try reflexivity
           | |- context [match parseInt ?x with _ => _ end] => destruct (parseInt x); try reflexivity
           end.
Qed.

Lemma loop_log url b : forall fuel st st',
  while_loop fuel url b st = Some st' ->
  exists more,
    log (l_vars st') = log (l_vars st) ++ more
    /\ forallb (is_message_for url) more = true.
Proof.
  induction fuel as [|fuel IH]; intros st st' E; [discriminate|].
  cbn [while_loop] in E.
  destruct (l_pos st <? Z.of_nat (length b));
    [|injection E as <-; exists []; now rewrite app_nil_r].
  match type of E with
  | context [scan ?p ?r ?i ?a ?f ?d] => destruct (scan p r i a f d) as [[ll fl] d'] eqn:Es
  end.
  assert (Hl : forall d0, log (set_discard d0 (if discardTrailingNewline (l_vars st)
                                                then set_discard false (l_vars st)
                                                else l_vars st)) = log (l_vars st)).
  { intros d0. now destruct (discardTrailingNewline (l_vars st)). }
  destruct (ll <? 0).
  - injection E as <-. cbn [l_vars]. rewrite Hl. exists []. now rewrite app_nil_r.
  - apply IH in E as (more & E & Hm). cbn [l_vars] in E.
    match type of E with
    | context [parseEventStreamLine ?u ?b ?p ?f ?l ?w] =>
        destruct (parse_log u b p f l w) as (m0 & E0 & Hm0)
    end.
    rewrite E0, Hl in E. exists (m0 ++ more). rewrite E, <- app_assoc. split; [reflexivity|].
    now rewrite forallb_app, Hm0, Hm.
Qed.

Lemma on_data_log url chunk s v s' v' :
  on_data url chunk s v = Some (s', v') ->
  exists more, log v' = log v ++ more /\ forallb (is_message_for url) more = true.
Proof.
  unfold on_data.
  match goal with
  | |- context [while_loop ?f ?u ?b ?l] => destruct (while_loop f u b l) as [st|] eqn:E
  end; [|discriminate].
  intros [= <- <-]. exact (loop_log _ _ _ _ _ E).
Qed.

(** X2.  Whatever bytes arrive and however they are cut, the data
    handler only appends to what has been emitted: nothing emitted
    before is changed or removed, and every event it adds is a message
    with a type that is not empty and the url of the client at that
    time as its origin; it emits no open and no error event. *)
Theorem handler_only_appends_messages url chunks : forall s v,
  exists s' v' more,
    feed url chunks s v = Some (s', v')
    /\ log v' = log v ++ more
    /\ forallb (is_message_for url) more = true.
Proof.
  induction chunks as [|c chunks IH]; intros s v; cbn [feed].
  - exists s, v, []. now rewrite app_nil_r.
  - destruct (on_data_total url c s v) as ([s1 v1] & E). rewrite E.
    destruct (on_data_log _ _ _ _ _ _ E) as (m1 & E1 & H1).
    destruct (IH s1 v1) as (s' & v' & m2 & F & E2 & H2).
    exists s', v', (m1 ++ m2). split; [exact F|].
    rewrite E2, E1, <- app_assoc. split; [reflexivity|].
    now rewrite forallb_app, H1, H2.
Qed.

(** *** The byte-order mark *)

Lemma strip_bom_eq c :
  strip_bom c = match c with
                | x :: y :: z :: rest =>
                    if Byte.eqb x xef && Byte.eqb y xbb && Byte.eqb z xbf then rest else c
                | _ => c
                end.
Proof.
  unfold strip_bom. rewrite hasBom_eq.
  destruct c as [|x [|y [|z rest]]]; try reflexivity.
Qed.

(** X3.  The byte-order mark is looked for by the first call of the
    data handler only, and in the bytes of the first chunk only: the
    first call behaves as a later call on the chunk less its mark.  One
    mark is removed, so a second one stays; a first chunk of fewer than
    three bytes is never taken to hold a mark; and a buffer holds a
    mark exactly when it starts with the three bytes. *)
Theorem first_chunk_decides_bom url c chunks v :
  feed url (c :: chunks) new_stream v = feed url (strip_bom c :: chunks) started v
  /\ strip_bom (bom ++ c) = c
  /\ strip_bom (firstn 2 c) = firstn 2 c
  /\ (hasBom c = true <-> exists rest, c = bom ++ rest).
Proof.
  split; [|split; [|split]].
  - cbn [feed]. now rewrite on_data_first.
  - reflexivity.
  - rewrite strip_bom_eq. now destruct c as [|x [|y [|z rest]]].
  - split.
    + intros H. destruct (hasBom_shape c H) as (rest & ->). now exists rest.
    + intros (rest & ->). reflexivity.
Qed.

(** *** Lines that are ignored *)

Lemma slice_take {A : Type} (l x : list A) (k : Z) :
  0 <= k <= Z.of_nat (length l) -> slice (l ++ x) 0 k = firstn (Z.to_nat k) l.
Proof.
  intros Hk. rewrite slice_app_l by lia. unfold slice.
  rewrite !clamp_in_range by lia. cbn [Z.to_nat drop]. now rewrite Z.sub_0_r.
Qed.

Lemma line_step_inert url v l : inert l = true -> line_step url v l = v.
Proof.
  intros H. destruct l as [|c l]; [discriminate|].
  set (l0 := c :: l) in *. unfold inert in H. fold l0 in H.
  change (match l0 with [] => false | _ :: _ =>
            (colon_index l0 <=? 0) || negb (known_field (name_of l0)) end = true) in H.
  assert (H' : (colon_index l0 <=? 0) || negb (known_field (name_of l0)) = true) by exact H.
  clear H. destruct (Z.leb_spec (colon_index l0) 0) as [Hle|Hgt].
  - apply line_step_no_colon; [assumption|discriminate].
  - cbn [orb] in H'. apply negb_true_iff in H'.
    unfold line_step, parseEventStreamLine.
    assert (Hlen : Z.of_nat (length l0) <> 0) by (unfold l0; cbn [length]; lia).
    destruct (Z.eqb_spec (Z.of_nat (length l0)) 0) as [|_]; [contradiction|].
    rewrite (ltb_true 0) by lia. rewrite (ltb_false (colon_index l0) 0) by lia.
    cbv zeta. pose proof (colon_index_range l0) as Hr.
    replace (0 + colon_index l0) with (colon_index l0) by lia.
    rewrite slice_take by lia. fold (name_of l0).
    unfold known_field in H'.
    apply orb_false_iff in H' as [H' H4]. apply orb_false_iff in H' as [H' H3].
    apply orb_false_iff in H' as [H1 H2].
    now rewrite H1, H2, H3, H4.
Qed.

Lemma fold_inert url ls : forall v,
  fold_left (line_step url) (List.filter (fun l => negb (inert l)) ls) v
  = fold_left (line_step url) ls v.
Proof.
  induction ls as [|l ls IH]; intros v; [reflexivity|]. cbn [List.filter fold_left].
  destruct (inert l) eqn:Hi; cbn [negb].
  - now rewrite line_step_inert.
  - cbn [fold_left]. apply IH.
Qed.

Lemma feed_lines url chunks ls v :
  forallb clean_line ls = true -> concat chunks = render_lines ls ->
  discardTrailingNewline v = false ->
  exists s', feed url chunks started v = Some (s', fold_left (line_step url) ls v).
Proof.
  intros Hc E Hd.
  destruct (feed_ok url chunks [] started v) as (s' & F & _);
    [exact stream_ok_start|reflexivity| |assumption|].
  - rewrite <- no_cr_concat, E, no_cr_render. now apply clean_no_cr.
  - exists s'. rewrite F. cbn [app]. rewrite E.
    pose proof (split_lf_render_app ls [] (clean_no_lf ls Hc)) as S.
    rewrite !app_nil_r in S. now rewrite S.
Qed.

(** X4.  In a stream of complete lines that end with a line feed, the
    lines that are neither blank nor a field with one of the names
    data, event, id and retry (comments, lines without a colon, fields
    with another name) can be left out: the stream with them and the
    stream without them, each cut into chunks in any way, leave the
    same parser variables and the same emitted events. *)
Theorem inert_lines_do_not_matter url ls chunks1 chunks2 v :
  forallb clean_line ls = true ->
  concat chunks1 = render_lines ls ->
  concat chunks2 = render_lines (List.filter (fun l => negb (inert l)) ls) ->
  discardTrailingNewline v = false ->
  exists s1 s2 v',
    feed url chunks1 started v = Some (s1, v')
    /\ feed url chunks2 started v = Some (s2, v').
Proof.
  intros Hc E1 E2 Hd.
  destruct (feed_lines url chunks1 ls v Hc E1 Hd) as (s1 & F1).
  destruct (feed_lines url chunks2 (List.filter (fun l => negb (inert l)) ls) v)
    as (s2 & F2); [|exact E2|assumption|].
  { apply forallb_forall. intros l Hl. apply filter_In in Hl as [Hl _].
    exact (proj1 (forallb_forall _ _) Hc l Hl). }
  exists s1, s2, (fold_left (line_step url) ls v). split; [exact F1|].
  now rewrite F2, fold_inert.
Qed.

Lemma inert_lines_do_not_matter_witness :
  let ls := [bytes "data: a"; bytes ": ping"; bytes "dataset: b"; bytes "data"; [];
             bytes "foo"; bytes "id: 3"; bytes "data:c"; bytes " id: 4"; []] in
  let s := render_lines ls in
  let t := render_lines (List.filter (fun l => negb (inert l)) ls) in
  t = bytes "data: a" ++ [lineFeed; lineFeed] ++ bytes "id: 3" ++ [lineFeed]
      ++ bytes "data:c" ++ [lineFeed; lineFeed]
  /\ exists s1 s2 v',
       feed "http://h/" [firstn 10 s; skipn 10 s] started (init_vars "") = Some (s1, v')
       /\ feed "http://h/" [t] started (init_vars "") = Some (s2, v').
Proof.
  split; [reflexivity|].
  apply (inert_lines_do_not_matter "http://h/"
           [bytes "data: a"; bytes ": ping"; bytes "dataset: b"; bytes "data"; [];
            bytes "foo"; bytes "id: 3"; bytes "data:c"; bytes " id: 4"; []]);
    [reflexivity| |reflexivity|reflexivity].
  cbn [concat]. rewrite app_nil_r. apply firstn_skipn.
Defined.

(** *** The messages of a well-formed stream *)

Lemma blocks_messages url blocks : forall v,
  forallb block_ok blocks = true -> data v = "" -> type_of (eventName v) = "message" ->
  let v' := fold_left (line_step url) (map line_bytes (concat (map block_lines blocks))) v in
  log v' = log v ++ messages url blocks (lastEventId v)
  /\ lastEventId v' = final_id blocks (lastEventId v)
  /\ data v' = "".
Proof.
  induction blocks as [|b blocks IH]; intros v Hbs Hd Ht.
  - cbn. now rewrite app_nil_r.
  - cbn [forallb] in Hbs. apply andb_true_iff in Hbs as [Hb Hbs].
    cbn [map concat]. cbv zeta. rewrite map_app, fold_left_app.
    destruct (block_step url b v Hb Hd Ht) as (Hd' & Hn' & Hlog').
    pose proof (fold_last_id url (block_lines b) v (block_lines_ok b Hb)) as Hid.
    assert (Hb' : last_id (block_lines b) (lastEventId v) = last_id b (lastEventId v)).
    { unfold last_id, block_lines. now rewrite fold_left_app. }
    rewrite Hb' in Hid.
    destruct (IH _ Hbs Hd') as (L & I & D); [now rewrite Hn'|].
    rewrite L, I, D, Hlog', Hid, <- app_assoc. cbn [messages final_id fold_left app].
    repeat split.
Qed.

(** X5.  The chunks of a well-formed stream of events, parsed by a
    response that starts with no pending data and no pending event
    name, append one message per block, in order; each message carries
    the type and the data of its block, the url of the client, and as
    its id the value of the last id field up to and including its
    block, which is the id left by earlier blocks or earlier responses
    when the stream has set none.  The id that remains is the one of
    the last message. *)
Theorem wellformed_stream_messages url v blocks chunks :
  forallb block_ok blocks = true -> concat chunks = wire blocks ->
  data v = "" -> type_of (eventName v) = "message" -> discardTrailingNewline v = false ->
  exists s' v',
    feed url chunks new_stream v = Some (s', v')
    /\ log v' = log v ++ messages url blocks (lastEventId v)
    /\ lastEventId v' = final_id blocks (lastEventId v)
    /\ data v' = "".
Proof.
  intros Hb E Hd Ht Hdis.
  destruct (feed_wire url chunks (concat (map block_lines blocks)) v)
    as (st & F); [now apply blocks_ok|exact E|exact Hdis|].
  exists st. eexists. split; [exact F|].
  exact (blocks_messages url blocks v Hb Hd Ht).
Qed.

Lemma wellformed_stream_messages_witness :
  let blocks := [[FId true "1"; FData true "a"]; [FData false "b"];
                 [FEvent true "tick"; FData true "c"; FId false "2"]] in
  let v := mkVars false "" None "0" 1000 [EOpen] in
  let chunks := [firstn 7 (wire blocks); skipn 7 (wire blocks)] in
  messages "http://h/" blocks "0"
  = [EMessage "message" "a" "1" "http://h/"; EMessage "message" "b" "1" "http://h/";
     EMessage "tick" "c" "2" "http://h/"]
  /\ exists s' v',
       feed "http://h/" chunks new_stream v = Some (s', v')
       /\ log v' = log v ++ messages "http://h/" blocks (lastEventId v)
       /\ lastEventId v' = final_id blocks (lastEventId v)
       /\ data v' = "".
Proof.
  split; [reflexivity|].
  apply (wellformed_stream_messages "http://h/" (mkVars false "" None "0" 1000 [EOpen])
           [[FId true "1"; FData true "a"]; [FData false "b"];
            [FEvent true "tick"; FData true "c"; FId false "2"]]);
    [reflexivity| |reflexivity|reflexivity|reflexivity].
  cbn [concat]. rewrite app_nil_r. apply firstn_skipn.
Defined.

(** *** Carriage returns as line ends *)

Lemma feed_cr_started url chunks v :
  lf_after_cr false (concat chunks) = true -> discardTrailingNewline v = false ->
  exists s' v',
    feed url chunks started v = Some (s', v')
    /\ set_discard false v'
       = fold_left (line_step url) (fst (split_lf (norm false (concat chunks)))) v.
Proof.
  intros Hx Hd.
  destruct (feed_cr url chunks [] started v false stream_ok_start eq_refl) as (s' & d' & F);
    [congruence|assumption|discriminate|].
  cbn [app] in F. eexists _, _. split; [exact F|].
  rewrite set_discard_twice.
  set (w := fold_left (line_step url) (fst (split_lf (norm false (concat chunks)))) v).
  assert (Hw : discardTrailingNewline w = false) by (unfold w; now rewrite fold_discard).
  rewrite <- Hw at 1. apply set_discard_same.
Qed.

(** X20.  A stream in which every line feed directly follows a
    carriage return, so that its lines end with a carriage return or
    with a carriage return and a line feed, is read as the same stream
    with a single line feed for each line end: however it is cut into
    chunks, between the two bytes of a line end as well, the parser
    variables and the emitted events are those that the line function
    gives on the complete lines, one after the other.  Only the discard
    flag may differ at the end. *)
Theorem carriage_return_line_ends url chunks v :
  lf_after_cr false (concat chunks) = true -> discardTrailingNewline v = false ->
  exists s' v',
    feed url chunks started v = Some (s', v')
    /\ set_discard false v'
       = fold_left (line_step url) (fst (split_lf (norm false (concat chunks)))) v.
Proof.
  intros Hx Hd.
  destruct (feed_cr url chunks [] started v false stream_ok_start eq_refl) as (s' & d' & F);
    [congruence|assumption|discriminate|].
  cbn [app] in F. eexists _, _. split; [exact F|].
  rewrite set_discard_twice.
  set (w := fold_left (line_step url) (fst (split_lf (norm false (concat chunks)))) v).
  assert (Hw : discardTrailingNewline w = false) by (unfold w; now rewrite fold_discard).
  rewrite <- Hw at 1. apply set_discard_same.
Qed.

Lemma carriage_return_line_ends_witness :
  let chunks := [bytes "id: 1" ++ [carriageReturn; lineFeed] ++ bytes "data: a" ++ [carriageReturn];
                 [lineFeed; carriageReturn]; lineFeed :: bytes "data: b" ++ [carriageReturn];
                 carriageReturn :: bytes "data"] in
  fst (split_lf (norm false (concat chunks)))
  = [bytes "id: 1"; bytes "data: a"; []; bytes "data: b"; []]
  /\ exists s' v',
       feed "http://h/" chunks started (init_vars "") = Some (s', v')
       /\ set_discard false v'
          = fold_left (line_step "http://h/") (fst (split_lf (norm false (concat chunks))))
                      (init_vars "").
Proof.
  split; [reflexivity|].
  apply (carriage_return_line_ends "http://h/"
           [bytes "id: 1" ++ [carriageReturn; lineFeed] ++ bytes "data: a" ++ [carriageReturn];
            [lineFeed; carriageReturn]; lineFeed :: bytes "data: b" ++ [carriageReturn];
            carriageReturn :: bytes "data"]);
    reflexivity.
Defined.

Lemma cr_start l y : forall p,
  clean_line l = true ->
  lf_after_cr p (l ++ carriageReturn :: y) = lf_after_cr true y
  /\ norm p (l ++ carriageReturn :: y) = l ++ lineFeed :: norm true y.
Proof.
  intros p Hl. destruct l as [|c l'].
  - split; reflexivity.
  - pose proof Hl as Hl0. apply clean_line_cons in Hl as (Hc & Hf & Hl).
    cbn [app lf_after_cr norm]. rewrite Hc, Hf.
    rewrite lf_after_cr_clean, norm_clean by assumption. split; reflexivity.
Qed.

Lemma render_with_reading ls : forall p,
  forallb clean_line (map fst ls) = true ->
  lf_after_cr p (render_with ls) = true
  /\ norm p (render_with ls) = render_lines (map fst ls).
Proof.
  induction ls as [|[l e] ls IH]; intros p H; [split; reflexivity|].
  cbn [map fst forallb] in H. apply andb_true_iff in H as [Hl Hls].
  cbn [render_with map fst]. rewrite render_lines_cons.
  destruct e; cbn [end_bytes app].
  - destruct (cr_start l (render_with ls) p Hl) as (-> & ->).
    destruct (IH true Hls) as (-> & ->). split; reflexivity.
  - destruct (cr_start l (lineFeed :: render_with ls) p Hl) as (-> & ->).
    cbn [lf_after_cr norm]. change (Byte.eqb lineFeed lineFeed) with true.
    change (Byte.eqb lineFeed carriageReturn) with false. cbv iota. cbn [andb].
    destruct (IH false Hls) as (-> & ->). split; reflexivity.
Qed.

(** X21.  Lines that end with a carriage return, or with a carriage
    return and a line feed, the two kinds mixed at will, are parsed as
    the same lines ending with a line feed: the two streams, each cut
    into chunks in any way, leave the same parser variables and the
    same emitted events, up to the discard flag. *)
Theorem line_ends_are_equivalent url ls chunks1 chunks2 v :
  forallb clean_line (map fst ls) = true ->
  concat chunks1 = render_with ls ->
  concat chunks2 = render_lines (map fst ls) ->
  discardTrailingNewline v = false ->
  exists s1 s2 v1 v2,
    feed url chunks1 started v = Some (s1, v1)
    /\ feed url chunks2 started v = Some (s2, v2)
    /\ set_discard false v1 = v2
    /\ log v1 = log v2.
Proof.
  intros Hc E1 E2 Hd.
  destruct (render_with_reading ls false Hc) as (Hx & Hn).
  destruct (feed_cr_started url chunks1 v) as (s1 & v1 & F1 & R1);
    [now rewrite E1|assumption|].
  destruct (feed_lines url chunks2 (map fst ls) v Hc E2 Hd) as (s2 & F2).
  exists s1, s2, v1, (fold_left (line_step url) (map fst ls) v).
  rewrite E1, Hn in R1.
  pose proof (split_lf_render_app (map fst ls) [] (clean_no_lf _ Hc)) as S.
  rewrite !app_nil_r in S. rewrite S in R1. cbn [fst] in R1.
  repeat split; try assumption. now rewrite <- R1.
Qed.

Lemma line_ends_are_equivalent_witness :
  let ls := [(bytes "event: e", EndCRLF); (bytes "data: a", EndCR); ([], EndCR);
             (bytes ": c", EndCRLF); (bytes "data: b", EndCRLF); ([], EndCRLF)] in
  let s := render_with ls in
  let t := render_lines (map fst ls) in
  exists s1 s2 v1 v2,
    feed "http://h/" [firstn 10 s; firstn 10 (skipn 10 s); skipn 20 s] started (init_vars "")
    = Some (s1, v1)
    /\ feed "http://h/" [t] started (init_vars "") = Some (s2, v2)
    /\ set_discard false v1 = v2
    /\ log v1 = log v2.
Proof.
  apply (line_ends_are_equivalent "http://h/"
           [(bytes "event: e", EndCRLF); (bytes "data: a", EndCR); ([], EndCR);
            (bytes ": c", EndCRLF); (bytes "data: b", EndCRLF); ([], EndCRLF)]);
    reflexivity.
Defined.

(** *** Bytes after the last line end *)

(** X22.  In a stream without carriage returns, the bytes that follow
    the last line feed change neither the parser variables nor what is
    emitted, whatever they are: a line is dispatched when its line feed
    arrives, and a last line without one stays in the buffer of the
    response. *)
Theorem incomplete_line_is_not_dispatched url chunks tail v :
  no_cr (concat chunks) = true -> clean_line tail = true ->
  discardTrailingNewline v = false ->
  exists s1 s2 v',
    feed url chunks started v = Some (s1, v')
    /\ feed url (chunks ++ [tail]) started v = Some (s2, v')
    /\ buf s2 = match snd (split_lf (concat chunks)) ++ tail with
                | [] => None
                | r => Some r
                end.
Proof.
  intros Hc Ht Hd.
  destruct (feed_ok url chunks [] started v) as (s1 & F1 & _);
    [exact stream_ok_start|reflexivity|now rewrite <- no_cr_concat|assumption|].
  destruct (feed_ok url (chunks ++ [tail]) [] started v) as (s2 & F2 & Hok);
    [exact stream_ok_start|reflexivity| |assumption|].
  { rewrite forallb_app, <- no_cr_concat, Hc. cbn [forallb].
    unfold clean_line in Ht. now apply andb_true_iff in Ht as [-> _]. }
  cbn [app] in *. rewrite concat_app in F2, Hok. cbn [concat] in F2, Hok.
  rewrite app_nil_r in F2, Hok. rewrite split_lf_app in F2, Hok. cbn [fst snd] in F2, Hok.
  assert (Hrem : no_lf (snd (split_lf (concat chunks)) ++ tail) = true).
  { rewrite no_lf_app. destruct (split_lf_render (concat chunks)) as (_ & _ & ->).
    unfold clean_line in Ht. now apply andb_true_iff in Ht as [_ ->]. }
  rewrite (split_lf_no_lf _ Hrem) in F2, Hok. cbn [fst snd] in F2, Hok.
  rewrite app_nil_r in F2.
  exists s1, s2, (fold_left (line_step url) (fst (split_lf (concat chunks))) v).
  split; [exact F1|]. split; [exact F2|].
  destruct Hok as (_ & -> & _). now destruct (snd (split_lf (concat chunks)) ++ tail).
Qed.

Lemma incomplete_line_is_not_dispatched_witness :
  let chunks := [bytes "data: a" ++ [lineFeed; lineFeed] ++ bytes "da"; bytes "ta: b"] in
  exists s1 s2 v',
    feed "http://h/" chunks started (init_vars "") = Some (s1, v')
    /\ feed "http://h/" (chunks ++ [bytes "c"]) started (init_vars "") = Some (s2, v')
    /\ buf s2 = Some (bytes "data: bc").
Proof.
  apply (incomplete_line_is_not_dispatched "http://h/"
           [bytes "data: a" ++ [lineFeed; lineFeed] ++ bytes "da"; bytes "ta: b"] (bytes "c"));
    reflexivity.
Defined.

(** *** Blocks without data *)

(** X24.  A block of field lines that holds no data field, closed by a
    blank line, emits nothing: the blank line only clears the pending
    event name.  The id and the retry interval that the block gives are
    kept all the same. *)
Theorem block_without_data_emits_nothing url v b chunks :
  forallb field_ok b = true -> data_values b = [] ->
  concat chunks = stream_of (block_lines b) ->
  data v = "" -> discardTrailingNewline v = false ->
  exists s' v',
    feed url chunks new_stream v = Some (s', v')
    /\ log v' = log v /\ data v' = "" /\ eventName v' = None
    /\ lastEventId v' = last_id b (lastEventId v)
    /\ reconnectInterval v' = last_retry b (reconnectInterval v).
Proof.
  intros Hf Hv E Hd Hdis.
  assert (Hl : forallb line_ok (block_lines b) = true).
  { unfold block_lines. rewrite forallb_app. cbn [forallb line_ok].
    now rewrite (fields_ok_lines_ok b Hf). }
  destruct (feed_wire url chunks (block_lines b) v Hl E Hdis) as (s' & F).
  exists s'. eexists. split; [exact F|].
  unfold block_lines. rewrite map_app, fold_left_app. cbn [map fold_left line_bytes].
  destruct (fold_fields url b v Hf) as (Hd' & _ & Hlog').
  pose proof (fold_last_id url b v (fields_ok_lines_ok b Hf)) as Hid.
  pose proof (fold_last_retry url b v (fields_ok_lines_ok b Hf)) as Hre.
  set (w := fold_left (line_step url) (map line_bytes b) v) in *.
  rewrite Hv, Hd in Hd'. cbn [lines_nl] in Hd'.
  rewrite line_step_blank, Hd'. cbn [String.length Z.of_nat Z.ltb Z.compare].
  cbn [log data eventName lastEventId reconnectInterval set_eventName].
  now repeat split.
Qed.

Lemma block_without_data_emits_nothing_witness :
  let b := [FEvent true "tick"; FId true "12"; FRetry false "300"] in
  let s := stream_of (block_lines b) in
  exists s' v',
    feed "http://h/" [firstn 4 s; skipn 4 s] new_stream (init_vars "") = Some (s', v')
    /\ log v' = [] /\ data v' = "" /\ eventName v' = None
    /\ lastEventId v' = "12" /\ reconnectInterval v' = 300.
Proof.
  apply (block_without_data_emits_nothing "http://h/" (init_vars "")
           [FEvent true "tick"; FId true "12"; FRetry false "300"]);
    reflexivity.
Defined.

End ParserProps.

(** ** The connection manager: further properties *)

Module ConnProps.
Import Js Parser Lines Wire Expect Conn Flow ParserFacts WireFacts ConnFacts ParserProps.

Lemma enabled_response_open s status msg loc :
  settled s -> enabled (Response status msg loc) s = true -> readyState s <> CLOSED.
Proof.
  intros [_ Hc] He E. cbn [enabled] in He. rewrite (Hc E) in He. discriminate.
Qed.

(** X6.  When a connection is reported closed to a client that is
    not closed (by a response with status 500, 502, 503 or 504, by the
    end of a response, or by an error of the request), the client
    becomes connecting, one timer is added, set to the reconnect
    interval of that moment, and no request is issued by the callback
    itself.  An error event without status is emitted, with the message
    of the error of the request when there is one; after a response
    with one of the four statuses it comes second, after an error event
    with the status and its message.  The parser variables are left as
    they were. *)
Theorem disconnect_schedules_reconnect s d :
  settled s -> readyState s <> CLOSED -> is_disconnect d = true -> enabled d s = true ->
  let s' := exec d s in
  log (vars s') = log (vars s) ++ disconnect_errors d
  /\ readyState s' = CONNECTING
  /\ timers s' = timers s ++ [reconnectInterval (vars s)]
  /\ requests s' = requests s
  /\ parser_state (vars s') = parser_state (vars s).
Proof.
  destruct s as [rs u cip ru dict v str reqs tms tks].
  unfold settled. cbn [ticks readyState]. intros [-> Hc] Hn Hd He.
  cbv zeta. unfold exec. rewrite He.
  destruct d; try discriminate; cbn [handle is_disconnect disconnect_errors] in *.
  - unfold on_response. rewrite Hd. unfold onConnectionClosed. cbn.
    destruct rs; try congruence; cbn;
      destruct ru as [x|]; try destruct (truthy_str x); cbn;
      rewrite <- app_assoc; now repeat split.
  - unfold on_end, onConnectionClosed. cbn.
    destruct rs; try congruence; cbn;
      destruct ru as [x|]; try destruct (truthy_str x); cbn; now repeat split.
  - unfold on_req_error, onConnectionClosed. cbn.
    destruct rs; try congruence; cbn;
      destruct ru as [x|]; try destruct (truthy_str x); cbn; now repeat split.
Qed.

Lemma disconnect_schedules_reconnect_witness :
  let s := run [Response 200 "OK" None; Chunk (bytes "retry: 250" ++ [lineFeed]); End; TimerFire 0]
               (EventSource "http://h/" None) in
  let s' := exec (Response 503 "Service Unavailable" None) s in
  log (vars s') = log (vars s) ++ [EError (Some 503) (Some "Service Unavailable"); EError None None]
  /\ readyState s' = CONNECTING
  /\ timers s' = [250]
  /\ requests s' = requests s
  /\ parser_state (vars s') = parser_state (vars s).
Proof.
  apply (disconnect_schedules_reconnect
           (run [Response 200 "OK" None; Chunk (bytes "retry: 250" ++ [lineFeed]); End; TimerFire 0]
                (EventSource "http://h/" None))
           (Response 503 "Service Unavailable" None));
    [split; [reflexivity|discriminate]|discriminate|reflexivity|reflexivity].
Defined.

Lemma issued_abort s : issued (abort_req s) = issued s.
Proof.
  unfold issued, abort_req. destruct (rev (requests s)) as [|r older] eqn:E; [reflexivity|].
  cbn [requests set_requests].
  rewrite <- (rev_involutive (requests s)), E. cbn [rev].
  now rewrite !map_app.
Qed.



(** *** The parser variables between responses *)

Lemma parser_state_exec e s :
  is_chunk e = false -> parser_state (vars (exec e s)) = parser_state (vars s).
Proof.
  intros Hc. unfold exec. destruct (enabled e s); [|reflexivity].
  destruct (drain_frame (ticks (handle e s)) (set_ticks 0 (handle e s)))
    as (_ & _ & _ & -> & _).
  cbn [vars set_ticks].
  destruct s as [rs u cip ru dict v str reqs tms tks].
  destruct e; try discriminate; cbn [handle].
  - unfold on_response, onConnectionClosed, _close, abort_req. cbn -[status_in Z.eqb].
    repeat match goal with
           | |- context [status_in ?a ?b] => destruct (status_in a b)
           | |- context [negb (status =? 200)] => destruct (negb (status =? 200))
           | |- context [status =? 307] => destruct (status =? 307)
           | |- context [is_closed rs] => destruct rs; cbn
           | |- context [match location with _ => _ end] => destruct location as [target|]; cbn
           | |- context [truthy_str ?x] => destruct (truthy_str x); cbn
           | |- context [match ru with _ => _ end] => destruct ru as [ru'|]; cbn
           | |- context [rev reqs] => destruct (rev reqs); cbn
           end; reflexivity.
  - unfold on_end, onConnectionClosed. cbn.
    destruct rs; cbn; try reflexivity;
      destruct ru as [x|]; try destruct (truthy_str x); reflexivity.
  - unfold on_req_error, onConnectionClosed. cbn.
    destruct rs; cbn; try reflexivity;
      destruct ru as [x|]; try destruct (truthy_str x); reflexivity.
  - unfold on_timer. cbn. destruct rs; cbn; try destruct cip; reflexivity.
  - unfold _close, abort_req. cbn. destruct rs; cbn; try reflexivity;
      destruct (rev reqs); reflexivity.
Qed.

(** X8.  The callbacks other than the data handler (responses of any
    status, the end of a response, errors of the request, timers and
    [close()]) change of the parser variables only the log: the pending
    data, the pending event name, the last event id, the reconnect
    interval and the discard flag go from one response to the next as
    they are.  A response that ends in the middle of an event leaves
    the data of its fields pending for the next response. *)
Theorem connection_events_keep_parser_state es : forall s,
  forallb (fun e => negb (is_chunk e)) es = true ->
  parser_state (vars (run es s)) = parser_state (vars s).
Proof.
  unfold run. induction es as [|e es IH]; intros s H; [reflexivity|].
  cbn [forallb] in H. apply andb_true_iff in H as [He H]. apply negb_true_iff in He.
  cbn [fold_left]. rewrite IH by assumption. now apply parser_state_exec.
Qed.

Lemma connection_events_keep_parser_state_witness :
  let s := run [Response 200 "OK" None;
                Chunk (bytes "id: 7" ++ [lineFeed] ++ bytes "event: e" ++ [lineFeed]
                       ++ bytes "data: x" ++ [lineFeed])]
               (EventSource "http://h/" None) in
  let es := [End; TimerFire 0; Response 503 "Service Unavailable" None; ReqError "reset";
             TimerFire 0; Response 200 "OK" None] in
  parser_state (vars s) = (false, String.append "x" nl, Some "e", "7", 1000)
  /\ parser_state (vars (run es s)) = parser_state (vars s).
Proof.
  split; [reflexivity|].
  apply (connection_events_keep_parser_state
           [End; TimerFire 0; Response 503 "Service Unavailable" None; ReqError "reset";
            TimerFire 0; Response 200 "OK" None]).
  reflexivity.
Defined.

(** *** Timers *)

Lemma timer_in_progress k s :
  ticks s = 0%nat -> connectionInProgress s = true ->
  requests (exec (TimerFire k) s) = requests s
  /\ ticks (exec (TimerFire k) s) = 0%nat
  /\ connectionInProgress (exec (TimerFire k) s) = true.
Proof.
  intros Ht Hc. unfold exec. destruct (enabled (TimerFire k) s); [|now repeat split].
  cbn [handle]. unfold on_timer. cbn [readyState connectionInProgress set_timers].
  rewrite Hc, orb_true_r. cbn [ticks set_timers]. rewrite Ht. cbn [drain].
  now repeat split.
Qed.

Lemma timers_in_progress ks : forall s,
  ticks s = 0%nat -> connectionInProgress s = true ->
  requests (run (map TimerFire ks) s) = requests s.
Proof.
  unfold run. induction ks as [|k ks IH]; intros s Ht Hc; [reflexivity|].
  cbn [map fold_left]. destruct (timer_in_progress k s Ht Hc) as (H1 & H2 & H3).
  now rewrite IH.
Qed.

(** X9.  A timer that fires while the client is connecting and no
    connection is in progress issues exactly one request, to the url of
    that moment and with the last event id as its [Last-Event-ID]
    header unless the caller's headers give one, and marks a connection
    as in progress; the timers that fire after it, before a response or
    an error of the request arrives, issue no request.  So two
    disconnections reported for one response lead to one
    reconnection. *)
Theorem one_reconnect_per_disconnect s k ks :
  ticks s = 0%nat -> readyState s = CONNECTING -> connectionInProgress s = false ->
  (k < length (timers s))%nat ->
  let s1 := exec (TimerFire k) s in
  (exists o, requests s1 = requests s ++ [mkRequest o false]
             /\ o_url o = url s
             /\ o_headers o = (match eventSourceInitDict s with
                               | Some d => match headers d with
                                           | Some h => merge_headers h
                                           | None => fun x => x
                                           end
                               | None => fun x => x
                               end) (own_headers (lastEventId (vars s))))
  /\ connectionInProgress s1 = true
  /\ timers s1 = remove_nth k (timers s)
  /\ requests (run (map TimerFire ks) s1) = requests s1.
Proof.
  intros Ht Hr Hc Hk. cbv zeta.
  assert (E : exec (TimerFire k) s
              = connect (set_connectionInProgress true
                           (set_timers (remove_nth k (timers s)) s))).
  { rewrite exec_handle.
    - cbn [handle]. unfold on_timer. cbn [readyState connectionInProgress set_timers].
      now rewrite Hr, Hc.
    - cbn [enabled]. now apply Nat.ltb_lt.
    - cbn [handle]. unfold on_timer. cbn [readyState connectionInProgress set_timers].
      rewrite Hr, Hc. exact Ht. }
  rewrite E. split; [|split; [reflexivity|split; [reflexivity|]]].
  - eexists. split; [reflexivity|]. split; [reflexivity|].
    unfold build_options. cbn [o_headers eventSourceInitDict vars set_connectionInProgress
                               set_timers].
    destruct (eventSourceInitDict s) as [d|]; [destruct (headers d)|]; reflexivity.
  - apply timers_in_progress; [exact Ht|reflexivity].
Qed.

Lemma one_reconnect_per_disconnect_witness :
  let s := run [Response 200 "OK" None; Chunk (bytes "id: 9" ++ [lineFeed]); End;
                ReqError "socket hang up"]
               (EventSource "http://h/" None) in
  let s1 := exec (TimerFire 0) s in
  timers s = [1000; 1000]
  /\ (exists o, requests s1 = requests s ++ [mkRequest o false]
                /\ o_url o = "http://h/"
                /\ o_headers o = own_headers "9")
  /\ connectionInProgress s1 = true
  /\ timers s1 = [1000]
  /\ requests (run (map TimerFire [0%nat]) s1) = requests s1.
Proof.
  split; [reflexivity|].
  apply (one_reconnect_per_disconnect
           (run [Response 200 "OK" None; Chunk (bytes "id: 9" ++ [lineFeed]); End;
                 ReqError "socket hang up"]
                (EventSource "http://h/" None)) 0%nat [0%nat]);
    [reflexivity|reflexivity|reflexivity|vm_compute; lia].
Defined.

(** *** Redirects that are not temporary *)

(** X10.  A response with status 301 or 302 and a location makes the
    location the url of the client, issues a request to it at once,
    emits no event and does not record the former url; when the client
    has no url to go back to, the disconnection that follows keeps the
    location, so that the reconnection goes to it as well. *)
Theorem permanent_redirect s status target msg mid d :
  settled s -> enabled (Response status msg (Some target)) s = true ->
  status_in status [301; 302] = true -> target <> "" ->
  let s1 := exec (Response status msg (Some target)) s in
  url s1 = target /\ reconnectUrl s1 = reconnectUrl s
  /\ timers s1 = timers s /\ readyState s1 = readyState s
  /\ log (vars s1) = log (vars s)
  /\ (exists o, requests s1 = requests s ++ [mkRequest o false] /\ o_url o = target)
  /\ (reconnectUrl s = None -> forallb is_reading mid = true -> is_disconnect d = true ->
      enabled d (run mid s1) = true ->
      let s2 := exec d (run mid s1) in
      url s2 = target /\ readyState s2 = CONNECTING
      /\ timers s2 = timers s ++ [reconnectInterval (vars (run mid s1))]).
Proof.
  intros Hs He Hst Ht. pose proof (enabled_response_open s status msg (Some target) Hs He) as Hn.
  pose proof (settled_exec (Response status msg (Some target)) s Hs) as Hs1.
  cbv zeta.
  assert (H307 : (status =? 307) = false).
  { unfold status_in in Hst. cbn [existsb] in Hst.
    destruct (Z.eqb_spec status 301); [subst; reflexivity|].
    destruct (Z.eqb_spec status 302); [subst; reflexivity|discriminate]. }
  assert (H5 : status_in status [500; 502; 503; 504] = false).
  { unfold status_in in *. cbn [existsb] in *.
    destruct (Z.eqb_spec status 301); [subst; reflexivity|].
    destruct (Z.eqb_spec status 302); [subst; reflexivity|discriminate]. }
  assert (H3 : status_in status [301; 302; 307] = true).
  { unfold status_in in *. cbn [existsb] in *.
    destruct (status =? 301); [reflexivity|]. destruct (status =? 302); [reflexivity|].
    discriminate. }
  assert (Htt : truthy_str target = true) by (destruct target; [congruence|reflexivity]).
  assert (E : exec (Response status msg (Some target)) s
              = connect (set_url target (set_connectionInProgress false s))).
  { unfold exec. rewrite He. cbn [handle]. unfold on_response.
    rewrite H5, H3, Htt, H307. destruct Hs as [Hk _].
    cbn [ticks set_ticks set_url set_connectionInProgress]. rewrite Hk. cbn [drain].
    destruct s. cbn in *. now subst. }
  rewrite E in *.
  split; [reflexivity|]. split; [reflexivity|]. split; [reflexivity|].
  split; [reflexivity|]. split; [reflexivity|].
  split; [eexists; split; reflexivity|].
  intros Hru Hmid Hd Hed.
  set (s1 := connect (set_url target (set_connectionInProgress false s))) in *.
  assert (Hn1 : readyState s1 <> CLOSED) by exact Hn.
  destruct (reading_run mid s1 Hs1 Hn1 Hmid) as (Hsm & Hnm & Hum & Hrm & Htm).
  destruct (disconnect_exec d (run mid s1) Hsm Hnm Hd Hed) as (D1 & D2 & _ & D4).
  rewrite Hrm in D4. change (reconnectUrl s1) with (reconnectUrl s) in D4.
  rewrite Hru in D4. destruct D4 as [D4 _].
  rewrite D4, Hum, D1, D2, Htm. now repeat split.
Qed.

Lemma permanent_redirect_witness :
  let s := EventSource "http://h/a" None in
  let s1 := exec (Response 301 "Moved Permanently" (Some "http://h/b")) s in
  let mid := [Response 200 "OK" None; Chunk (bytes "data: x" ++ [lineFeed; lineFeed])] in
  url s1 = "http://h/b" /\ reconnectUrl s1 = None
  /\ timers s1 = [] /\ readyState s1 = CONNECTING
  /\ log (vars s1) = []
  /\ (exists o, requests s1 = requests s ++ [mkRequest o false] /\ o_url o = "http://h/b")
  /\ (let s2 := exec End (run mid s1) in
      url s2 = "http://h/b" /\ readyState s2 = CONNECTING /\ timers s2 = [1000]).
Proof.
  destruct (permanent_redirect (EventSource "http://h/a" None) 301 "http://h/b"
              "Moved Permanently"
              [Response 200 "OK" None; Chunk (bytes "data: x" ++ [lineFeed; lineFeed])] End)
    as (H1 & H2 & H3 & H4 & H5 & H6 & H7);
    [split; [reflexivity|discriminate]|reflexivity|reflexivity|discriminate|].
  repeat (split; [assumption|]).
  apply H7; reflexivity.
Defined.

(** *** The first request *)



(** *** What a callback can add *)

Lemma issued_drain n : forall s,
  exists reqs, issued (drain n s) = issued s ++ reqs /\ length reqs = n.
Proof.
  induction n as [|n IH]; intros s; cbn [drain].
  - exists []. now rewrite app_nil_r.
  - destruct (IH (connect s)) as (reqs & E & L). rewrite E.
    unfold issued, connect. cbn [requests set_requests]. rewrite map_app, <- app_assoc.
    eexists. split; [reflexivity|]. cbn [map app length]. now rewrite L.
Qed.

Lemma exec_adds e s :
  ticks s = 0%nat ->
  exists more reqs,
    log (vars (exec e s)) = log (vars s) ++ more
    /\ issued (exec e s) = issued s ++ reqs
    /\ (length reqs <= 1)%nat.
Proof.
  intros Ht. unfold exec. destruct (enabled e s);
    [|exists [], []; rewrite !app_nil_r; repeat split; cbn; lia].
  destruct (drain_frame (ticks (handle e s)) (set_ticks 0 (handle e s)))
    as (_ & _ & _ & -> & _).
  destruct (issued_drain (ticks (handle e s)) (set_ticks 0 (handle e s))) as (rq & -> & Lq).
  cbn [vars set_ticks]. change (issued (set_ticks 0 ?x)) with (issued x).
  assert (H : exists more reqs,
             log (vars (handle e s)) = log (vars s) ++ more
             /\ issued (handle e s) = issued s ++ reqs
             /\ (length reqs + ticks (handle e s) <= 1)%nat).
  { destruct e; cbn [handle].
    - (* the response callback *)
      exists (skipn (length (log (vars s))) (log (vars (on_response status statusMessage location s)))), [].
      rewrite app_nil_r.
      destruct s as [rs u cip ru dict v str reqs tms tks]. cbn [ticks] in Ht. subst tks.
      unfold on_response, onConnectionClosed, _close. cbn -[status_in Z.eqb skipn].
      repeat match goal with
             | |- context [status_in ?a ?b] => destruct (status_in a b)
             | |- context [negb (status =? 200)] => destruct (negb (status =? 200))
             | |- context [status =? 307] => destruct (status =? 307)
             | |- context [is_closed rs] => destruct rs; cbn -[skipn]
             | |- context [match location with _ => _ end] =>
                 destruct location as [target|]; cbn -[skipn]
             | |- context [truthy_str ?x] => destruct (truthy_str x); cbn -[skipn]
             | |- context [match ru with _ => _ end] => destruct ru as [ru'|]; cbn -[skipn]
             end.
      all: try rewrite issued_abort; try rewrite ticks_abort.
      all: cbn -[skipn].
      all: try rewrite <- !app_assoc.
      all: rewrite ?drop_app_length, ?drop_all; rewrite ?app_nil_r.
      all: repeat split; try reflexivity; try lia.
      all: unfold abort_req; cbn; destruct (rev reqs); cbn.
      all: rewrite ?drop_app_length; reflexivity.
    - (* a chunk *)
      unfold on_chunk. destruct (stream s) as [st|];
        [|exists [], []; rewrite !app_nil_r; repeat split; cbn; lia].
      destruct (on_data (url s) chunk st (vars s)) as [[st' v']|] eqn:E;
        [|exists [], []; rewrite !app_nil_r; repeat split; cbn; lia].
      destruct (on_data_log _ _ _ _ _ _ E) as (more & Hm & _).
      exists more, []. rewrite app_nil_r. cbn. rewrite Ht. repeat split; [assumption|lia].
    - (* the end of the response *)
      destruct s as [rs u cip ru dict v str reqs tms tks]. cbn [ticks] in Ht. subst tks.
      unfold on_end, onConnectionClosed. cbn.
      destruct rs; cbn; try (destruct ru as [x|]; [destruct (truthy_str x)|]; cbn).
      all: first [ exists [EError None None], []; rewrite app_nil_r; repeat split; cbn; lia
                 | exists [], []; rewrite !app_nil_r; repeat split; cbn; lia ].
    - (* an error of the request *)
      destruct s as [rs u cip ru dict v str reqs tms tks]. cbn [ticks] in Ht. subst tks.
      unfold on_req_error, onConnectionClosed. cbn.
      destruct rs; cbn; try (destruct ru as [x|]; [destruct (truthy_str x)|]; cbn).
      all: first [ exists [EError None (Some message)], []; rewrite app_nil_r;
                   repeat split; cbn; lia
                 | exists [], []; rewrite !app_nil_r; repeat split; cbn; lia ].
    - (* a timer *)
      destruct s as [rs u cip ru dict v str reqs tms tks]. cbn [ticks] in Ht. subst tks.
      unfold on_timer. cbn.
      destruct rs; cbn; try destruct cip; cbn.
      all: first [ exists [], []; rewrite !app_nil_r; repeat split; cbn; lia
                 | exists []; eexists [_]; rewrite app_nil_r; unfold issued; cbn;
                   rewrite map_app; repeat split; cbn; lia ].
    - (* close *)
      unfold _close. destruct (is_closed (readyState s));
        [exists [], []; rewrite !app_nil_r; repeat split; cbn; lia|].
      rewrite issued_abort, ticks_abort. exists [], []. rewrite !app_nil_r.
      unfold abort_req. cbn. destruct (rev (requests s)); cbn; rewrite Ht;
        repeat split; lia. }
  destruct H as (more & reqs & H1 & H2 & H3).
  exists more, (reqs ++ rq). rewrite H1, H2, <- app_assoc.
  repeat split. rewrite length_app. lia.
Qed.

(** X13.  From a state between two callbacks, however the callbacks
    follow one another, what has been emitted and the requests that
    have been issued only grow: no emitted event is changed or removed,
    the options of a request are never changed once it is issued, and
    a callback issues one request at most. *)
Theorem callbacks_only_append evs : forall s,
  settled s ->
  exists more reqs,
    log (vars (run evs s)) = log (vars s) ++ more
    /\ issued (run evs s) = issued s ++ reqs
    /\ (length reqs <= length evs)%nat.
Proof.
  unfold run. induction evs as [|e evs IH]; intros s Hs.
  - exists [], []. rewrite !app_nil_r. now repeat split.
  - cbn [fold_left].
    destruct (exec_adds e s (proj1 Hs)) as (m1 & r1 & L1 & I1 & N1).
    destruct (IH (exec e s) (settled_exec e s Hs)) as (m2 & r2 & L2 & I2 & N2).
    exists (m1 ++ m2), (r1 ++ r2). rewrite L2, L1, I2, I1, <- !app_assoc.
    repeat split. rewrite length_app. cbn [length]. lia.
Qed.

Lemma callbacks_only_append_witness :
  let s := EventSource "http://h/" None in
  let evs := [Response 307 "Temporary Redirect" (Some "http://h/b"); Response 200 "OK" None;
              Chunk (bytes "data: x" ++ [lineFeed; lineFeed]); End; TimerFire 0; Close] in
  length (issued (run evs s)) = 3%nat
  /\ exists more reqs,
       log (vars (run evs s)) = log (vars s) ++ more
       /\ issued (run evs s) = issued s ++ reqs
       /\ (length reqs <= length evs)%nat.
Proof.
  split; [reflexivity|].
  apply (callbacks_only_append
           [Response 307 "Temporary Redirect" (Some "http://h/b"); Response 200 "OK" None;
            Chunk (bytes "data: x" ++ [lineFeed; lineFeed]); End; TimerFire 0; Close]
           (EventSource "http://h/" None)).
  split; [reflexivity|discriminate].
Defined.

(** *** close() *)

(** X14.  [close()] closes the client and aborts the request that is
    held; it emits no event, removes no timer, issues no request and
    leaves the parser variables alone; and a second [close()] changes
    nothing at all. *)
Theorem close_is_silent_and_idempotent s :
  settled s ->
  let s' := exec Close s in
  readyState s' = CLOSED /\ req_aborted s' = true
  /\ vars s' = vars s /\ timers s' = timers s /\ issued s' = issued s
  /\ url s' = url s
  /\ exec Close s' = s'.
Proof.
  intros Hs. pose proof (settled_exec Close s Hs) as Hs'. cbv zeta.
  assert (E : exec Close s = _close s).
  { apply exec_handle; [reflexivity|]. cbn [handle]. rewrite ticks_close. apply Hs. }
  rewrite E in *.
  assert (Hc : readyState (_close s) = CLOSED).
  { unfold _close. destruct (readyState s) eqn:Er; cbn [is_closed]; try assumption;
      unfold abort_req; cbn [requests set_readyState];
      destruct (rev (requests s)); reflexivity. }
  split; [exact Hc|]. split; [now apply Hs'|].
  split; [|split; [|split; [|split]]].
  - unfold _close, abort_req. destruct (is_closed (readyState s)); [reflexivity|].
    cbn [requests set_readyState]. destruct (rev (requests s)); reflexivity.
  - unfold _close, abort_req. destruct (is_closed (readyState s)); [reflexivity|].
    cbn [requests set_readyState]. destruct (rev (requests s)); reflexivity.
  - unfold _close. destruct (is_closed (readyState s)); [reflexivity|].
    now rewrite issued_abort.
  - unfold _close, abort_req. destruct (is_closed (readyState s)); [reflexivity|].
    cbn [requests set_readyState]. destruct (rev (requests s)); reflexivity.
  - apply exec_close_closed; [apply Hs'|exact Hc].
Qed.

Lemma close_is_silent_and_idempotent_witness :
  let s := run [Response 200 "OK" None; Chunk (bytes "data: x" ++ [lineFeed]); End]
               (EventSource "http://h/" None) in
  let s' := exec Close s in
  timers s = [1000]
  /\ readyState s' = CLOSED /\ req_aborted s' = true
  /\ vars s' = vars s /\ timers s' = timers s /\ issued s' = issued s
  /\ url s' = url s
  /\ exec Close s' = s'.
Proof.
  split; [reflexivity|].
  apply (close_is_silent_and_idempotent
           (run [Response 200 "OK" None; Chunk (bytes "data: x" ++ [lineFeed]); End]
                (EventSource "http://h/" None))).
  split; [reflexivity|discriminate].
Defined.

(** *** The constructor *)

(** X15.  A client constructed without a truthy [Last-Event-ID] header
    starts with an empty last event id and keeps the init dictionary as
    it was given; it is connecting, with no connection marked as in
    progress, a reconnect interval of 1000, nothing emitted, no timer,
    and one request, to the url given, not aborted and without a
    [Last-Event-ID] header. *)
Theorem constructor_without_last_event_id u dict :
  given_last_event_id dict = None ->
  let s := EventSource u dict in
  lastEventId (vars s) = "" /\ eventSourceInitDict s = dict
  /\ request_header s "Last-Event-ID" = None
  /\ readyState s = CONNECTING /\ connectionInProgress s = false
  /\ reconnectInterval (vars s) = 1000 /\ log (vars s) = [] /\ timers s = []
  /\ (exists o, requests s = [mkRequest o false] /\ o_url o = u).
Proof.
  intros Hg. cbv zeta.
  assert (E : take_last_event_id dict = ("", dict)).
  { unfold take_last_event_id, given_last_event_id in *.
    destruct dict as [d|]; [|reflexivity].
    destruct (headers d) as [h|]; [|reflexivity].
    destruct (h !! "Last-Event-ID") as [x|]; [|reflexivity].
    destruct (truthy_str x); [discriminate|reflexivity]. }
  split; [|split; [|split]].
  - unfold EventSource. now rewrite E.
  - unfold EventSource. now rewrite E.
  - unfold EventSource. rewrite E.
    unfold request_header, last_request, connect.
    cbn [requests set_requests app rev r_options].
    rewrite last_event_id_header; [reflexivity|].
    cbn [eventSourceInitDict]. unfold given_last_event_id in Hg.
    destruct dict as [d|]; [|exact I].
    destruct (headers d) as [h|]; [|exact I].
    destruct (h !! "Last-Event-ID") as [x|]; [|exact I].
    now destruct (truthy_str x).
  - unfold EventSource. rewrite E. cbn. repeat split. eexists. split; reflexivity.
Qed.

Lemma constructor_without_last_event_id_witness :
  let h : gmap string string := <["Last-Event-ID" := ""]> (<["X-Token" := "t"]> ∅) in
  let dict := Some (mkInit (Some h) JUndefined None) in
  let s := EventSource "http://h/" dict in
  lastEventId (vars s) = "" /\ eventSourceInitDict s = dict
  /\ request_header s "Last-Event-ID" = None
  /\ readyState s = CONNECTING /\ connectionInProgress s = false
  /\ reconnectInterval (vars s) = 1000 /\ log (vars s) = [] /\ timers s = []
  /\ (exists o, requests s = [mkRequest o false] /\ o_url o = "http://h/").
Proof.
  apply (constructor_without_last_event_id "http://h/"
           (Some (mkInit (Some (<["Last-Event-ID" := ""]> (<["X-Token" := "t"]> ∅)))
                         JUndefined None))).
  reflexivity.
Defined.

(** *** The data handler and the connection *)

(** X23.  The data handler changes nothing of the connection: the
    ready state, the url, the url to go back to, the requests, the
    timers and the in-progress mark stay as they are, whatever the
    chunk holds.  What it emits are messages, and each carries the url
    that the client has at that moment, which after a redirect is the
    location and not the url given to the constructor. *)
Theorem data_handler_leaves_connection c s :
  ticks s = 0%nat ->
  let s' := exec (Chunk c) s in
  readyState s' = readyState s /\ url s' = url s /\ reconnectUrl s' = reconnectUrl s
  /\ requests s' = requests s /\ timers s' = timers s
  /\ connectionInProgress s' = connectionInProgress s
  /\ exists more,
       log (vars s') = log (vars s) ++ more
       /\ forallb (is_message_for (url s)) more = true.
Proof.
  intros Ht. cbv zeta. unfold exec. destruct (enabled (Chunk c) s) eqn:He.
  - cbn [handle]. rewrite ticks_on_chunk, Ht. cbn [drain].
    unfold on_chunk. cbn [enabled] in He. destruct (stream s) as [st|]; [|discriminate].
    destruct (on_data (url s) c st (vars s)) as [[st' v']|] eqn:E.
    + destruct (on_data_log _ _ _ _ _ _ E) as (more & Hm & Hf).
      cbn. repeat split. now exists more.
    + cbn. repeat split. exists []. now rewrite app_nil_r.
  - repeat split. exists []. now rewrite app_nil_r.
Qed.

Lemma data_handler_leaves_connection_witness :
  let s := run [Response 302 "Found" (Some "http://h/b"); Response 200 "OK" None]
               (EventSource "http://h/a" None) in
  let s' := exec (Chunk (bytes "data: x" ++ [lineFeed; lineFeed])) s in
  log (vars s') = [EOpen; EMessage "message" "x" "" "http://h/b"]
  /\ readyState s' = readyState s /\ url s' = url s /\ reconnectUrl s' = reconnectUrl s
  /\ requests s' = requests s /\ timers s' = timers s
  /\ connectionInProgress s' = connectionInProgress s
  /\ exists more,
       log (vars s') = log (vars s) ++ more
       /\ forallb (is_message_for (url s)) more = true.
Proof.
  split; [reflexivity|].
  apply (data_handler_leaves_connection (bytes "data: x" ++ [lineFeed; lineFeed])
           (run [Response 302 "Found" (Some "http://h/b"); Response 200 "OK" None]
                (EventSource "http://h/a" None))).
  reflexivity.
Defined.

(** *** Where requests come from *)

(** X25.  After the constructor, a request is issued only by a timer
    and by a redirect with a location: a response with any other
    status or without a location, a chunk, the end of a response, an
    error of the request and [close()] never issue one. *)
Theorem only_timers_and_redirects_issue_requests e s :
  ticks s = 0%nat -> issues_request e = false -> issued (exec e s) = issued s.
Proof.
  intros Ht He. unfold exec. destruct (enabled e s); [|reflexivity].
  assert (H : ticks (handle e s) = 0%nat /\ issued (handle e s) = issued s).
  { destruct e; try discriminate; cbn [handle issues_request] in *.
    - destruct s as [rs u cip ru dict v str reqs tms tks]. cbn [ticks] in Ht. subst tks.
      unfold on_response, onConnectionClosed, _close. cbn -[status_in Z.eqb issued].
      destruct (status_in status [500; 502; 503; 504]).
      { destruct rs; cbn -[issued]; try (now split);
          destruct ru as [x|]; try destruct (truthy_str x); cbn -[issued]; now split. }
      destruct (status_in status [301; 302; 307]).
      { destruct location as [target|]; [|now split].
        cbn [andb] in He. rewrite He. now split. }
      destruct (negb (status =? 200)); [|now split].
      destruct rs; cbn -[issued]; try (now split).
      all: rewrite ticks_abort, issued_abort; now split.
    - rewrite ticks_on_chunk. split; [assumption|].
      unfold on_chunk. destruct (stream s) as [st|]; [|reflexivity].
      now destruct (on_data (url s) chunk st (vars s)) as [[st' v']|].
    - unfold on_end. rewrite ticks_onConnectionClosed. split; [assumption|].
      unfold onConnectionClosed. cbn. destruct (is_closed (readyState s)); [reflexivity|].
      cbn. destruct (reconnectUrl s) as [x|]; try destruct (truthy_str x); reflexivity.
    - unfold on_req_error. rewrite ticks_onConnectionClosed. split; [assumption|].
      unfold onConnectionClosed. cbn. destruct (is_closed (readyState s)); [reflexivity|].
      cbn. destruct (reconnectUrl s) as [x|]; try destruct (truthy_str x); reflexivity.
    - rewrite ticks_close. split; [assumption|].
      unfold _close. destruct (is_closed (readyState s)); [reflexivity|].
      now rewrite issued_abort. }
  destruct H as [-> H]. cbn [drain]. exact H.
Qed.

Lemma only_timers_and_redirects_issue_requests_witness :
  let s := run [Response 200 "OK" None] (EventSource "http://h/" None) in
  issued (exec (Response 301 "Moved Permanently" None) s) = issued s
  /\ issued (exec End s) = issued s
  /\ issued (exec (ReqError "reset") s) = issued s.
Proof.
  split; [|split].
  - apply (only_timers_and_redirects_issue_requests (Response 301 "Moved Permanently" None));
      reflexivity.
  - apply (only_timers_and_redirects_issue_requests End); reflexivity.
  - apply (only_timers_and_redirects_issue_requests (ReqError "reset")); reflexivity.
Defined.

(** *** Redirects in a row *)

Lemma exec_redirect s status msg target :
  settled s -> enabled (Response status msg (Some target)) s = true ->
  status_in status [301; 302; 307] = true -> target <> "" ->
  status_in status [500; 502; 503; 504] = false ->
  exec (Response status msg (Some target)) s
  = connect (set_url target
               ((if status =? 307 then set_reconnectUrl (Some (url s)) else (fun x => x))
                  (set_connectionInProgress false s))).
Proof.
  intros [Hk _] He H3 Ht H5.
  assert (Htt : truthy_str target = true) by (destruct target; [congruence|reflexivity]).
  unfold exec. rewrite He. cbn [handle]. unfold on_response. rewrite H5, H3, Htt.
  destruct s as [rs u cip ru dict v str reqs tms tks]. cbn [ticks] in Hk. subst tks.
  destruct (status =? 307); reflexivity.
Qed.

(** X26.  Two temporary redirects in a row: the url to go back to is
    the one that the client had when the second response arrived, that
    is the location of the first redirect; the url from before the
    first redirect is not kept, and the disconnection that follows
    gives the client the location of the first redirect. *)
Theorem chained_temporary_redirects s t1 t2 m1 m2 d :
  settled s -> enabled (Response 307 m1 (Some t1)) s = true ->
  t1 <> "" -> t2 <> "" ->
  let s2 := run [Response 307 m1 (Some t1); Response 307 m2 (Some t2)] s in
  url s2 = t2 /\ reconnectUrl s2 = Some t1
  /\ (exists o1 o2, requests s2 = requests s ++ [mkRequest o1 false; mkRequest o2 false]
                    /\ o_url o1 = t1 /\ o_url o2 = t2)
  /\ (is_disconnect d = true -> enabled d s2 = true ->
      url (exec d s2) = t1 /\ reconnectUrl (exec d s2) = None).
Proof.
  intros Hs He Ht1 Ht2. cbv zeta. unfold run. cbn [fold_left].
  pose proof (enabled_response_open s 307 m1 (Some t1) Hs He) as Hn.
  rewrite (exec_redirect s 307 m1 t1 Hs He eq_refl Ht1 eq_refl).
  change (307 =? 307) with true. cbv iota.
  set (s1 := connect (set_url t1 (set_reconnectUrl (Some (url s))
                                   (set_connectionInProgress false s)))).
  assert (Hs1 : settled s1).
  { split; [apply Hs|]. intros Hc. now apply Hn in Hc. }
  assert (He1 : enabled (Response 307 m2 (Some t2)) s1 = true).
  { cbn [enabled]. unfold s1. now rewrite req_aborted_connect. }
  rewrite (exec_redirect s1 307 m2 t2 Hs1 He1 eq_refl Ht2 eq_refl).
  change (307 =? 307) with true. cbv iota.
  set (s2 := connect (set_url t2 (set_reconnectUrl (Some (url s1))
                                   (set_connectionInProgress false s1)))).
  assert (Hs2 : settled s2).
  { split; [apply Hs|]. intros Hc. now apply Hn in Hc. }
  split; [reflexivity|]. split; [reflexivity|]. split.
  - eexists _, _. unfold s2, s1, connect. cbn [requests set_requests set_url set_reconnectUrl
                                               set_connectionInProgress].
    rewrite <- app_assoc. split; [reflexivity|]. split; reflexivity.
  - intros Hd Hed.
    destruct (disconnect_exec d s2 Hs2 Hn Hd Hed) as (_ & _ & _ & D).
    change (reconnectUrl s2) with (Some t1) in D. cbv beta iota in D.
    assert (Htt : truthy_str t1 = true) by (destruct t1; [congruence|reflexivity]).
    rewrite Htt in D. exact D.
Qed.

Lemma chained_temporary_redirects_witness :
  let s := EventSource "http://h/a" None in
  let s2 := run [Response 307 "Temporary Redirect" (Some "http://h/b");
                 Response 307 "Temporary Redirect" (Some "http://h/c")] s in
  url s2 = "http://h/c" /\ reconnectUrl s2 = Some "http://h/b"
  /\ (exists o1 o2, requests s2 = requests s ++ [mkRequest o1 false; mkRequest o2 false]
                    /\ o_url o1 = "http://h/b" /\ o_url o2 = "http://h/c")
  /\ url (exec (ReqError "reset") s2) = "http://h/b"
  /\ reconnectUrl (exec (ReqError "reset") s2) = None.
Proof.
  destruct (chained_temporary_redirects (EventSource "http://h/a" None)
              "http://h/b" "http://h/c" "Temporary Redirect" "Temporary Redirect"
              (ReqError "reset"))
    as (H1 & H2 & H3 & H4);
    [split; [reflexivity|discriminate]|reflexivity|discriminate|discriminate|].
  repeat (split; [assumption|]). apply H4; reflexivity.
Defined.

End ConnProps.

(** ** The listeners: properties *)

Module ListenerProps.
Import Js Parser Listeners.

Lemma listeners_on t type f e :
  listeners t (on type f e) = if String.eqb t type then listeners type e ++ [f] else listeners t e.
Proof.
  unfold listeners at 1, on. cbn [registered].
  destruct (String.eqb_spec t type) as [->|Hn].
  - now rewrite lookup_insert_eq.
  - rewrite lookup_insert_ne by congruence. reflexivity.
Qed.

Lemma listeners_removeListener t type f e :
  listeners t (removeListener type f e)
  = if String.eqb t type then remove_last f (listeners type e) else listeners t e.
Proof.
  unfold listeners at 1, removeListener. cbn [registered].
  destruct (String.eqb_spec t type) as [->|Hn].
  - now rewrite lookup_insert_eq.
  - rewrite lookup_insert_ne by congruence. reflexivity.
Qed.

Lemma listeners_removeAll t type e :
  listeners t (removeAllListeners type e) = if String.eqb t type then [] else listeners t e.
Proof.
  unfold listeners, removeAllListeners. cbn [registered].
  destruct (String.eqb_spec t type) as [->|Hn].
  - now rewrite lookup_delete_eq.
  - rewrite lookup_delete_ne by congruence. reflexivity.
Qed.

Lemma listeners_set__listener t f x e : listeners t (set__listener f x e) = listeners t e.
Proof. reflexivity. Qed.

(** X16.  Assigning to [onopen], [onerror] or [onmessage] replaces
    every listener of that type, those added with [addEventListener]
    included, by the function assigned, and leaves the listeners of the
    other types alone; reading the property back gives the function;
    assigning a value that is not a function leaves the type without a
    listener, and the property then reads [undefined]. *)
Theorem handler_property_replaces_listeners method listener e t :
  listeners t (on_set method listener e)
  = (if String.eqb t method
     then match listener with VFun f => [f] | VOther => [] end
     else listeners t e)
  /\ on_get method (on_set method listener e)
     = match listener with VFun f => Some (VFun f) | VOther => None end.
Proof.
  unfold on_set, addEventListener. destruct listener as [f|].
  - split.
    + rewrite listeners_on, !listeners_set__listener, !listeners_removeAll.
      rewrite String.eqb_refl. now destruct (String.eqb t method).
    + unfold on_get. rewrite listeners_on, String.eqb_refl.
      rewrite listeners_set__listener, listeners_removeAll, String.eqb_refl.
      cbn [app _listener on set__listener removeAllListeners].
      now rewrite lookup_insert_eq.
  - split.
    + now rewrite listeners_removeAll.
    + unfold on_get. now rewrite listeners_removeAll, String.eqb_refl.
Qed.

(** *** The property [_listener] *)

Lemma own_listener_set f x e :
  own_listener e -> (forall g, x = Some g -> g = f) -> own_listener (set__listener f x e).
Proof.
  intros H Hx f' g. unfold set__listener. cbn [_listener]. destruct x as [g0|].
  - destruct (Nat.eq_dec f' f) as [->|Hn].
    + rewrite lookup_insert_eq. intros [= <-]. now apply Hx.
    + rewrite lookup_insert_ne by congruence. apply H.
  - destruct (Nat.eq_dec f' f) as [->|Hn].
    + now rewrite lookup_delete_eq.
    + rewrite lookup_delete_ne by congruence. apply H.
Qed.

Lemma own_listener_op e o : own_listener e -> own_listener (apply_op e o).
Proof.
  intros H. destruct o as [type [f|]|type [f|]|method [f|]]; cbn [apply_op]; try assumption.
  - unfold addEventListener, on. cbn [_listener].
    apply (own_listener_set f (Some f) e H). now intros g [= <-].
  - unfold removeEventListener, removeListener. cbn [_listener].
    apply (own_listener_set f None e H). discriminate.
  - unfold on_set, addEventListener, on. cbn [_listener].
    apply (own_listener_set f (Some f) (removeAllListeners method e)); [exact H|].
    now intros g [= <-].
Qed.

Lemma own_listener_ops ops : forall e, own_listener e -> own_listener (apply_ops ops e).
Proof.
  unfold apply_ops. induction ops as [|o ops IH]; intros e H; [assumption|].
  cbn [fold_left]. now apply IH, own_listener_op.
Qed.

(** X17.  Whatever calls of [addEventListener], of
    [removeEventListener] and of the setters of [on<type>] a program
    makes on a new client, the getter of [on<type>] gives the listener
    of that type that was registered first and is still registered, and
    [undefined] when the type has no listener. *)
Theorem handler_property_is_first_listener ops method :
  on_get method (apply_ops ops new_emitter)
  = option_map VFun (head (listeners method (apply_ops ops new_emitter))).
Proof.
  assert (H : own_listener (apply_ops ops new_emitter)).
  { apply own_listener_ops. intros f g. cbn [_listener new_emitter].
    now rewrite lookup_empty. }
  unfold on_get. destruct (listeners method (apply_ops ops new_emitter)) as [|f l];
    [reflexivity|].
  cbn [head option_map].
  destruct (_listener (apply_ops ops new_emitter) !! f) as [g|] eqn:E; [|reflexivity].
  now rewrite (H f g E).
Qed.

Lemma remove_last_snoc f l : remove_last f (l ++ [f]) = l.
Proof.
  unfold remove_last. rewrite rev_unit. cbn [remove_first].
  rewrite Nat.eqb_refl. apply rev_involutive.
Qed.

(** X18.  [removeEventListener] undoes the [addEventListener] made just
    before it with the same type and the same value: the listeners of
    every type are those from before the two calls, also when the
    function was registered for the type already, because the
    registration that is removed is the last one. *)
Theorem add_then_remove_restores type listener e t :
  listeners t (removeEventListener type listener (addEventListener type listener e))
  = listeners t e.
Proof.
  destruct listener as [f|]; [|reflexivity].
  unfold removeEventListener, addEventListener.
  rewrite listeners_removeListener, !listeners_set__listener, !listeners_on.
  rewrite String.eqb_refl, !listeners_set__listener, remove_last_snoc.
  destruct (String.eqb_spec t type) as [->|]; reflexivity.
Qed.

Lemma call_all_outcome {A : Type} throws (payload : A) fs :
  call_all throws payload fs
  = (map (fun f => (f, payload)) (until_throw throws fs),
     option_map Raised (List.find throws fs)).
Proof.
  induction fs as [|f fs IH]; [reflexivity|]. cbn [call_all until_throw List.find].
  destruct (throws f); [reflexivity|]. now rewrite IH.
Qed.

(** X19.  [_emit] throws only what a listener throws: the listeners of
    the type of the event are called in the order of registration up
    to the first one that throws, whose exception goes to the caller;
    when none throws all of them are called and [_emit] returns.  An
    event whose type has no listener is dropped without a throw, an
    error event as well.  [dispatchEvent] is not guarded in that way:
    with the type "error" and no listener for it, it throws the
    unhandled error of the platform, and it throws the error for a
    type that is not specified for an event without a type. *)
Theorem guarded_emit_outcome throws ev e (detail : Emitted) :
  _emit throws ev e
  = (map (fun f => (f, ev)) (until_throw throws (listeners (type_name ev) e)),
     option_map Raised (List.find throws (listeners (type_name ev) e)))
  /\ dispatchEvent throws (Some "error") detail (removeAllListeners "error" e)
     = ([], Some (Unhandled detail))
  /\ dispatchEvent throws (Some "") detail e = ([], Some UnspecifiedType)
  /\ dispatchEvent throws None detail e = ([], Some UnspecifiedType).
Proof.
  split; [|split; [|split; reflexivity]].
  - unfold _emit, emitter_emit.
    destruct (listeners (type_name ev) e) as [|f fs] eqn:E; [reflexivity|].
    cbn [length Nat.ltb Nat.leb]. apply call_all_outcome.
  - unfold dispatchEvent, emitter_emit. cbn [truthy_str].
    now rewrite listeners_removeAll.
Qed.

End ListenerProps.
